(** * Trade execution and accounting core of the backtester

    A shallow embedding of [engine/portfolio.py], of the execution loop of
    [engine/backtest.py] and of the guards of [analytics/metrics.py],
    followed by the properties of the design document that concern them.

    Numbers.  Python's [float] is modelled by exact rationals ([Q], compared
    with [==]): the properties below are statements of exact arithmetic.
    Three features of floats that rationals lack are written out:
    - a float division by zero raises [ZeroDivisionError]; [fdiv] returns a
      [result];
    - [float('inf')] is a value of [xfloat], used where the code returns it;
    - where a rounding decides a branch or a bound, in the funds test of an
      auto-sized [open_position] and in the exponential moving average, the
      code is given with the rounding of every operation as a parameter
      ([Rounded.open_position], [IndicatorsFast.calculate_ema_fast]),
      [binary64] being the rounding of the program.

    Timestamps ([datetime]) are integers. *)

From Stdlib Require Import QArith Qabs Qpower Qround ZArith List String Bool
  Lia Lqa.
Import ListNotations.

Local Open Scope Q_scope.

(** ** Exceptions *)

Inductive exn : Set :=
| ZeroDivisionError
| IndexError
| KeyError.

Inductive result (A : Type) : Type :=
| Ok (a : A)
| Raise (e : exn).

Arguments Ok {A} a.
Arguments Raise {A} e.

Definition bind {A B : Type} (m : result A) (k : A -> result B) : result B :=
  match m with
  | Ok a => k a
  | Raise e => Raise e
  end.

Notation "x <- m ;; k" := (bind m (fun x => k))
  (at level 61, m at next level, right associativity).
Notation "' p <- m ;; k" := (bind m (fun x => match x with p => k end))
  (at level 61, p pattern, m at next level, right associativity).

(** [a / b] on floats. *)
Definition fdiv (a b : Q) : result Q :=
  if Qeq_bool b 0 then Raise ZeroDivisionError else Ok (a / b).

(** [a > b] on floats. *)
Definition Qgtb (a b : Q) : bool := negb (Qle_bool a b).

(** A float that may be [float('inf')]. *)
Inductive xfloat : Set :=
| Finite (q : Q)
| PosInf.

Inductive PositionType : Set :=
| LONG
| SHORT.

Definition PositionType_eqb (a b : PositionType) : bool :=
  match a, b with
  | LONG, LONG | SHORT, SHORT => true
  | _, _ => false
  end.

(** ** [class Trade] *)

Module Trade.

Record t : Set := mk {
  entry_time : Z;
  exit_time : option Z;
  position_type : PositionType;
  entry_price : Q;
  exit_price : Q;
  quantity : Q;
  commission : Q;
  pnl : Q;
  pnl_percent : Q;
  status : string
}.

(** [Trade.close_trade]; the fields are assigned in the order of the source:
    [pnl] reads the entry commission, then [commission] accumulates. *)
Definition close_trade (self : t) (exit_time' : Z) (exit_price' : Q)
    (commission' : Q) : t :=
  let pnl' :=
    match position_type self with
    | LONG =>
        (exit_price' - entry_price self) * quantity self
          - commission self - commission'
    | SHORT =>
        (entry_price self - exit_price') * quantity self
          - commission self - commission'
    end in
  let pnl_percent' :=
    if Qgtb (entry_price self) 0 then
      match position_type self with
      | LONG => ((exit_price' - entry_price self) / entry_price self) * 100
      | SHORT => ((entry_price self - exit_price') / entry_price self) * 100
      end
    else pnl_percent self in
  mk (entry_time self) (Some exit_time') (position_type self)
     (entry_price self) exit_price' (quantity self)
     (commission self + commission') pnl' pnl_percent' "CLOSED".

Definition is_winner (self : t) : bool := Qgtb (pnl self) 0.

End Trade.

(** ** [class Position] *)

Module Position.

Record t : Set := mk {
  position_type : PositionType;
  entry_time : Z;
  entry_price : Q;
  quantity : Q;
  current_price : Q
}.

Definition update_price (self : t) (price : Q) : t :=
  mk (position_type self) (entry_time self) (entry_price self)
     (quantity self) price.

Definition unrealized_pnl (self : t) : Q :=
  match position_type self with
  | LONG => (current_price self - entry_price self) * quantity self
  | SHORT => (entry_price self - current_price self) * quantity self
  end.

End Position.

(** ** The frame of trades

    [trades_df], as [Portfolio.get_trades_df] builds it: [pd.DataFrame()] for
    an empty log, a frame without any column, and otherwise one row per
    trade under the keys of [Trade.to_dict].  A frame that has the columns
    may still have no row. *)
Inductive TradesFrame : Set :=
| NoColumns
| TradeRows (rows : list Trade.t).


(** ** [class Portfolio] *)

Module Portfolio.

Record t : Set := mk {
  initial_capital : Q;
  commission_rate : Q;
  position_size : Q;
  allow_short : bool;
  cash : Q;
  equity : Q;
  current_position : option Position.t;
  trades : list Trade.t;
  equity_curve : list Q;
  timestamps : list Z
}.

(** [Portfolio.__init__] *)
Definition init (initial_capital' commission_rate' position_size' : Q)
    (allow_short' : bool) : t :=
  mk initial_capital' commission_rate' position_size' allow_short'
     initial_capital' initial_capital' None [] [] [].

(** [self.trades[-1]], when [self.trades] is not empty. *)
Fixpoint last_trade (l : list Trade.t) : option Trade.t :=
  match l with
  | [] => None
  | [x] => Some x
  | _ :: l' => last_trade l'
  end.

(** [self.trades[-1] = x], on a list that is not empty. *)
Fixpoint set_last_trade (l : list Trade.t) (x : Trade.t) : list Trade.t :=
  match l with
  | [] => []
  | [_] => [x]
  | y :: l' => y :: set_last_trade l' x
  end.

(** [Portfolio.open_position] *)
Definition open_position (self : t) (timestamp : Z) (price : Q)
    (position_type : PositionType) (quantity : option Q)
    : result (bool * t) :=
  match current_position self with
  | Some _ => Ok (false, self)
  | None =>
    if PositionType_eqb position_type SHORT && negb (allow_short self)
    then Ok (false, self)
    else
      quantity <-
        match quantity with
        | Some q => Ok q
        | None =>
            let available_for_position := cash self * position_size self in
            position_value <-
              fdiv available_for_position (1 + commission_rate self) ;;
            fdiv position_value price
        end ;;
      let commission := quantity * price * commission_rate self in
      let required_capital := quantity * price + commission in
      if Qgtb required_capital (cash self) then Ok (false, self)
      else
        Ok (true,
            mk (initial_capital self) (commission_rate self)
               (position_size self) (allow_short self)
               (cash self - required_capital)
               (equity self)
               (Some (Position.mk position_type timestamp price quantity
                                  price))
               (trades self ++
                  [Trade.mk timestamp None position_type price 0 quantity
                            commission 0 0 "OPEN"])
               (equity_curve self) (timestamps self))
  end.

(** [Portfolio.close_position] *)
Definition close_position (self : t) (timestamp : Z) (price : Q)
    : bool * t :=
  match current_position self with
  | None => (false, self)
  | Some pos =>
    let commission := Position.quantity pos * price * commission_rate self in
    let '(trades', cash') :=
      match last_trade (trades self) with
      | Some last =>
        if String.eqb (Trade.status last) "OPEN" then
          (set_last_trade (trades self)
             (Trade.close_trade last timestamp price commission),
           match Position.position_type pos with
           | LONG => cash self + (Position.quantity pos * price - commission)
           | SHORT =>
               let pnl := (Position.entry_price pos - price)
                          * Position.quantity pos in
               cash self
                 + (Position.quantity pos * Position.entry_price pos
                    + pnl - commission)
           end)
        else (trades self, cash self)
      | None => (trades self, cash self)
      end in
    (true,
     mk (initial_capital self) (commission_rate self) (position_size self)
        (allow_short self) cash' (equity self) None trades'
        (equity_curve self) (timestamps self))
  end.

(** [Portfolio.update] *)
Definition update (self : t) (timestamp : Z) (price : Q) : t :=
  let '(current_position', equity') :=
    match current_position self with
    | Some pos =>
        let pos := Position.update_price pos price in
        let unrealized_pnl := Position.unrealized_pnl pos in
        (Some pos,
         cash self + unrealized_pnl + (Position.quantity pos * price))
    | None => (None, cash self)
    end in
  mk (initial_capital self) (commission_rate self) (position_size self)
     (allow_short self) (cash self) equity' current_position'
     (trades self) (equity_curve self ++ [equity'])
     (timestamps self ++ [timestamp]).

(** [Portfolio.get_trades_df] *)
Definition get_trades_df (self : t) : TradesFrame :=
  match trades self with
  | [] => NoColumns
  | _ :: _ => TradeRows (trades self)
  end.

Definition get_closed_trades (self : t) : list Trade.t :=
  filter (fun t => String.eqb (Trade.status t) "CLOSED") (trades self).

Definition get_open_trades (self : t) : list Trade.t :=
  filter (fun t => String.eqb (Trade.status t) "OPEN") (trades self).

Definition total_trades (self : t) : nat :=
  List.length (get_closed_trades self).

Definition winning_trades (self : t) : nat :=
  List.length (filter Trade.is_winner (get_closed_trades self)).

Definition losing_trades (self : t) : nat :=
  List.length
    (filter (fun t => negb (Trade.is_winner t)) (get_closed_trades self)).

(** Python's [sum] over floats. *)
Definition sum (l : list Q) : Q := fold_left Qplus l 0.

(** The locals [gross_profit] and [gross_loss] of [profit_factor]. *)
Definition gross_profit (self : t) : Q :=
  sum (map Trade.pnl (filter Trade.is_winner (get_closed_trades self))).

Definition gross_loss (self : t) : Q :=
  Qabs (sum (map Trade.pnl
               (filter (fun t => negb (Trade.is_winner t))
                       (get_closed_trades self)))).

(** [Portfolio.profit_factor] *)
Definition profit_factor (self : t) : xfloat :=
  let gross_profit := gross_profit self in
  let gross_loss := gross_loss self in
  if Qeq_bool gross_loss 0 then
    if Qgtb gross_profit 0 then PosInf else Finite 0
  else Finite (gross_profit / gross_loss).


(** [Portfolio.win_rate] *)
Definition win_rate (self : t) : Q :=
  let total := total_trades self in
  if (total =? 0)%nat then 0
  else
    (inject_Z (Z.of_nat (winning_trades self)) / inject_Z (Z.of_nat total))
    * 100.

(** [Portfolio.total_pnl] *)
Definition total_pnl (self : t) : Q :=
  sum (map Trade.pnl (get_closed_trades self)).

(** [Portfolio.total_return] *)
Definition total_return (self : t) : Q :=
  if Qeq_bool (initial_capital self) 0 then 0
  else ((equity self - initial_capital self) / initial_capital self) * 100.



(** [Portfolio.reset] *)
Definition reset (self : t) : t :=
  mk (initial_capital self) (commission_rate self) (position_size self)
     (allow_short self) (initial_capital self) (initial_capital self)
     None [] [] [].

End Portfolio.

(** ** Float arithmetic with its roundings

    A float operation returns the exact result rounded to the nearest
    float.  [binary64] is that rounding for IEEE 754 double precision, ties
    to even, in the normal range (no overflow and no underflow). *)

(** The integer nearest to [x], the even one of two at equal distance. *)
Definition round_half_even (x : Q) : Z :=
  let n := Qnum x in
  let d := Zpos (Qden x) in
  let q := (n / d)%Z in
  let r := (n mod d)%Z in
  match (2 * r ?= d)%Z with
  | Lt => q
  | Gt => (q + 1)%Z
  | Eq => if Z.even q then q else (q + 1)%Z
  end.

(** 2 to the power [e]. *)
Definition pow2 (e : Z) : Q :=
  match e with
  | Z0 => 1
  | Zpos p => inject_Z (2 ^ Zpos p)
  | Zneg p => 1 # (2 ^ p)
  end.

(** The exponent [e] of a positive number [a]: the one that puts
    [a / 2^e] between 2^52 and 2^53. *)
Definition exponent (a : Q) : Z :=
  let e0 := (Z.log2 (Qnum a) - Z.log2 (Zpos (Qden a)) - 52)%Z in
  if Qle_bool (inject_Z (2 ^ 52)) (a * pow2 (- e0)) then e0 else (e0 - 1)%Z.

(** The float nearest to [x]: a significand [m] of 53 bits scaled by a
    power of two. *)
Definition binary64 (x : Q) : Q :=
  if Qeq_bool x 0 then 0
  else
    let a := Qabs x in
    let e := exponent a in
    let m := round_half_even (a * pow2 (- e)) in
    let y := Qred (inject_Z m * pow2 e) in
    if Qle_bool 0 x then y else - y.

Module Rounded.

Section Rounding.

(** The rounding applied to the result of every operation; the identity
    gives exact arithmetic. *)
Variable rnd : Q -> Q.

(** [a / b] on floats. *)
Definition fdiv (a b : Q) : result Q :=
  if Qeq_bool b 0 then Raise ZeroDivisionError else Ok (rnd (a / b)).

(** [Portfolio.open_position], each operation rounded. *)
Definition open_position (self : Portfolio.t) (timestamp : Z) (price : Q)
    (position_type : PositionType) (quantity : option Q)
    : result (bool * Portfolio.t) :=
  match Portfolio.current_position self with
  | Some _ => Ok (false, self)
  | None =>
    if PositionType_eqb position_type SHORT
       && negb (Portfolio.allow_short self)
    then Ok (false, self)
    else
      quantity <-
        match quantity with
        | Some q => Ok q
        | None =>
            let available_for_position :=
              rnd (Portfolio.cash self * Portfolio.position_size self) in
            position_value <-
              fdiv available_for_position
                   (rnd (1 + Portfolio.commission_rate self)) ;;
            fdiv position_value price
        end ;;
      let commission :=
        rnd (rnd (quantity * price) * Portfolio.commission_rate self) in
      let required_capital := rnd (rnd (quantity * price) + commission) in
      if Qgtb required_capital (Portfolio.cash self) then Ok (false, self)
      else
        Ok (true,
            Portfolio.mk (Portfolio.initial_capital self)
               (Portfolio.commission_rate self)
               (Portfolio.position_size self) (Portfolio.allow_short self)
               (rnd (Portfolio.cash self - required_capital))
               (Portfolio.equity self)
               (Some (Position.mk position_type timestamp price quantity
                                  price))
               (Portfolio.trades self ++
                  [Trade.mk timestamp None position_type price 0 quantity
                            commission 0 0 "OPEN"])
               (Portfolio.equity_curve self) (Portfolio.timestamps self))
  end.

End Rounding.

End Rounded.

(** ** pandas [Series] operations used by the drawdown figures *)

(** The running maximum, [equity.expanding().max()]. *)
Fixpoint expanding_max_from (m : Q) (l : list Q) : list Q :=
  match l with
  | [] => []
  | x :: l' =>
      let m' := if Qle_bool m x then x else m in
      m' :: expanding_max_from m' l'
  end.

Definition expanding_max (l : list Q) : list Q :=
  match l with
  | [] => []
  | x :: l' => x :: expanding_max_from x l'
  end.

(** [(equity - running_max) / running_max * 100], element by element.
    pandas does not raise on a zero running maximum: the quotient is then an
    infinity or a NaN, which is no rational; the series is then [None]. *)
Fixpoint drawdown_series (equity running_max : list Q) : option (list Q) :=
  match equity, running_max with
  | e :: equity', m :: running_max' =>
      if Qeq_bool m 0 then None
      else
        match drawdown_series equity' running_max' with
        | Some l => Some ((e - m) / m * 100 :: l)
        | None => None
        end
  | _, _ => Some []
  end.

(** [Series.min()] of a series that is not empty. *)
Fixpoint series_min (x : Q) (l : list Q) : Q :=
  match l with
  | [] => x
  | y :: l' => series_min (if Qle_bool x y then x else y) l'
  end.

(** ** [class SignalType] ([strategies/base_strategy.py]) *)

Inductive SignalType : Set :=
| BUY
| SELL
| HOLD.

Definition SignalType_value (s : SignalType) : Z :=
  match s with
  | BUY => 1
  | SELL => -1
  | HOLD => 0
  end%Z.

(** ** [class Backtester]: the execution loop *)

Module Backtester.

(** One row of [signals_df]: the index entry, [row.get('signal', HOLD)] and
    [row['close']]. *)
Record Row : Set := mkRow {
  timestamp : Z;
  signal : Z;
  close : Q
}.

(** The calls that the loop makes on [self.portfolio]. *)
Inductive call : Set :=
| OpenPosition (timestamp : Z) (price : Q) (position_type : PositionType)
| ClosePosition (timestamp : Z) (price : Q)
| Update (timestamp : Z) (price : Q).

(** A call, the portfolio it was made on and the portfolio it left. *)
Record event : Set := mkEvent {
  ev_call : call;
  ev_before : Portfolio.t;
  ev_after : Portfolio.t
}.

(** The fields of the backtester that the loop uses.  [calls] is ghost
    state: the calls made on [self.portfolio] so far, oldest first.  It is
    written by the three wrappers below and read by nothing. *)
Record t : Set := mk {
  slippage : Q;
  allow_short : bool;
  portfolio : Portfolio.t;
  calls : list event
}.

(** [self.portfolio.open_position(timestamp=.., price=.., position_type=..)];
    the loop drops the returned flag. *)
Definition portfolio_open_position (self : t) (timestamp : Z) (price : Q)
    (position_type : PositionType) : result t :=
  '(_, p) <-
    Portfolio.open_position (portfolio self) timestamp price position_type
                            None ;;
  Ok (mk (slippage self) (allow_short self) p
         (calls self ++
            [mkEvent (OpenPosition timestamp price position_type)
                     (portfolio self) p])).

(** [self.portfolio.close_position(timestamp, price)] *)
Definition portfolio_close_position (self : t) (timestamp : Z) (price : Q)
    : t :=
  let '(_, p) := Portfolio.close_position (portfolio self) timestamp price in
  mk (slippage self) (allow_short self) p
     (calls self ++
        [mkEvent (ClosePosition timestamp price) (portfolio self) p]).

(** [self.portfolio.update(timestamp, price)] *)
Definition portfolio_update (self : t) (timestamp : Z) (price : Q) : t :=
  let p := Portfolio.update (portfolio self) timestamp price in
  mk (slippage self) (allow_short self) p
     (calls self ++ [mkEvent (Update timestamp price) (portfolio self) p]).

(** [self.portfolio.current_position and
     self.portfolio.current_position.position_type == side] *)
Definition holds (self : t) (side : PositionType) : bool :=
  match Portfolio.current_position (portfolio self) with
  | Some pos => PositionType_eqb (Position.position_type pos) side
  | None => false
  end.

(** [self.portfolio.current_position is None] *)
Definition flat (self : t) : bool :=
  match Portfolio.current_position (portfolio self) with
  | Some _ => false
  | None => true
  end.

(** The slippage applied to the close of a bar. *)
Definition execution_price_of (self : t) (signal : Z) (close_price : Q) : Q :=
  if (signal =? SignalType_value BUY)%Z then
    close_price * (1 + slippage self)
  else if (signal =? SignalType_value SELL)%Z then
    close_price * (1 - slippage self)
  else close_price.

(** The body of the [for] loop of [_execute_trades]. *)
Definition process_row (self : t) (row : Row) : result t :=
  let signal := signal row in
  let close_price := close row in
  let execution_price := execution_price_of self signal close_price in
  self <-
    (if (signal =? SignalType_value BUY)%Z then
       let self :=
         if holds self SHORT
         then portfolio_close_position self (timestamp row) execution_price
         else self in
       if flat self
       then portfolio_open_position self (timestamp row) execution_price LONG
       else Ok self
     else if (signal =? SignalType_value SELL)%Z then
       let self :=
         if holds self LONG
         then portfolio_close_position self (timestamp row) execution_price
         else self in
       if flat self && allow_short self
       then portfolio_open_position self (timestamp row) execution_price SHORT
       else Ok self
     else Ok self) ;;
  Ok (portfolio_update self (timestamp row) close_price).

(** The [for] loop of [_execute_trades]. *)
Fixpoint process_rows (self : t) (rows : list Row) : result t :=
  match rows with
  | [] => Ok self
  | row :: rows' =>
      self <- process_row self row ;;
      process_rows self rows'
  end.

(** [signals_df.iloc[-1]] *)
Fixpoint last_row (rows : list Row) : result Row :=
  match rows with
  | [] => Raise IndexError
  | [row] => Ok row
  | _ :: rows' => last_row rows'
  end.

(** [Backtester._execute_trades] *)
Definition execute_trades (self : t) (signals_df : list Row) : result t :=
  self <- process_rows self signals_df ;;
  if flat self then Ok self
  else
    last <- last_row signals_df ;;
    Ok (portfolio_close_position self (timestamp last) (close last)).

(** [Backtester.__init__] *)
Definition init (initial_capital commission_rate position_size : Q)
    (allow_short' : bool) (slippage' : Q) : t :=
  mk slippage' allow_short'
     (Portfolio.init initial_capital commission_rate position_size
                     allow_short')
     [].

(** [Backtester._calculate_max_drawdown], on the [equity] column. *)
Definition calculate_max_drawdown (equity_curve : list Q) : option Q :=
  match equity_curve with
  | [] => Some 0
  | _ :: _ =>
      let equity := equity_curve in
      let running_max := expanding_max equity in
      match drawdown_series equity running_max with
      | Some (d :: drawdown) => Some (Qabs (series_min d drawdown))
      | _ => None
      end
  end.

End Backtester.

(** ** [class PerformanceMetrics] ([analytics/metrics.py]) *)

Module PerformanceMetrics.

(** The value of a metric.  The figures that need numpy or pandas routines
    over floats (powers, square roots, standard deviations, percentiles,
    means of possibly empty series) are outside the model: they are kept as
    [Opaque], tagged with the expression of the source that computes them.
    The guards, the keys and their order are those of the source. *)
Inductive figure : Set :=
| Count (n : nat)
| Float (x : xfloat)
| Opaque (expr : string).

(** A [dict] with string keys, in insertion order. *)
Definition dict : Set := list (string * figure).




(** [PerformanceMetrics._calculate_max_drawdown_value] *)
Definition calculate_max_drawdown_value (equity_curve : list Q) : option Q :=
  match equity_curve with
  | [] => Some 0
  | _ :: _ =>
      let equity := equity_curve in
      let running_max := expanding_max equity in
      match drawdown_series equity running_max with
      | Some (d :: drawdown) => Some (Qabs (series_min d drawdown))
      | _ => None
      end
  end.


(** The local [profit_factor] of [_calculate_trade_metrics], from the rows
    of [closed_trades]. *)
Definition trade_profit_factor (closed_trades : list Trade.t) : xfloat :=
  let wins := filter (fun t => Qgtb (Trade.pnl t) 0) closed_trades in
  let losses := filter (fun t => Qle_bool (Trade.pnl t) 0) closed_trades in
  let gross_profit :=
    match wins with
    | [] => 0
    | _ :: _ => Portfolio.sum (map Trade.pnl wins)
    end in
  let gross_loss :=
    match losses with
    | [] => 0
    | _ :: _ => Qabs (Portfolio.sum (map Trade.pnl losses))
    end in
  if Qgtb gross_loss 0 then Finite (gross_profit / gross_loss) else PosInf.

(** [PerformanceMetrics._calculate_trade_metrics].  Its first statement
    reads [trades_df['status']], before the guard on [closed_trades.empty]:
    on a frame without columns it raises [KeyError]. *)
Definition calculate_trade_metrics (trades_df : TradesFrame) : result dict :=
  match trades_df with
  | NoColumns => Raise KeyError
  | TradeRows rows =>
      let closed_trades :=
        filter (fun t => String.eqb (Trade.status t) "CLOSED") rows in
      match closed_trades with
      | [] => Ok []
      | _ :: _ =>
          let wins := filter (fun t => Qgtb (Trade.pnl t) 0) closed_trades in
          let losses :=
            filter (fun t => Qle_bool (Trade.pnl t) 0) closed_trades in
          Ok [ ("total_trades", Count (List.length closed_trades));
               ("winning_trades", Count (List.length wins));
               ("losing_trades", Count (List.length losses));
               ("win_rate", Opaque "win_rate");
               ("average_win", Opaque "avg_win");
               ("average_loss", Opaque "avg_loss");
               ("profit_factor", Float (trade_profit_factor closed_trades));
               ("expectancy", Opaque "expectancy");
               ("max_consecutive_wins", Opaque "max_consecutive_wins");
               ("max_consecutive_losses", Opaque "max_consecutive_losses");
               ("best_trade", Opaque "best_trade");
               ("worst_trade", Opaque "worst_trade");
               ("avg_trade_duration_minutes",
                Opaque "avg_duration_minutes") ]
      end
  end%string.



(** The body of the [for] loop of [_max_consecutive], with its two
    counters. *)
Fixpoint max_consecutive_loop (arr : list Z) (value : Z)
    (max_count current_count : nat) : nat :=
  match arr with
  | [] => max_count
  | v :: arr' =>
      if (v =? value)%Z then
        let current_count := S current_count in
        let max_count := Nat.max max_count current_count in
        max_consecutive_loop arr' value max_count current_count
      else max_consecutive_loop arr' value max_count 0
  end.

(** [PerformanceMetrics._max_consecutive] *)
Definition max_consecutive (arr : list Z) (value : Z) : nat :=
  match arr with
  | [] => 0
  | _ :: _ => max_consecutive_loop arr value 0 0
  end.

(** [np.sign(closed_trades['pnl'].values)] *)
Definition pnl_signs (closed_trades : list Trade.t) : list Z :=
  map (fun t => Z.sgn (Qnum (Trade.pnl t))) closed_trades.

(** The locals [max_consecutive_wins] and [max_consecutive_losses] of
    [_calculate_trade_metrics]. *)
Definition max_consecutive_wins (closed_trades : list Trade.t) : nat :=
  max_consecutive (pnl_signs closed_trades) 1.

Definition max_consecutive_losses (closed_trades : list Trade.t) : nat :=
  max_consecutive (pnl_signs closed_trades) (-1).

End PerformanceMetrics.

(** ** [utils/validators.py]: the pydantic configurations

    A configuration is built from already typed values; [None] stands for
    the [ValidationError] that pydantic raises when a [Field] bound, a field
    validator or the model validator rejects it.  The decimal bounds of the
    source are taken as the rationals they denote. *)

Module Validators.

Definition Qltb (a b : Q) : bool := negb (Qle_bool b a).

Record BacktestConfig : Set := mkBacktestConfig {
  initial_capital : Q;
  commission_rate : Q;
  position_size : Q;
  allow_short : bool;
  slippage : Q;
  max_position_size : option Q
}.

(** [BacktestConfig.validate_commission] *)
Definition validate_commission (v : Q) : option Q :=
  if Qgtb v (5 # 100) then None else Some v.

(** [BacktestConfig.validate_slippage] *)
Definition validate_slippage (v : Q) : option Q :=
  if Qgtb v (5 # 1000) then None else Some v.

(** [BacktestConfig.validate_position_constraints] *)
Definition validate_position_constraints (self : BacktestConfig)
    : option BacktestConfig :=
  match max_position_size self with
  | Some m => if Qltb m (position_size self) then None else Some self
  | None => Some self
  end.

(** [BacktestConfig(...)]: the [Field] bounds, the field validators, then
    the model validator. *)
Definition backtest_config (initial_capital' commission_rate'
    position_size' : Q) (allow_short' : bool) (slippage' : Q)
    (max_position_size' : option Q) : option BacktestConfig :=
  if negb (Qgtb initial_capital' 0) then None
  else if negb (Qle_bool 0 commission_rate'
                && Qle_bool commission_rate' (1 # 10)) then None
  else if negb (Qgtb position_size' 0 && Qle_bool position_size' 1) then None
  else if negb (Qle_bool 0 slippage' && Qle_bool slippage' (1 # 100))
  then None
  else if match max_position_size' with
          | Some m => negb (Qgtb m 0)
          | None => false
          end then None
  else
    match validate_commission commission_rate',
          validate_slippage slippage' with
    | Some commission_rate', Some slippage' =>
        validate_position_constraints
          (mkBacktestConfig initial_capital' commission_rate' position_size'
                            allow_short' slippage' max_position_size')
    | _, _ => None
    end.

Inductive MATypeEnum : Set :=
| SMA
| EMA.

Definition MATypeEnum_value (t : MATypeEnum) : string :=
  match t with
  | SMA => "SMA"
  | EMA => "EMA"
  end.

Record MAStrategyConfig : Set := mkMAStrategyConfig {
  ma_fast_period : Z;
  ma_slow_period : Z;
  ma_type : MATypeEnum
}.

(** [MAStrategyConfig.validate_periods]; [/] is the true division of two
    ints. *)
Definition validate_periods (self : MAStrategyConfig)
    : option MAStrategyConfig :=
  if (ma_fast_period self >=? ma_slow_period self)%Z then None
  else if Qltb (inject_Z (ma_slow_period self)
                / inject_Z (ma_fast_period self)) 2 then None
  else Some self.

(** [MAStrategyConfig(...)] *)
Definition ma_strategy_config (fast_period slow_period : Z)
    (ma_type' : MATypeEnum) : option MAStrategyConfig :=
  if negb ((1 <? fast_period) && (fast_period <? 200))%Z then None
  else if negb ((1 <? slow_period) && (slow_period <? 500))%Z then None
  else validate_periods (mkMAStrategyConfig fast_period slow_period ma_type').

Record RSIStrategyConfig : Set := mkRSIStrategyConfig {
  rsi_period : Z;
  oversold_threshold : Q;
  overbought_threshold : Q
}.

(** [RSIStrategyConfig.validate_thresholds] *)
Definition validate_thresholds (self : RSIStrategyConfig)
    : option RSIStrategyConfig :=
  if Qltb (overbought_threshold self - oversold_threshold self) 20 then None
  else Some self.

(** [RSIStrategyConfig(...)] *)
Definition rsi_strategy_config (rsi_period' : Z)
    (oversold_threshold' overbought_threshold' : Q)
    : option RSIStrategyConfig :=
  if negb ((2 <? rsi_period') && (rsi_period' <? 100))%Z then None
  else if negb (Qgtb oversold_threshold' 0 && Qltb oversold_threshold' 50)
  then None
  else if negb (Qgtb overbought_threshold' 50
                && Qltb overbought_threshold' 100) then None
  else
    validate_thresholds
      (mkRSIStrategyConfig rsi_period' oversold_threshold'
                           overbought_threshold').

Record BollingerBandsConfig : Set := mkBollingerBandsConfig {
  bb_period : Z;
  bb_std_dev : Q
}.

(** [BollingerBandsConfig.validate_std_dev] *)
Definition validate_std_dev (v : Q) : option Q :=
  if Qltb v (15 # 10) || Qgtb v 3 then None else Some v.

(** [BollingerBandsConfig(...)] *)
Definition bollinger_bands_config (period : Z) (std_dev : Q)
    : option BollingerBandsConfig :=
  if negb ((2 <? period) && (period <? 200))%Z then None
  else if negb (Qgtb std_dev (5 # 10) && Qltb std_dev 5) then None
  else
    match validate_std_dev std_dev with
    | Some std_dev => Some (mkBollingerBandsConfig period std_dev)
    | None => None
    end.

Record MACDStrategyConfig : Set := mkMACDStrategyConfig {
  macd_fast_period : Z;
  macd_slow_period : Z;
  macd_signal_period : Z
}.

(** [MACDStrategyConfig.validate_macd_periods] *)
Definition validate_macd_periods (self : MACDStrategyConfig)
    : option MACDStrategyConfig :=
  if (macd_fast_period self >=? macd_slow_period self)%Z then None
  else if (macd_signal_period self >=? macd_fast_period self)%Z then None
  else Some self.

(** [MACDStrategyConfig(...)] *)
Definition macd_strategy_config (fast_period slow_period signal_period : Z)
    : option MACDStrategyConfig :=
  if negb ((2 <? fast_period) && (fast_period <? 50))%Z then None
  else if negb ((10 <? slow_period) && (slow_period <? 100))%Z then None
  else if negb ((2 <? signal_period) && (signal_period <? 50))%Z then None
  else
    validate_macd_periods
      (mkMACDStrategyConfig fast_period slow_period signal_period).

End Validators.

(** ** The strategies' own [validate_parameters] ([examples/])

    [None] stands for the [ValueError] that the method raises. *)

Module Strategies.

(** [MovingAverageCrossover.validate_parameters]; [ma_type] is the upper-cased
    string kept by [__init__]. *)
Definition ma_validate_parameters (fast_period slow_period : Z)
    (ma_type : string) : option bool :=
  if (fast_period >=? slow_period)%Z then None
  else if ((fast_period <=? 0) || (slow_period <=? 0))%Z then None
  else if negb (String.eqb ma_type "SMA" || String.eqb ma_type "EMA")
  then None
  else Some true.

(** [RSIStrategy.validate_parameters] *)
Definition rsi_validate_parameters (rsi_period : Z)
    (oversold overbought : Q) : option bool :=
  if (rsi_period <=? 0)%Z then None
  else if negb (Qle_bool 0 oversold && Validators.Qltb oversold overbought
                && Qle_bool overbought 100) then None
  else Some true.

(** [BollingerBandsStrategy.validate_parameters] *)
Definition bb_validate_parameters (period : Z) (std_dev : Q) : option bool :=
  if (period <=? 0)%Z then None
  else if Qle_bool std_dev 0 then None
  else Some true.

(** [MACDStrategy.validate_parameters] *)
Definition macd_validate_parameters
    (fast_period slow_period signal_period : Z) : option bool :=
  if (fast_period >=? slow_period)%Z then None
  else if ((fast_period <=? 0) || (slow_period <=? 0)
           || (signal_period <=? 0))%Z then None
  else Some true.

End Strategies.

(** ** [utils/indicators_fast.py]

    The arrays are lists; a float that may be NaN is an [option Q], [None]
    being NaN, which every comparison answers with [False].  The values of
    the simple moving average and of the RSI are those of exact arithmetic;
    the exponential moving average takes the rounding of its operations as
    a parameter. *)

Module IndicatorsFast.

(** The body of the loop of [generate_crossover_signals_fast] at one
    index: [fast_ma[i]], [slow_ma[i]], [fast_ma[i-1]], [slow_ma[i-1]]. *)
Definition crossover_signal (fast slow fast_prev slow_prev : option Q) : Z :=
  match fast, slow, fast_prev, slow_prev with
  | Some f, Some s, Some fp, Some sp =>
      if Qgtb f s && Qle_bool fp sp then 1
      else if Validators.Qltb f s && Qle_bool sp fp then -1
      else 0
  | _, _, _, _ => 0
  end%Z.

(** [generate_crossover_signals_fast]: [np.zeros(n)], then every index from
    1 on is written independently.  [slow_ma] must be at least as long as
    [fast_ma]; a shorter one is read out of bounds: [None]. *)
Definition generate_crossover_signals_fast (fast_ma slow_ma : list (option Q))
    : option (list Z) :=
  let n := List.length fast_ma in
  if (List.length slow_ma <? n)%nat then None
  else
    Some (map (fun i =>
                 match i with
                 | O => 0%Z
                 | S j =>
                     crossover_signal (nth i fast_ma None) (nth i slow_ma None)
                                      (nth j fast_ma None) (nth j slow_ma None)
                 end)
              (seq 0 n)).

(** The body of the loop of [generate_rsi_signals_fast] at one index. *)
Definition rsi_signal (oversold overbought : Q) (rsi rsi_prev : option Q)
    : Z :=
  match rsi, rsi_prev with
  | Some r, Some rp =>
      if Qgtb r oversold && Qle_bool rp oversold then 1
      else if Validators.Qltb r overbought && Qle_bool overbought rp then -1
      else 0
  | _, _ => 0
  end%Z.

(** [generate_rsi_signals_fast] *)
Definition generate_rsi_signals_fast (rsi : list (option Q))
    (oversold overbought : Q) : list Z :=
  let n := List.length rsi in
  map (fun i =>
         match i with
         | O => 0%Z
         | S j => rsi_signal oversold overbought (nth i rsi None)
                             (nth j rsi None)
         end)
      (seq 0 n).

Section RoundedAverage.

(** The rounding applied to the result of every float operation. *)
Variable rnd : Q -> Q.

(** The loop of [calculate_ema_fast], from index 1 on. *)
Fixpoint ema_loop (alpha : Q) (previous : Q) (prices : list Q) : list Q :=
  match prices with
  | [] => []
  | p :: prices' =>
      let current :=
        rnd (rnd (alpha * p) + rnd (rnd (1 - alpha) * previous)) in
      current :: ema_loop alpha current prices'
  end.

(** [calculate_ema_fast].  The compiled kernel does not check the index
    of [result[0] = prices[0]]: on an empty array it returns the empty
    array. *)
Definition calculate_ema_fast (prices : list Q) (period : Z)
    : result (list Q) :=
  alpha <- Rounded.fdiv rnd 2 (rnd (inject_Z period + 1)) ;;
  match prices with
  | [] => Ok []
  | p0 :: prices' => Ok (p0 :: ema_loop alpha p0 prices')
  end.

End RoundedAverage.








End IndicatorsFast.

(** ** The signals of the example strategies ([examples/]) *)

Module Signals.

(** [a >= b], [a <= b], [a > b], [a < b] on a float that may be NaN. *)
Definition nan_ge (a : option Q) (b : Q) : bool :=
  match a with Some a => Qle_bool b a | None => false end.

Definition nan_le (a : option Q) (b : Q) : bool :=
  match a with Some a => Qle_bool a b | None => false end.

Definition nan_gt (a : option Q) (b : Q) : bool :=
  match a with Some a => Qgtb a b | None => false end.

Definition nan_lt (a : option Q) (b : Q) : bool :=
  match a with Some a => Validators.Qltb a b | None => false end.

(** The [for] loop of [RSIStrategy.generate_signals] over the [rsi] column,
    from index 1 on. *)
Fixpoint rsi_signal_loop (oversold overbought : Q) (in_position : bool)
    (rsi_previous : option Q) (rsi : list (option Q)) : list Z :=
  match rsi with
  | [] => []
  | rsi_current :: rsi' =>
      if negb in_position && nan_ge rsi_previous oversold
         && nan_lt rsi_current oversold
      then
        SignalType_value BUY
        :: rsi_signal_loop oversold overbought true rsi_current rsi'
      else if in_position && nan_le rsi_previous overbought
              && nan_gt rsi_current overbought
      then
        SignalType_value SELL
        :: rsi_signal_loop oversold overbought false rsi_current rsi'
      else
        SignalType_value HOLD
        :: rsi_signal_loop oversold overbought in_position rsi_current rsi'
  end.

(** [RSIStrategy.generate_signals]: the [signal] column. *)
Definition rsi_generate_signals (oversold overbought : Q)
    (rsi : list (option Q)) : list Z :=
  match rsi with
  | [] => []
  | rsi0 :: rsi' =>
      SignalType_value HOLD
      :: rsi_signal_loop oversold overbought false rsi0 rsi'
  end.

(** A row of the frame of the Bollinger strategy: [close], [bb_lower],
    [bb_upper]. *)
Record BandRow : Set := mkBandRow {
  band_close : option Q;
  bb_lower : option Q;
  bb_upper : option Q
}.

(** [close <= lower] and [close >= upper] on floats that may be NaN. *)
Definition nan_le2 (a b : option Q) : bool :=
  match a, b with Some a, Some b => Qle_bool a b | _, _ => false end.

(** The [for] loop of [BollingerBandsStrategy.generate_signals], from index
    1 on. *)
Fixpoint bb_signal_loop (in_position : bool) (rows : list BandRow)
    : list Z :=
  match rows with
  | [] => []
  | row :: rows' =>
      if negb in_position && nan_le2 (band_close row) (bb_lower row) then
        SignalType_value BUY :: bb_signal_loop true rows'
      else if in_position && nan_le2 (bb_upper row) (band_close row) then
        SignalType_value SELL :: bb_signal_loop false rows'
      else SignalType_value HOLD :: bb_signal_loop in_position rows'
  end.

(** [BollingerBandsStrategy.generate_signals]: the [signal] column. *)
Definition bb_generate_signals (rows : list BandRow) : list Z :=
  match rows with
  | [] => []
  | _ :: rows' => SignalType_value HOLD :: bb_signal_loop false rows'
  end.

End Signals.

(** * Vocabulary of the properties *)

(** ** Rounding *)

(** The rounding of a positive number. *)
Definition pos64 (a : Q) : Q :=
  inject_Z (round_half_even (a * pow2 (- exponent a))) * pow2 (exponent a).

(** ** Portfolios and curves *)

(** The state in which [Portfolio.__init__] and [Portfolio.reset] leave the
    portfolio, and in which [Backtester.run] enters [_execute_trades]. *)
Definition fresh (p : Portfolio.t) : Prop :=
  Portfolio.current_position p = None
  /\ Portfolio.trades p = []
  /\ Portfolio.equity_curve p = []
  /\ Portfolio.timestamps p = [].

(** The fields that neither opening nor closing touches. *)
Definition same_curve (p q : Portfolio.t) : Prop :=
  Portfolio.timestamps q = Portfolio.timestamps p
  /\ Portfolio.equity_curve q = Portfolio.equity_curve p.

Fixpoint nondecreasing (l : list Q) : Prop :=
  match l with
  | x :: (y :: _) as l' => x <= y /\ nondecreasing l'
  | _ => True
  end.



(** ** OPEN trades and the position *)

Definition is_open (t : Trade.t) : bool :=
  String.eqb (Trade.status t) "OPEN".

(** The pairing kept by the methods: a flat portfolio has no OPEN trade; a
    held position has its OPEN trade at the end of the log and no other. *)
Definition paired (p : Portfolio.t) : Prop :=
  match Portfolio.current_position p with
  | None => filter is_open (Portfolio.trades p) = []
  | Some _ =>
      exists init last,
        Portfolio.trades p = init ++ [last]
        /\ Trade.status last = "OPEN"%string
        /\ filter is_open init = []
  end.

(** At most one OPEN trade, and exactly one iff a position is open. *)
Definition one_open (p : Portfolio.t) : Prop :=
  (List.length (Portfolio.get_open_trades p) <= 1)%nat
  /\ (List.length (Portfolio.get_open_trades p) = 1%nat
      <-> Portfolio.current_position p <> None).

(** ** The calls of the execution loop *)

(** What the loop guarantees of each recorded call: an open is attempted on
    a flat portfolio, a close on a held position, and the portfolio that the
    call left is the one the method computes. *)
Definition valid_call (e : Backtester.event) : Prop :=
  match Backtester.ev_call e with
  | Backtester.OpenPosition ts price side =>
      Portfolio.current_position (Backtester.ev_before e) = None
      /\ exists ok,
           Portfolio.open_position (Backtester.ev_before e) ts price side
                                   None
           = Ok (ok, Backtester.ev_after e)
  | Backtester.ClosePosition ts price =>
      Portfolio.current_position (Backtester.ev_before e) <> None
      /\ Backtester.ev_after e
         = snd (Portfolio.close_position (Backtester.ev_before e) ts price)
  | Backtester.Update ts price =>
      Backtester.ev_after e
      = Portfolio.update (Backtester.ev_before e) ts price
  end.

(** Consecutive calls: each one starts from the portfolio that the previous
    one left. *)
Inductive chain :
    Portfolio.t -> list Backtester.event -> Portfolio.t -> Prop :=
| chain_nil p : chain p [] p
| chain_cons p e es p' :
    Backtester.ev_before e = p -> valid_call e ->
    chain (Backtester.ev_after e) es p' ->
    chain p (e :: es) p'.

(** A call that fills an order at [price], stamped [ts]. *)
Definition fill_at (ts : Z) (price : Q) (e : Backtester.event) : Prop :=
  match Backtester.ev_call e with
  | Backtester.OpenPosition ts' price' _ => ts' = ts /\ price' = price
  | Backtester.ClosePosition ts' price' => ts' = ts /\ price' = price
  | Backtester.Update _ _ => False
  end.

(** [self'] is [self] after the calls [news]. *)
Definition after_calls (self : Backtester.t) (news : list Backtester.event)
    (self' : Backtester.t) : Prop :=
  Backtester.slippage self' = Backtester.slippage self
  /\ Backtester.allow_short self' = Backtester.allow_short self
  /\ Backtester.calls self' = Backtester.calls self ++ news
  /\ chain (Backtester.portfolio self) news (Backtester.portfolio self').

(** A close replaces the last entry of the log, which is its only OPEN
    trade, by that trade closed; the entries before it are kept. *)
Definition closes_last_open (e : Backtester.event) : Prop :=
  match Backtester.ev_call e with
  | Backtester.ClosePosition ts price =>
      exists init last commission,
        Portfolio.trades (Backtester.ev_before e) = init ++ [last]
        /\ Trade.status last = "OPEN"%string
        /\ filter is_open init = []
        /\ Portfolio.trades (Backtester.ev_after e)
           = init ++ [Trade.close_trade last ts price commission]
        /\ Trade.status (Trade.close_trade last ts price commission)
           = "CLOSED"%string
        /\ Portfolio.current_position (Backtester.ev_after e) = None
  | _ => True
  end.

(** An open is attempted on a flat portfolio only; it leaves the log as it
    was or appends one OPEN trade. *)
Definition opens_when_flat (e : Backtester.event) : Prop :=
  match Backtester.ev_call e with
  | Backtester.OpenPosition _ _ _ =>
      Portfolio.current_position (Backtester.ev_before e) = None
      /\ (Portfolio.trades (Backtester.ev_after e)
          = Portfolio.trades (Backtester.ev_before e)
          \/ exists t,
               Portfolio.trades (Backtester.ev_after e)
               = Portfolio.trades (Backtester.ev_before e) ++ [t]
               /\ Trade.status t = "OPEN"%string)
  | _ => True
  end.

(** The configuration under which no row divides by zero. *)
Definition sane (self : Backtester.t) : Prop :=
  0 <= Backtester.slippage self /\ Backtester.slippage self < 1
  /\ ~ 1 + Portfolio.commission_rate (Backtester.portfolio self) == 0.

(** ** The books of a run *)

(** A fresh portfolio whose cash is the initial capital, as [__init__] and
    [reset] leave it. *)
Definition funded (p : Portfolio.t) : Prop :=
  fresh p /\ Portfolio.cash p == Portfolio.initial_capital p.

(** The books balance.  While flat, every trade is CLOSED and the cash is
    the initial capital plus the realized P&L.  While a position is held,
    its trade ends the log, OPEN, after CLOSED trades only, and carries the
    position's side, entry price and quantity; the cash, with the cost of
    the position and its entry commission added back, is the initial capital
    plus the realized P&L. *)
Definition booked (p : Portfolio.t) : Prop :=
  match Portfolio.current_position p with
  | None =>
      Forall (fun t => Trade.status t = "CLOSED"%string) (Portfolio.trades p)
      /\ Portfolio.cash p
         == Portfolio.initial_capital p + Portfolio.total_pnl p
  | Some pos =>
      exists init last,
        Portfolio.trades p = init ++ [last]
        /\ Trade.status last = "OPEN"%string
        /\ Forall (fun t => Trade.status t = "CLOSED"%string) init
        /\ Trade.position_type last = Position.position_type pos
        /\ Trade.entry_price last = Position.entry_price pos
        /\ Trade.quantity last = Position.quantity pos
        /\ Portfolio.cash p
           + (Trade.quantity last * Trade.entry_price last
              + Trade.commission last)
           == Portfolio.initial_capital p + Portfolio.total_pnl p
  end.

(** Shorting is disabled and nothing in the portfolio is SHORT. *)
Definition long_only (p : Portfolio.t) : Prop :=
  Portfolio.allow_short p = false
  /\ Forall (fun t => Trade.position_type t = LONG) (Portfolio.trades p)
  /\ (forall pos, Portfolio.current_position p = Some pos ->
                  Position.position_type pos = LONG).

(** ** Signal columns *)

(** The BUY and SELL of a signal column alternate, a BUY coming only while
    out of position and a SELL only while in position; every other entry is
    HOLD. *)
Fixpoint alternates (in_position : bool) (signals : list Z) : Prop :=
  match signals with
  | [] => True
  | s :: signals' =>
      if (s =? SignalType_value BUY)%Z then
        in_position = false /\ alternates true signals'
      else if (s =? SignalType_value SELL)%Z then
        in_position = true /\ alternates false signals'
      else s = SignalType_value HOLD /\ alternates in_position signals'
  end.

(** No two neighbours of the column are both BUY or both SELL. *)
Definition no_repeated_signal (signals : list Z) : Prop :=
  forall i,
    (nth i signals 0%Z = SignalType_value BUY ->
     nth (S i) signals 0%Z <> SignalType_value BUY)
    /\ (nth i signals 0%Z = SignalType_value SELL ->
        nth (S i) signals 0%Z <> SignalType_value SELL).

(** ** Sample portfolios and runs *)

(** A portfolio holding one unit bought at 100, with no cash left. *)
Definition long_at_100 : Portfolio.t :=
  Portfolio.mk 100 0 1 false 0 100
    (Some (Position.mk LONG 0 100 1 100))
    [Trade.mk 0 None LONG 100 0 1 0 0 0 "OPEN"] [100] [0%Z].

(** A position of 2 units entered at 50 whose trade was already closed. *)
Definition unpaired_position : Portfolio.t :=
  Portfolio.mk 1000 (1 # 1000) 1 false 900 1000
    (Some (Position.mk LONG 3 50 2 50))
    [Trade.mk 1 (Some 2%Z) LONG 40 45 2 (1 # 10) 10 (25 # 2) "CLOSED"]
    [1000] [1%Z].

(** A run whose second trade breaks even: bought at 100 and sold at 110,
    bought again at 110 and sold at 110, without commission. *)
Definition breakeven_rows : list Backtester.Row :=
  [ Backtester.mkRow 1 1 100; Backtester.mkRow 2 (-1) 110;
    Backtester.mkRow 3 1 110; Backtester.mkRow 4 (-1) 110 ].

Definition breakeven_portfolio : Portfolio.t :=
  match Backtester.execute_trades (Backtester.init 10000 0 1 false 0)
                                  breakeven_rows with
  | Ok bt => Backtester.portfolio bt
  | Raise _ => Portfolio.init 10000 0 1 false
  end.

(** The portfolio after a win of 10 followed by a loss of 4. *)
Definition win_then_loss : Portfolio.t :=
  Portfolio.mk 1000 0 1 false 1006 1006 None
    [ Trade.mk 1 (Some 2%Z) LONG 100 110 1 0 10 10 "CLOSED";
      Trade.mk 3 (Some 4%Z) LONG 100 96 1 0 (-4) (-4) "CLOSED" ]
    [] [].


(** A BUY, a HOLD and a SELL. *)
Definition three_rows : list Backtester.Row :=
  [ Backtester.mkRow 10 1 100; Backtester.mkRow 20 0 90;
    Backtester.mkRow 30 (-1) 120 ].

(** * Properties *)

(** ** Comparisons and division *)

Lemma Qgtb_true (a b : Q) : Qgtb a b = true <-> b < a.
Proof.
  unfold Qgtb. rewrite negb_true_iff.
  destruct (Qle_bool a b) eqn:E.
  - apply Qle_bool_iff in E. split; [discriminate | intro H; lra].
  - split; [intros _ | reflexivity].
    apply Qnot_le_lt. intro H. apply Qle_bool_iff in H. congruence.
Qed.

Lemma Qgtb_false (a b : Q) : Qgtb a b = false <-> a <= b.
Proof.
  unfold Qgtb. rewrite negb_false_iff. apply Qle_bool_iff.
Qed.

Lemma Qeq_bool_false (a b : Q) : Qeq_bool a b = false <-> ~ a == b.
Proof.
  split.
  - intros E H. apply Qeq_bool_iff in H. congruence.
  - intro H. destruct (Qeq_bool a b) eqn:E; [| reflexivity].
    apply Qeq_bool_iff in E. contradiction.
Qed.

Lemma fdiv_Ok (a b : Q) : ~ b == 0 -> fdiv a b = Ok (a / b).
Proof.
  intro H. unfold fdiv. apply Qeq_bool_false in H. now rewrite H.
Qed.

(** ** The rounding to binary64

    [binary64] keeps the order and returns the small integers as they
    are. *)

Section Rne.

Lemma rne_bounds (x : Q) :
  (Qfloor x <= round_half_even x <= Qfloor x + 1)%Z.
Proof.
  unfold round_half_even. destruct x as [n d]. cbn [Qnum Qden Qfloor].
  destruct (2 * (n mod Zpos d) ?= Zpos d)%Z; [| lia | lia].
  destruct (Z.even _); lia.
Qed.

Lemma rne_monotone (x y : Q) :
  x <= y -> (round_half_even x <= round_half_even y)%Z.
Proof.
  intro H.
  pose proof (Qfloor_resp_le x y H) as F.
  pose proof (rne_bounds x) as Bx. pose proof (rne_bounds y) as By.
  destruct (Z.eq_dec (Qfloor x) (Qfloor y)) as [E | N]; [| lia].
  clear Bx By F. revert H E.
  unfold round_half_even, Qle. destruct x as [n1 d1], y as [n2 d2].
  cbn [Qnum Qden Qfloor]. intros H E.
  pose proof (Z.div_mod n1 (Zpos d1) ltac:(lia)) as D1.
  pose proof (Z.div_mod n2 (Zpos d2) ltac:(lia)) as D2.
  pose proof (Z.mod_pos_bound n1 (Zpos d1) ltac:(lia)) as R1.
  pose proof (Z.mod_pos_bound n2 (Zpos d2) ltac:(lia)) as R2.
  rewrite <- E in *.
  set (q := (n1 / Zpos d1)%Z) in *.
  set (r1 := (n1 mod Zpos d1)%Z) in *.
  set (r2 := (n2 mod Zpos d2)%Z) in *.
  assert (K : (r1 * Zpos d2 <= r2 * Zpos d1)%Z) by nia.
  destruct (Z.compare_spec (2 * r1) (Zpos d1)) as [C1 | C1 | C1];
    destruct (Z.compare_spec (2 * r2) (Zpos d2)) as [C2 | C2 | C2];
    try (destruct (Z.even q)); try lia; exfalso; nia.
Qed.

Lemma rne_eq (x y : Q) : x == y -> round_half_even x = round_half_even y.
Proof.
  intro H.
  apply Z.le_antisymm; apply rne_monotone; rewrite H; apply Qle_refl.
Qed.

Lemma rne_Z (n : Z) : round_half_even (inject_Z n) = n.
Proof.
  unfold round_half_even, inject_Z. cbn [Qnum Qden].
  rewrite Z.mod_1_r, Z.div_1_r. reflexivity.
Qed.

End Rne.

Section Pow2.

Lemma pow2_Qpower (e : Z) : pow2 e == 2 ^ e.
Proof.
  destruct e as [| p | p].
  - reflexivity.
  - unfold pow2. rewrite Zpower_Qpower by lia. reflexivity.
  - unfold pow2.
    change (2 ^ Zneg p) with (/ (2 ^ Zpos p)).
    rewrite <- (Zpower_Qpower 2 (Zpos p)) by lia.
    rewrite <- Pos2Z.inj_pow. reflexivity.
Qed.

Lemma pow2_pos (e : Z) : 0 < pow2 e.
Proof. rewrite pow2_Qpower. apply Qpower_0_lt. reflexivity. Qed.

Lemma pow2_plus (a b : Z) : pow2 (a + b) == pow2 a * pow2 b.
Proof.
  rewrite !pow2_Qpower. apply Qpower_plus. discriminate.
Qed.

Lemma pow2_le (a b : Z) : (a <= b)%Z -> pow2 a <= pow2 b.
Proof.
  intro H. rewrite !pow2_Qpower. apply Qpower_le_compat_l; [exact H |].
  discriminate.
Qed.

Lemma pow2_Z (e : Z) : (0 <= e)%Z -> pow2 e == inject_Z (2 ^ e).
Proof.
  intro H. rewrite pow2_Qpower, Zpower_Qpower by exact H. reflexivity.
Qed.

Lemma pow2_cancel (e : Z) : pow2 (- e) * pow2 e == 1.
Proof.
  rewrite <- pow2_plus. replace (- e + e)%Z with 0%Z by lia. reflexivity.
Qed.

End Pow2.

Section Exponent.

Lemma log2_bounds (n : Z) :
  (0 < n)%Z ->
  pow2 (Z.log2 n) <= inject_Z n /\ inject_Z n < pow2 (Z.log2 n + 1).
Proof.
  intro H. pose proof (Z.log2_spec n H) as [L U].
  pose proof (Z.log2_nonneg n) as P.
  rewrite !pow2_Z by lia. split.
  - now rewrite <- Zle_Qle.
  - rewrite <- Zlt_Qlt.
    now replace (Z.log2 n + 1)%Z with (Z.succ (Z.log2 n)) by lia.
Qed.

Lemma scaled_bounds (a : Q) :
  0 < a ->
  let e0 := (Z.log2 (Qnum a) - Z.log2 (Zpos (Qden a)) - 52)%Z in
  pow2 51 < a * pow2 (- e0) /\ a * pow2 (- e0) < pow2 53.
Proof.
  intros Ha e0.
  assert (Hn : (0 < Qnum a)%Z).
  { unfold Qlt in Ha. simpl in Ha. lia. }
  destruct (log2_bounds (Qnum a) Hn) as [Ln Un].
  destruct (log2_bounds (Zpos (Qden a)) ltac:(lia)) as [Ld Ud].
  set (ln := Z.log2 (Qnum a)) in *.
  set (ld := Z.log2 (Zpos (Qden a))) in *.
  assert (Ea : a == inject_Z (Qnum a) / inject_Z (Zpos (Qden a))).
  { destruct a as [n d]. simpl. apply Qmake_Qdiv. }
  assert (Dpos : 0 < inject_Z (Zpos (Qden a))).
  { change 0 with (inject_Z 0). rewrite <- Zlt_Qlt. lia. }
  pose proof (pow2_pos ld) as Pld. pose proof (pow2_pos (ld + 1)) as Pld1.
  pose proof (pow2_pos (- e0)) as Pe.
  assert (U : a < pow2 (ln - ld + 1)).
  { rewrite Ea. apply Qlt_shift_div_r; [exact Dpos |].
    apply Qlt_le_trans with (pow2 (ln + 1)); [exact Un |].
    replace (ln + 1)%Z with ((ln - ld + 1) + ld)%Z by lia.
    rewrite pow2_plus. pose proof (pow2_pos (ln - ld + 1)). nra. }
  assert (L : pow2 (ln - ld - 1) < a).
  { rewrite Ea. apply Qlt_shift_div_l; [exact Dpos |].
    apply Qlt_le_trans with (pow2 (ln - ld - 1) * pow2 (ld + 1)).
    - pose proof (pow2_pos (ln - ld - 1)). nra.
    - rewrite <- pow2_plus.
      replace (ln - ld - 1 + (ld + 1))%Z with ln by lia.
      exact Ln. }
  split.
  - replace 51%Z with ((ln - ld - 1) + (- e0))%Z by (unfold e0; lia).
    rewrite pow2_plus. nra.
  - replace 53%Z with ((ln - ld + 1) + (- e0))%Z by (unfold e0; lia).
    rewrite pow2_plus. nra.
Qed.

Lemma exponent_spec (a : Q) :
  0 < a ->
  pow2 52 <= a * pow2 (- exponent a) /\ a * pow2 (- exponent a) < pow2 53.
Proof.
  intro Ha. destruct (scaled_bounds a Ha) as [L U]. cbv zeta in L, U.
  unfold exponent.
  set (e0 := (Z.log2 (Qnum a) - Z.log2 (Zpos (Qden a)) - 52)%Z) in *.
  destruct (Qle_bool (inject_Z (2 ^ 52)) (a * pow2 (- e0))) eqn:B.
  - apply Qle_bool_iff in B. split; [| exact U].
    rewrite pow2_Z by lia. exact B.
  - assert (B' : a * pow2 (- e0) < pow2 52).
    { apply Qnot_le_lt. intro K. rewrite pow2_Z in K by lia.
      apply Qle_bool_iff in K. congruence. }
    replace (- (e0 - 1))%Z with (1 + - e0)%Z by lia.
    rewrite pow2_plus.
    assert (E52 : pow2 52 == 2 * pow2 51)
      by (change 52%Z with (1 + 51)%Z; now rewrite pow2_plus).
    assert (E53 : pow2 53 == 2 * pow2 52)
      by (change 53%Z with (1 + 52)%Z; now rewrite pow2_plus).
    change (pow2 1) with (inject_Z 2). change (inject_Z 2) with 2.
    split; [rewrite E52 | rewrite E53]; nra.
Qed.

Lemma exponent_monotone (x y : Q) :
  0 < x -> x <= y -> (exponent x <= exponent y)%Z.
Proof.
  intros Hx Hxy.
  destruct (exponent_spec x Hx) as [Lx Ux].
  destruct (exponent_spec y ltac:(lra)) as [Ly Uy].
  destruct (Z_le_gt_dec (exponent x) (exponent y)) as [K | K]; [exact K |].
  exfalso.
  set (ex := exponent x) in *. set (ey := exponent y) in *.
  assert (Y : y < pow2 (53 + ey)).
  { rewrite pow2_plus. pose proof (pow2_cancel ey) as C.
    pose proof (pow2_pos ey). pose proof (pow2_pos (- ey)).
    assert (E : y == y * pow2 (- ey) * pow2 ey)
      by (rewrite <- Qmult_assoc, C; ring).
    rewrite E. nra. }
  assert (X : pow2 (52 + ex) <= x).
  { rewrite pow2_plus. pose proof (pow2_cancel ex) as C.
    pose proof (pow2_pos ex). pose proof (pow2_pos (- ex)).
    assert (E : x == x * pow2 (- ex) * pow2 ex)
      by (rewrite <- Qmult_assoc, C; ring).
    rewrite E. nra. }
  pose proof (pow2_le (53 + ey) (52 + ex) ltac:(lia)). lra.
Qed.

End Exponent.

Section Binary64.

Lemma significand_bounds (a : Q) :
  0 < a ->
  (2 ^ 52 <= round_half_even (a * pow2 (- exponent a)) <= 2 ^ 53)%Z.
Proof.
  intro Ha. destruct (exponent_spec a Ha) as [L U].
  split.
  - rewrite <- (rne_Z (2 ^ 52)). apply rne_monotone.
    rewrite <- pow2_Z by lia. exact L.
  - rewrite <- (rne_Z (2 ^ 53)). apply rne_monotone.
    rewrite <- pow2_Z by lia. lra.
Qed.

Lemma pos64_pos (a : Q) : 0 < a -> 0 < pos64 a.
Proof.
  intro Ha. unfold pos64. pose proof (significand_bounds a Ha) as [L _].
  pose proof (pow2_pos (exponent a)).
  assert (0 < inject_Z (round_half_even (a * pow2 (- exponent a)))).
  { change 0 with (inject_Z 0). rewrite <- Zlt_Qlt. lia. }
  nra.
Qed.

Lemma pos64_monotone (x y : Q) : 0 < x -> x <= y -> pos64 x <= pos64 y.
Proof.
  intros Hx Hxy. assert (Hy : 0 < y) by lra.
  pose proof (exponent_monotone x y Hx Hxy) as E.
  pose proof (significand_bounds x Hx) as [Lx Ux].
  pose proof (significand_bounds y Hy) as [Ly Uy].
  unfold pos64.
  set (ex := exponent x) in *. set (ey := exponent y) in *.
  set (mx := round_half_even (x * pow2 (- ex))) in *.
  set (my := round_half_even (y * pow2 (- ey))) in *.
  pose proof (pow2_pos ex) as Pex. pose proof (pow2_pos ey) as Pey.
  destruct (Z.eq_dec ex ey) as [Q | N].
  - assert (M : (mx <= my)%Z).
    { unfold mx, my. apply rne_monotone. rewrite Q.
      pose proof (pow2_pos (- ey)). nra. }
    rewrite Q. rewrite Zle_Qle in M. nra.
  - assert (K : (ex + 1 <= ey)%Z) by lia.
    apply Qle_trans with (pow2 (53 + ex)).
    + rewrite pow2_plus, (pow2_Z 53) by lia.
      rewrite Zle_Qle in Ux. nra.
    + apply Qle_trans with (pow2 (52 + ey)).
      * apply pow2_le. lia.
      * rewrite pow2_plus, (pow2_Z 52) by lia.
        rewrite Zle_Qle in Ly. nra.
Qed.

Lemma binary64_pos (x : Q) : 0 < x -> binary64 x == pos64 x.
Proof.
  intro H. unfold binary64.
  assert (N : Qeq_bool x 0 = false).
  { destruct (Qeq_bool x 0) eqn:E; [| reflexivity].
    apply Qeq_bool_iff in E. lra. }
  assert (P : Qle_bool 0 x = true) by (apply Qle_bool_iff; lra).
  rewrite N, P. cbv zeta. rewrite Qred_correct.
  assert (A : Qabs x = x).
  { destruct x as [[| p | p] d]; try reflexivity.
    unfold Qlt in H. simpl in H. lia. }
  rewrite A. reflexivity.
Qed.

Lemma binary64_neg (x : Q) : x < 0 -> binary64 x == - pos64 (- x).
Proof.
  intro H. unfold binary64.
  assert (N : Qeq_bool x 0 = false).
  { destruct (Qeq_bool x 0) eqn:E; [| reflexivity].
    apply Qeq_bool_iff in E. lra. }
  assert (P : Qle_bool 0 x = false).
  { destruct (Qle_bool 0 x) eqn:E; [| reflexivity].
    apply Qle_bool_iff in E. lra. }
  rewrite N, P. cbv zeta. rewrite Qred_correct.
  assert (A : Qabs x = - x).
  { destruct x as [[| p | p] d]; try reflexivity.
    unfold Qlt in H. simpl in H. lia. }
  rewrite A. reflexivity.
Qed.

Lemma binary64_zero (x : Q) : x == 0 -> binary64 x = 0.
Proof.
  intro H. unfold binary64. apply Qeq_bool_iff in H. now rewrite H.
Qed.

Theorem binary64_monotone (x y : Q) : x <= y -> binary64 x <= binary64 y.
Proof.
  intro H.
  destruct (Q_dec x 0) as [[Xn | Xp] | X0];
    destruct (Q_dec y 0) as [[Yn | Yp] | Y0]; try lra.
  - rewrite (binary64_neg x Xn), (binary64_neg y Yn).
    pose proof (pos64_monotone (- y) (- x) ltac:(lra) ltac:(lra)). lra.
  - rewrite (binary64_neg x Xn), (binary64_pos y Yp).
    pose proof (pos64_pos (- x) ltac:(lra)).
    pose proof (pos64_pos y Yp). lra.
  - rewrite (binary64_neg x Xn), (binary64_zero y Y0).
    pose proof (pos64_pos (- x) ltac:(lra)). lra.
  - rewrite (binary64_pos x Xp), (binary64_pos y Yp).
    now apply pos64_monotone.
  - rewrite (binary64_zero x X0), (binary64_pos y Yp).
    pose proof (pos64_pos y Yp). lra.
  - rewrite (binary64_zero x X0), (binary64_zero y Y0). lra.
Qed.

Lemma binary64_small_integers :
  binary64 0 == 0 /\ binary64 1 == 1 /\ binary64 2 == 2.
Proof. repeat split; vm_compute; reflexivity. Qed.

End Binary64.

(** ** [Portfolio.update] *)

Section Update.

Import Portfolio.

Variables (self : Portfolio.t) (timestamp : Z) (price : Q).

Lemma update_curve :
  equity_curve (update self timestamp price)
    = equity_curve self ++ [equity (update self timestamp price)]
  /\ timestamps (update self timestamp price)
    = timestamps self ++ [timestamp].
Proof.
  unfold update. destruct (current_position self); simpl; auto.
Qed.


End Update.

(** C1, at an input where the code departs from it.  The portfolio holds a
    LONG position of quantity 1 entered at 100 and no cash.  Marked at 110,
    [update] appends the sample to the curve, but the equity it writes is 120:
    the unrealized P&L (10) is added on top of quantity x price (110), so it
    is not cash + quantity x price = 110. *)
Theorem update_long_double_counts :
  let p := Portfolio.update long_at_100 1 110 in
  Portfolio.equity p == 120
  /\ ~ Portfolio.equity p == Portfolio.cash long_at_100 + 1 * 110
  /\ Portfolio.equity_curve p = [100; Portfolio.equity p]
  /\ Portfolio.timestamps p = [0; 1]%Z.
Proof.
  cbv zeta. split; [| split; [| split]].
  - vm_compute. reflexivity.
  - intro H. vm_compute in H. discriminate.
  - reflexivity.
  - reflexivity.
Qed.

(** ** [Portfolio.open_position] *)

Section OpenPosition.

Import Portfolio.

Variables (self : Portfolio.t) (timestamp : Z) (price : Q).

(** The capital that an auto-sized order requires is the allocated
    fraction of the cash. *)
Lemma auto_size_required_capital :
  ~ price == 0 -> ~ 1 + commission_rate self == 0 ->
  let quantity :=
    cash self * position_size self / (1 + commission_rate self) / price in
  quantity * price + quantity * price * commission_rate self
  == cash self * position_size self.
Proof. intros Hp Hc. cbv zeta. field. split; assumption. Qed.

Lemma auto_size_quantity :
  ~ price == 0 -> ~ 1 + commission_rate self == 0 ->
  cash self * position_size self / (1 + commission_rate self) / price
  == (cash self * position_size self) / (price * (1 + commission_rate self)).
Proof. intros Hp Hc. field. split; assumption. Qed.

Lemma allocated_fraction_le_cash :
  0 <= cash self -> position_size self <= 1 ->
  cash self * position_size self <= cash self.
Proof. intros Hc Hs. nra. Qed.

(** An open position, a SHORT that is not allowed, or an uncovered explicit
    quantity: the three declines return the portfolio as it was. *)
Lemma open_position_declined (side : PositionType) (quantity : option Q)
    (self' : Portfolio.t) :
  open_position self timestamp price side quantity = Ok (false, self') ->
  self' = self.
Proof.
  unfold open_position.
  destruct (current_position self); [congruence |].
  destruct (PositionType_eqb side SHORT && negb (allow_short self));
    [congruence |].
  destruct quantity as [q |]; simpl.
  - destruct (Qgtb _ _); congruence.
  - destruct (fdiv _ (1 + _)); simpl; [| discriminate].
    destruct (fdiv _ price); simpl; [| discriminate].
    destruct (Qgtb _ _); congruence.
Qed.

End OpenPosition.

(** C2.  An order with an explicit quantity whose cost, quantity x price plus
    the commission on it, exceeds the cash is declined: [open_position]
    returns [False] and the portfolio it leaves is the portfolio it was given
    (cash, position, trade log and everything else). *)
Theorem open_position_insufficient_funds
    (self : Portfolio.t) (timestamp : Z) (price : Q) (side : PositionType)
    (quantity : Q) :
  Portfolio.cash self
    < quantity * price + quantity * price * Portfolio.commission_rate self ->
  Portfolio.open_position self timestamp price side (Some quantity)
  = Ok (false, self).
Proof.
  intro H. unfold Portfolio.open_position.
  destruct (Portfolio.current_position self); [reflexivity |].
  destruct (PositionType_eqb side SHORT && negb (Portfolio.allow_short self));
    [reflexivity |].
  simpl. apply Qgtb_true in H. now rewrite H.
Qed.

Lemma open_position_insufficient_funds_witness :
  Portfolio.open_position (Portfolio.init 10000 (1 # 1000) 1 false)
    5 100 LONG (Some 100)
  = Ok (false, Portfolio.init 10000 (1 # 1000) 1 false).
Proof.
  apply (open_position_insufficient_funds
           (Portfolio.init 10000 (1 # 1000) 1 false) 5 100 LONG 100).
  vm_compute. reflexivity.
Defined.

(** C9, as stated, fails when the commission rate is -1: the sizing divides
    by [1 + commission_rate] and the call raises instead of succeeding. *)
Lemma open_position_auto_size_may_raise :
  ~ (forall (self : Portfolio.t) (timestamp : Z) (price : Q)
            (side : PositionType),
        0 <= Portfolio.cash self -> 0 < price ->
        Portfolio.position_size self <= 1 ->
        Portfolio.current_position self = None ->
        (side = SHORT -> Portfolio.allow_short self = true) ->
        exists self',
          Portfolio.open_position self timestamp price side None
          = Ok (true, self')).
Proof.
  intro H.
  destruct (H (Portfolio.init 10000 (-1) 1 false) 0%Z 100 LONG)
    as [self' E].
  - vm_compute. discriminate.
  - reflexivity.
  - vm_compute. discriminate.
  - reflexivity.
  - discriminate.
  - vm_compute in E. discriminate.
Qed.

(** With the identity as rounding, [Rounded.open_position] is
    [Portfolio.open_position]. *)
Lemma rounded_exact (self : Portfolio.t) (timestamp : Z) (price : Q)
    (side : PositionType) (quantity : option Q) :
  Rounded.open_position (fun x => x) self timestamp price side quantity
  = Portfolio.open_position self timestamp price side quantity.
Proof. reflexivity. Qed.

(** C9, amended.  With price > 0, no open position, an allowed side and a
    commission rate other than -1 (so that 1 + commission_rate, as computed,
    is not zero), an auto-sized [open_position] does not raise.  It derives
    the quantity (cash x position_size) / (1 + commission_rate) / price and
    the capital that quantity requires, quantity x price plus the commission
    on it.  When the required capital, as computed, does not exceed the
    cash, the position is opened with that quantity, the required capital is
    debited and one OPEN trade is appended; when it does, the call returns
    [False] and leaves the portfolio as it was.  Under exact arithmetic,
    with cash >= 0 and position_size <= 1, the quantity is
    (cash x position_size) / (price x (1 + commission_rate)) and the
    required capital is cash x position_size, which does not exceed the
    cash: the open succeeds. *)
Theorem open_position_auto_size_outcome
    (rnd : Q -> Q) (self : Portfolio.t) (timestamp : Z) (price : Q)
    (side : PositionType) :
  0 < price ->
  ~ rnd (1 + Portfolio.commission_rate self) == 0 ->
  Portfolio.current_position self = None ->
  (side = SHORT -> Portfolio.allow_short self = true) ->
  let available_for_position :=
    rnd (Portfolio.cash self * Portfolio.position_size self) in
  let position_value :=
    rnd (available_for_position
         / rnd (1 + Portfolio.commission_rate self)) in
  let quantity := rnd (position_value / price) in
  let commission :=
    rnd (rnd (quantity * price) * Portfolio.commission_rate self) in
  let required_capital := rnd (rnd (quantity * price) + commission) in
  (exists ok self',
      Rounded.open_position rnd self timestamp price side None
      = Ok (ok, self'))
  /\ (required_capital <= Portfolio.cash self ->
      Rounded.open_position rnd self timestamp price side None
      = Ok (true,
            Portfolio.mk (Portfolio.initial_capital self)
              (Portfolio.commission_rate self)
              (Portfolio.position_size self) (Portfolio.allow_short self)
              (rnd (Portfolio.cash self - required_capital))
              (Portfolio.equity self)
              (Some (Position.mk side timestamp price quantity price))
              (Portfolio.trades self ++
                 [Trade.mk timestamp None side price 0 quantity commission
                           0 0 "OPEN"])
              (Portfolio.equity_curve self) (Portfolio.timestamps self)))
  /\ (Portfolio.cash self < required_capital ->
      Rounded.open_position rnd self timestamp price side None
      = Ok (false, self))
  /\ ((forall x, rnd x == x) ->
      0 <= Portfolio.cash self -> Portfolio.position_size self <= 1 ->
      quantity
      == (Portfolio.cash self * Portfolio.position_size self)
         / (price * (1 + Portfolio.commission_rate self))
      /\ required_capital
         == Portfolio.cash self * Portfolio.position_size self
      /\ required_capital <= Portfolio.cash self).
Proof.
  intros Hprice Hrate Hflat Hside.
  intros available_for_position position_value quantity commission
         required_capital.
  assert (Hp : ~ price == 0) by lra.
  assert (Hs : PositionType_eqb side SHORT
               && negb (Portfolio.allow_short self) = false).
  { destruct side; [reflexivity |]. rewrite Hside; reflexivity. }
  assert (E : Rounded.open_position rnd self timestamp price side None
              = if Qgtb required_capital (Portfolio.cash self)
                then Ok (false, self)
                else
                  Ok (true,
                      Portfolio.mk (Portfolio.initial_capital self)
                        (Portfolio.commission_rate self)
                        (Portfolio.position_size self)
                        (Portfolio.allow_short self)
                        (rnd (Portfolio.cash self - required_capital))
                        (Portfolio.equity self)
                        (Some (Position.mk side timestamp price quantity
                                           price))
                        (Portfolio.trades self ++
                           [Trade.mk timestamp None side price 0 quantity
                                     commission 0 0 "OPEN"])
                        (Portfolio.equity_curve self)
                        (Portfolio.timestamps self))).
  { unfold Rounded.open_position, Rounded.fdiv. rewrite Hflat, Hs.
    apply Qeq_bool_false in Hrate, Hp. rewrite Hrate. simpl.
    rewrite Hp. reflexivity. }
  split; [| split; [| split]].
  - rewrite E. destruct (Qgtb _ _); eauto.
  - intro H. apply Qgtb_false in H. rewrite E, H. reflexivity.
  - intro H. apply Qgtb_true in H. rewrite E, H. reflexivity.
  - intros Hr Hcash Hsize.
    assert (Hrate' : ~ 1 + Portfolio.commission_rate self == 0)
      by (now rewrite <- (Hr _)).
    assert (Ha : available_for_position
                 == Portfolio.cash self * Portfolio.position_size self)
      by apply Hr.
    assert (Hv : position_value
                 == Portfolio.cash self * Portfolio.position_size self
                    / (1 + Portfolio.commission_rate self)).
    { unfold position_value. rewrite (Hr (_ / _)), (Hr (1 + _)), Ha.
      reflexivity. }
    assert (Hq : quantity
                 == Portfolio.cash self * Portfolio.position_size self
                    / (1 + Portfolio.commission_rate self) / price).
    { unfold quantity. rewrite (Hr (_ / _)), Hv. reflexivity. }
    assert (Hc : commission
                 == quantity * price * Portfolio.commission_rate self).
    { unfold commission. rewrite (Hr (_ * _)), (Hr (quantity * price)).
      reflexivity. }
    assert (Hreq : required_capital
                   == Portfolio.cash self * Portfolio.position_size self).
    { unfold required_capital.
      rewrite (Hr (_ + _)), (Hr (quantity * price)), Hc, Hq.
      exact (auto_size_required_capital self price Hp Hrate'). }
    split; [| split].
    + rewrite Hq. exact (auto_size_quantity self price Hp Hrate').
    + exact Hreq.
    + rewrite Hreq. exact (allocated_fraction_le_cash self Hcash Hsize).
Qed.

(** In exact arithmetic a half-sized order at 0.1% commission is opened;
    in binary64 the full-sized order of the portfolio of 10000.0 at 0.05%
    commission, priced 100.0, requires 10000 + 2^-39 by rounding and is
    declined. *)
Lemma open_position_auto_size_outcome_witness :
  (exists self',
      Rounded.open_position (fun x => x)
        (Portfolio.init 10000 (1 # 1000) (1 # 2) false) 7 100 LONG None
      = Ok (true, self')
      /\ Portfolio.cash self' == 5000)
  /\ Rounded.open_position binary64
       (Portfolio.init 10000 (binary64 (5 # 10000)) 1 false) 0 100 LONG None
     = Ok (false, Portfolio.init 10000 (binary64 (5 # 10000)) 1 false).
Proof.
  split.
  - destruct (open_position_auto_size_outcome (fun x => x)
                (Portfolio.init 10000 (1 # 1000) (1 # 2) false) 7 100 LONG)
      as (_ & Hopen & _ & _).
    + reflexivity.
    + vm_compute. discriminate.
    + reflexivity.
    + discriminate.
    + eexists. split.
      * apply Hopen. vm_compute. discriminate.
      * vm_compute. reflexivity.
  - destruct (open_position_auto_size_outcome binary64
                (Portfolio.init 10000 (binary64 (5 # 10000)) 1 false)
                0 100 LONG)
      as (_ & _ & Hdecline & _).
    + reflexivity.
    + vm_compute. discriminate.
    + reflexivity.
    + discriminate.
    + apply Hdecline. vm_compute. reflexivity.
Defined.

(** ** [Portfolio.close_position] *)

(** C10.  When a position is open but the trade log is empty or its last
    entry is not OPEN, [close_position] returns [True] and clears
    [current_position]; the cash, the trade log and every other field are
    left as they were: nothing is credited and no trade is closed. *)
Theorem close_position_unpaired
    (self : Portfolio.t) (pos : Position.t) (timestamp : Z) (price : Q) :
  Portfolio.current_position self = Some pos ->
  (forall last, Portfolio.last_trade (Portfolio.trades self) = Some last ->
                Trade.status last <> "OPEN"%string) ->
  Portfolio.close_position self timestamp price
  = (true,
     Portfolio.mk (Portfolio.initial_capital self)
       (Portfolio.commission_rate self) (Portfolio.position_size self)
       (Portfolio.allow_short self) (Portfolio.cash self)
       (Portfolio.equity self) None (Portfolio.trades self)
       (Portfolio.equity_curve self) (Portfolio.timestamps self)).
Proof.
  intros Hpos Hlast. unfold Portfolio.close_position. rewrite Hpos.
  destruct (Portfolio.last_trade (Portfolio.trades self)) as [last |] eqn:E;
    [| reflexivity].
  destruct (String.eqb (Trade.status last) "OPEN") eqn:S; [| reflexivity].
  apply String.eqb_eq in S. now destruct (Hlast last eq_refl).
Qed.

Lemma close_position_unpaired_witness :
  let '(ok, self') := Portfolio.close_position unpaired_position 4 60 in
  ok = true
  /\ Portfolio.current_position self' = None
  /\ Portfolio.cash self' = Portfolio.cash unpaired_position
  /\ Portfolio.trades self' = Portfolio.trades unpaired_position.
Proof.
  rewrite (close_position_unpaired unpaired_position
             (Position.mk LONG 3 50 2 50) 4 60).
  - repeat split.
  - reflexivity.
  - intros last E. injection E as <-. discriminate.
Defined.

(** ** Profit factor *)

Section ProfitFactor.

Import Portfolio.

Lemma fold_left_Qplus_pos (l : list Q) (a : Q) :
  Forall (fun x => 0 < x) l -> 0 <= a -> l <> [] ->
  0 < fold_left Qplus l a.
Proof.
  revert a. induction l as [| x l IH]; intros a Hl Ha Hne.
  - congruence.
  - inversion Hl as [| ? ? Hx Hl']; subst. simpl.
    destruct l as [| y l'].
    + simpl. lra.
    + apply IH; [assumption | lra | discriminate].
Qed.

Lemma winners_pnl_pos (l : list Trade.t) :
  Forall (fun x => 0 < x) (map Trade.pnl (filter Trade.is_winner l)).
Proof.
  apply Forall_forall. intros x Hx.
  apply in_map_iff in Hx. destruct Hx as (t & <- & Ht).
  apply filter_In in Ht. destruct Ht as [_ Ht].
  now apply Qgtb_true in Ht.
Qed.

Variable self : Portfolio.t.

Lemma gross_profit_pos_iff :
  0 < gross_profit self <-> (0 < winning_trades self)%nat.
Proof.
  unfold gross_profit, winning_trades, sum.
  destruct (filter Trade.is_winner (get_closed_trades self))
    as [| w ws] eqn:E.
  - simpl. split; [intro H; lra | intro H; lia].
  - split; [intros _; simpl; lia | intros _].
    rewrite <- E.
    apply fold_left_Qplus_pos;
      [apply winners_pnl_pos | lra | rewrite E; discriminate].
Qed.

Lemma no_losers_gross_loss :
  losing_trades self = 0%nat -> gross_loss self == 0.
Proof.
  unfold losing_trades, gross_loss. intro H.
  apply length_zero_iff_nil in H. rewrite H. reflexivity.
Qed.

Lemma profit_factor_PosInf_iff :
  profit_factor self = PosInf
  <-> (0 < winning_trades self)%nat /\ gross_loss self == 0.
Proof.
  rewrite <- gross_profit_pos_iff. unfold profit_factor.
  destruct (Qeq_bool (gross_loss self) 0) eqn:L.
  - apply Qeq_bool_iff in L.
    destruct (Qgtb (gross_profit self) 0) eqn:G.
    + apply Qgtb_true in G. tauto.
    + apply Qgtb_false in G. split; [discriminate | intros [H _]; lra].
  - apply Qeq_bool_false in L. split; [discriminate | tauto].
Qed.

(** The profit factor of the trade metrics reads the same two sums. *)
Lemma trade_profit_factor_eq :
  PerformanceMetrics.trade_profit_factor (get_closed_trades self)
  = if Qgtb (gross_loss self) 0
    then Finite (gross_profit self / gross_loss self)
    else PosInf.
Proof.
  unfold PerformanceMetrics.trade_profit_factor, gross_profit, gross_loss.
  set (closed := get_closed_trades self).
  assert (Hl : filter (fun t => Qle_bool (Trade.pnl t) 0) closed
               = filter (fun t => negb (Trade.is_winner t)) closed).
  { apply filter_ext. intro t. unfold Trade.is_winner, Qgtb.
    now rewrite negb_involutive. }
  rewrite Hl.
  change (fun t => Qgtb (Trade.pnl t) 0) with Trade.is_winner.
  destruct (filter Trade.is_winner closed);
    destruct (filter (fun t => negb (Trade.is_winner t)) closed);
    reflexivity.
Qed.

End ProfitFactor.

(** C4, as stated, fails on a log with a win and a break-even trade: the
    break-even trade is counted as a losing trade, the gross loss is still
    zero and the profit factor is +inf. *)
Lemma profit_factor_inf_with_a_losing_trade :
  ~ (forall self : Portfolio.t,
        Portfolio.profit_factor self = PosInf
        <-> (0 < Portfolio.winning_trades self)%nat
            /\ Portfolio.losing_trades self = 0%nat).
Proof.
  intro H. destruct (H breakeven_portfolio) as [H1 _].
  assert (E : Portfolio.profit_factor breakeven_portfolio = PosInf)
    by (vm_compute; reflexivity).
  destruct (H1 E) as [_ L]. vm_compute in L. discriminate.
Qed.

(** C4, amended.  [Portfolio.profit_factor] is gross_profit / gross_loss
    when the gross loss is not zero; it is +inf exactly when there is at
    least one winning trade and the gross loss is zero, which includes every
    log with wins and no losing trade; it is 0 when there are no wins.  The
    profit factor of the trade metrics is the same quotient when the gross
    loss is positive, and +inf when there are wins and no losing trade. *)
Theorem profit_factor_cases (self : Portfolio.t) :
  (~ Portfolio.gross_loss self == 0 ->
   Portfolio.profit_factor self
   = Finite (Portfolio.gross_profit self / Portfolio.gross_loss self))
  /\ (Portfolio.profit_factor self = PosInf
      <-> (0 < Portfolio.winning_trades self)%nat
          /\ Portfolio.gross_loss self == 0)
  /\ ((0 < Portfolio.winning_trades self)%nat ->
      Portfolio.losing_trades self = 0%nat ->
      Portfolio.profit_factor self = PosInf)
  /\ (Portfolio.winning_trades self = 0%nat ->
      exists q, Portfolio.profit_factor self = Finite q /\ q == 0)
  /\ (0 < Portfolio.gross_loss self ->
      PerformanceMetrics.trade_profit_factor
        (Portfolio.get_closed_trades self)
      = Portfolio.profit_factor self)
  /\ ((0 < Portfolio.winning_trades self)%nat ->
      Portfolio.losing_trades self = 0%nat ->
      PerformanceMetrics.trade_profit_factor
        (Portfolio.get_closed_trades self)
      = PosInf).
Proof.
  split; [| split; [| split; [| split; [| split]]]].
  - intro H. unfold Portfolio.profit_factor.
    apply Qeq_bool_false in H. now rewrite H.
  - apply profit_factor_PosInf_iff.
  - intros W L. apply profit_factor_PosInf_iff.
    split; [assumption | now apply no_losers_gross_loss].
  - intro W.
    assert (G : ~ 0 < Portfolio.gross_profit self)
      by (rewrite gross_profit_pos_iff; lia).
    assert (G0 : Portfolio.gross_profit self == 0).
    { unfold Portfolio.gross_profit, Portfolio.winning_trades in *.
      apply length_zero_iff_nil in W. rewrite W. reflexivity. }
    unfold Portfolio.profit_factor.
    destruct (Qeq_bool (Portfolio.gross_loss self) 0) eqn:L.
    + assert (E : Qgtb (Portfolio.gross_profit self) 0 = false)
        by (apply Qgtb_false; lra).
      rewrite E. exists 0. split; reflexivity.
    + eexists. split; [reflexivity |].
      rewrite G0. unfold Qdiv. ring.
  - intro H. rewrite trade_profit_factor_eq. unfold Portfolio.profit_factor.
    assert (E : Qgtb (Portfolio.gross_loss self) 0 = true)
      by (now apply Qgtb_true).
    assert (N : Qeq_bool (Portfolio.gross_loss self) 0 = false)
      by (apply Qeq_bool_false; lra).
    now rewrite E, N.
  - intros W L. rewrite trade_profit_factor_eq.
    assert (E : Qgtb (Portfolio.gross_loss self) 0 = false).
    { apply Qgtb_false. rewrite (no_losers_gross_loss self L). lra. }
    now rewrite E.
Qed.

Lemma profit_factor_cases_witness :
  Portfolio.profit_factor win_then_loss
  = Finite (Portfolio.gross_profit win_then_loss
            / Portfolio.gross_loss win_then_loss)
  /\ PerformanceMetrics.trade_profit_factor
       (Portfolio.get_closed_trades win_then_loss)
     = Portfolio.profit_factor win_then_loss
  /\ Portfolio.gross_profit win_then_loss
     / Portfolio.gross_loss win_then_loss == 5 # 2.
Proof.
  destruct (profit_factor_cases win_then_loss) as (H1 & _ & _ & _ & H5 & _).
  split; [| split].
  - apply H1. vm_compute. discriminate.
  - apply H5. vm_compute. reflexivity.
  - vm_compute. reflexivity.
Defined.

(** ** Guards of the metrics *)


(** [_calculate_trade_metrics] called on the frame of an empty log: the
    frame has no [status] column to read. *)
Lemma calculate_trade_metrics_empty_log (self : Portfolio.t) :
  Portfolio.trades self = [] ->
  PerformanceMetrics.calculate_trade_metrics (Portfolio.get_trades_df self)
  = Raise KeyError.
Proof.
  intro H. unfold Portfolio.get_trades_df. now rewrite H.
Qed.




(** ** Maximum drawdown *)

Section Drawdown.

Lemma drawdown_le_0 (x m : Q) : 0 < m -> x <= m -> (x - m) / m * 100 <= 0.
Proof.
  intros Hm Hx. unfold Qdiv.
  pose proof (Qinv_lt_0_compat m Hm) as Hi.
  nra.
Qed.

Lemma drawdown_eq_0 (x m : Q) :
  0 < m -> ((x - m) / m * 100 == 0 <-> x == m).
Proof.
  intro Hm. split; intro H.
  - assert (E : (x - m) / m * 100 * (m / 100) == x - m)
      by (field; lra).
    rewrite H in E. lra.
  - rewrite H. field. lra.
Qed.

(** The drawdowns below a positive peak [m]: none is positive, and all are
    zero exactly when the series never falls below its peak. *)
Lemma drawdown_series_from (l : list Q) :
  forall m, 0 < m ->
  exists dds,
    drawdown_series l (expanding_max_from m l) = Some dds
    /\ Forall (fun d => d <= 0) dds
    /\ (Forall (fun d => d == 0) dds <-> nondecreasing (m :: l)).
Proof.
  induction l as [| x l IH]; intros m Hm.
  - exists []. simpl. repeat split; constructor.
  - cbn [expanding_max_from drawdown_series].
    destruct (Qle_bool m x) eqn:E.
    + apply Qle_bool_iff in E.
      assert (Hx : 0 < x) by lra.
      destruct (IH x Hx) as (dds & -> & Hle & Hiff).
      assert (N : Qeq_bool x 0 = false) by (apply Qeq_bool_false; lra).
      rewrite N. eexists. split; [reflexivity |]. split.
      * constructor; [apply drawdown_le_0; lra | assumption].
      * split.
        -- intro F. inversion F; subst. split; [assumption | tauto].
        -- intros [_ F]. constructor; [| tauto].
           apply drawdown_eq_0; lra.
    + assert (Hlt : x < m).
      { apply Qnot_le_lt. intro H. apply Qle_bool_iff in H. congruence. }
      destruct (IH m Hm) as (dds & -> & Hle & _).
      assert (N : Qeq_bool m 0 = false) by (apply Qeq_bool_false; lra).
      rewrite N. eexists. split; [reflexivity |]. split.
      * constructor; [apply drawdown_le_0; lra | assumption].
      * split.
        -- intro F. inversion F as [| ? ? H0 _]; subst.
           apply (proj1 (drawdown_eq_0 x m Hm)) in H0. lra.
        -- intros [H _]. lra.
Qed.

Lemma series_min_le_0 (l : list Q) :
  forall x, x <= 0 -> Forall (fun d => d <= 0) l ->
  series_min x l <= 0
  /\ (series_min x l == 0 <-> x == 0 /\ Forall (fun d => d == 0) l).
Proof.
  induction l as [| y l IH]; intros x Hx Hl.
  - simpl. split; [assumption |]. split; [auto | tauto].
  - inversion Hl as [| ? ? Hy Hl']; subst. simpl.
    destruct (Qle_bool x y) eqn:E.
    + apply Qle_bool_iff in E.
      destruct (IH x Hx Hl') as [Hle Hiff]. split; [assumption |].
      rewrite Hiff. split.
      * intros [H0 F]. split; [assumption |]. constructor; [lra | assumption].
      * intros [H0 F]. inversion F; subst. tauto.
    + assert (Hlt : y < x).
      { apply Qnot_le_lt. intro H. apply Qle_bool_iff in H. congruence. }
      destruct (IH y Hy Hl') as [Hle Hiff]. split; [assumption |].
      rewrite Hiff. split.
      * intros [H0 _]. lra.
      * intros [H0 F]. inversion F; subst. lra.
Qed.

Lemma Qabs_eq_0 (x : Q) : Qabs x == 0 <-> x == 0.
Proof.
  split; intro H.
  - destruct (Qabs_Qle_condition x 0) as [K _].
    assert (L : Qabs x <= 0) by lra. apply K in L. lra.
  - rewrite H. reflexivity.
Qed.

Lemma max_drawdown_positive_start (e0 : Q) (rest : list Q) :
  0 < e0 ->
  exists d,
    Backtester.calculate_max_drawdown (e0 :: rest) = Some d
    /\ (d == 0 <-> nondecreasing (e0 :: rest)).
Proof.
  intro H0. unfold Backtester.calculate_max_drawdown.
  cbn [expanding_max drawdown_series].
  assert (N : Qeq_bool e0 0 = false) by (apply Qeq_bool_false; lra).
  rewrite N.
  destruct (drawdown_series_from rest e0 H0) as (dds & -> & Hle & Hiff).
  eexists. split; [reflexivity |].
  assert (D0 : (e0 - e0) / e0 * 100 == 0) by (apply drawdown_eq_0; lra).
  assert (D0' : (e0 - e0) / e0 * 100 <= 0) by lra.
  destruct (series_min_le_0 dds _ D0' Hle) as [_ Hmin].
  rewrite Qabs_eq_0, Hmin, Hiff.
  assert (T : nondecreasing (e0 :: rest) <-> nondecreasing (e0 :: rest))
    by tauto.
  tauto.
Qed.

Lemma max_drawdown_nonneg (equity_curve : list Q) (d : Q) :
  Backtester.calculate_max_drawdown equity_curve = Some d -> 0 <= d.
Proof.
  unfold Backtester.calculate_max_drawdown.
  destruct equity_curve as [| e0 rest].
  - intro H. injection H as <-. lra.
  - destruct (drawdown_series _ _) as [[| d0 dds] |]; try discriminate.
    intro H. injection H as <-. apply Qabs_nonneg.
Qed.

End Drawdown.

(** C8, as stated, fails on a curve that starts below zero: for the
    falling curve -100, -200 the running maximum is negative, the quotient
    changes sign and the computed maximum drawdown is 0. *)
Lemma max_drawdown_zero_on_falling_curve :
  ~ (forall (equity_curve : list Q) (d : Q),
        equity_curve <> [] ->
        Backtester.calculate_max_drawdown equity_curve = Some d ->
        0 <= d /\ (d == 0 <-> nondecreasing equity_curve)).
Proof.
  intro H.
  destruct (H [-100; -200] (Qabs (series_min ((-100 - -100) / -100 * 100)
                                    [(-200 - -100) / -100 * 100])))
    as [_ [K _]].
  - discriminate.
  - reflexivity.
  - assert (E : Qabs (series_min ((-100 - -100) / -100 * 100)
                        [(-200 - -100) / -100 * 100]) == 0)
      by (vm_compute; reflexivity).
    destruct (K E) as [L _]. vm_compute in L. now apply L.
Qed.

(** C8, amended.  The maximum drawdown, computed by the backtester or by
    the metrics, is never negative.  For every equity curve whose first
    sample is positive it is defined, and it is 0 if and only if the
    series is non-decreasing. *)
Theorem max_drawdown_zero_iff_nondecreasing :
  (forall (equity_curve : list Q) (d : Q),
      Backtester.calculate_max_drawdown equity_curve = Some d -> 0 <= d)
  /\ (forall (e0 : Q) (rest : list Q),
         0 < e0 ->
         exists d,
           Backtester.calculate_max_drawdown (e0 :: rest) = Some d
           /\ PerformanceMetrics.calculate_max_drawdown_value (e0 :: rest)
              = Some d
           /\ 0 <= d
           /\ (d == 0 <-> nondecreasing (e0 :: rest))).
Proof.
  split.
  - apply max_drawdown_nonneg.
  - intros e0 rest H0.
    destruct (max_drawdown_positive_start e0 rest H0) as (d & E & Hiff).
    exists d. split; [exact E |]. split; [exact E |].
    split; [exact (max_drawdown_nonneg _ _ E) | exact Hiff].
Qed.

Lemma max_drawdown_zero_iff_nondecreasing_witness :
  exists d,
    Backtester.calculate_max_drawdown [100; 120; 90; 130] = Some d
    /\ 0 <= d
    /\ ~ d == 0.
Proof.
  destruct max_drawdown_zero_iff_nondecreasing as [_ H].
  destruct (H 100 [120; 90; 130]) as (d & E & _ & Hd & Hiff).
  - reflexivity.
  - exists d. split; [exact E |]. split; [exact Hd |].
    intro Z. apply Hiff in Z. simpl in Z.
    destruct Z as (_ & Z & _). vm_compute in Z. now apply Z.
Defined.

(** ** The portfolio at the start of a run *)

Lemma fresh_reset (p : Portfolio.t) : fresh (Portfolio.reset p).
Proof. repeat split. Qed.

Lemma fresh_init (initial_capital commission_rate position_size : Q)
    (allow_short : bool) :
  fresh (Portfolio.init initial_capital commission_rate position_size
                        allow_short).
Proof. repeat split. Qed.

Lemma fresh_backtester (initial_capital commission_rate position_size : Q)
    (allow_short : bool) (slippage : Q) :
  fresh (Backtester.portfolio
           (Backtester.init initial_capital commission_rate position_size
                            allow_short slippage)).
Proof. apply fresh_init. Qed.

(** ** The execution loop *)

Section Calls.

Import Backtester.

Lemma chain_app p es q es' r :
  chain p es q -> chain q es' r -> chain p (es ++ es') r.
Proof.
  induction 1 as [| p e es q Hb Hv Hc IH]; intro H; simpl.
  - assumption.
  - econstructor; eauto.
Qed.

Lemma chain_one p e :
  ev_before e = p -> valid_call e -> chain p [e] (ev_after e).
Proof. intros Hb Hv. econstructor; eauto. constructor. Qed.

Lemma after_calls_nil self : after_calls self [] self.
Proof.
  unfold after_calls. rewrite app_nil_r. repeat split. constructor.
Qed.

Lemma after_calls_app self es self1 es' self2 :
  after_calls self es self1 -> after_calls self1 es' self2 ->
  after_calls self (es ++ es') self2.
Proof.
  intros (S1 & A1 & C1 & H1) (S2 & A2 & C2 & H2).
  unfold after_calls. rewrite S2, A2, C2, C1, app_assoc.
  repeat split; try assumption. eapply chain_app; eauto.
Qed.

Lemma holds_position self side :
  holds self side = true ->
  Portfolio.current_position (portfolio self) <> None.
Proof.
  unfold holds. destruct (Portfolio.current_position _); congruence.
Qed.

Lemma not_flat_position self :
  flat self = false -> Portfolio.current_position (portfolio self) <> None.
Proof.
  unfold flat. destruct (Portfolio.current_position _); congruence.
Qed.

Lemma flat_position self :
  flat self = true -> Portfolio.current_position (portfolio self) = None.
Proof.
  unfold flat. destruct (Portfolio.current_position _); congruence.
Qed.

Lemma close_call self ts price :
  Portfolio.current_position (portfolio self) <> None ->
  let self' := portfolio_close_position self ts price in
  after_calls self
    [mkEvent (ClosePosition ts price) (portfolio self) (portfolio self')]
    self'.
Proof.
  intro H. cbv zeta. unfold portfolio_close_position, after_calls.
  destruct (Portfolio.close_position (portfolio self) ts price)
    as [ok p] eqn:E.
  simpl. repeat split.
  apply (chain_one _ (mkEvent (ClosePosition ts price) (portfolio self) p));
    [reflexivity |].
  unfold valid_call. simpl. rewrite E. auto.
Qed.

Lemma open_call self ts price side self' :
  Portfolio.current_position (portfolio self) = None ->
  portfolio_open_position self ts price side = Ok self' ->
  after_calls self
    [mkEvent (OpenPosition ts price side) (portfolio self) (portfolio self')]
    self'.
Proof.
  intros H. unfold portfolio_open_position, after_calls.
  destruct (Portfolio.open_position (portfolio self) ts price side None)
    as [[ok p] | e] eqn:E; simpl; [| discriminate].
  intro K. injection K as <-. simpl. repeat split.
  apply (chain_one _
           (mkEvent (OpenPosition ts price side) (portfolio self) p));
    [reflexivity |].
  unfold valid_call. simpl. split; [assumption |]. now exists ok.
Qed.

Lemma update_call self ts price :
  let self' := portfolio_update self ts price in
  after_calls self
    [mkEvent (Update ts price) (portfolio self) (portfolio self')] self'
  /\ portfolio self' = Portfolio.update (portfolio self) ts price.
Proof.
  cbv zeta. unfold portfolio_update, after_calls. simpl. repeat split.
  apply (chain_one _ (mkEvent (Update ts price) (portfolio self) _));
    reflexivity.
Qed.

(** The position transitions of one row: the calls made before [update]
    are fills stamped with the row's time, all at the same price.  [may_open]
    is the test that guards the open; it implies that the portfolio is
    flat. *)
Lemma transition_calls (may_open : t -> bool) self ts price side self' :
  (forall s, may_open s = true -> flat s = true) ->
  (let self :=
     if holds self (match side with LONG => SHORT | SHORT => LONG end)
     then portfolio_close_position self ts price
     else self in
   if may_open self then portfolio_open_position self ts price side
   else Ok self) = Ok self' ->
  exists fills,
    after_calls self fills self' /\ Forall (fill_at ts price) fills.
Proof.
  intro Hflat. cbv zeta.
  destruct (holds self _) eqn:Hh.
  - pose proof (close_call self ts price (holds_position _ _ Hh)) as Hc.
    cbv zeta in Hc.
    destruct (may_open (portfolio_close_position self ts price)) eqn:Hf.
    + intro Ho.
      pose proof (open_call _ _ _ _ _ (flat_position _ (Hflat _ Hf)) Ho)
        as Ho'.
      eexists. split.
      * eapply after_calls_app; eauto.
      * repeat constructor.
    + intro K. injection K as <-. eexists. split; [exact Hc |].
      repeat constructor.
  - destruct (may_open self) eqn:Hf.
    + intro Ho.
      pose proof (open_call _ _ _ _ _ (flat_position _ (Hflat _ Hf)) Ho)
        as Ho'.
      eexists. split; [exact Ho' |]. repeat constructor.
    + intro K. injection K as <-. exists []. split.
      * apply after_calls_nil.
      * constructor.
Qed.

(** One row: some fills at the execution price, then one [update] at the
    close. *)
Lemma process_row_calls self row self' :
  process_row self row = Ok self' ->
  exists fills mid,
    after_calls self fills mid
    /\ Forall (fill_at (timestamp row)
                 (execution_price_of self (signal row) (close row))) fills
    /\ (signal row <> SignalType_value BUY ->
        signal row <> SignalType_value SELL -> fills = [])
    /\ after_calls mid
         [mkEvent (Update (timestamp row) (close row)) (portfolio mid)
                  (portfolio self')]
         self'
    /\ portfolio self'
       = Portfolio.update (portfolio mid) (timestamp row) (close row).
Proof.
  unfold process_row. cbv zeta.
  set (price := execution_price_of self (signal row) (close row)).
  match goal with
  | |- bind ?m _ = _ -> _ => destruct m as [mid | e] eqn:T
  end; simpl; [| discriminate].
  intro K. injection K as <-.
  destruct (update_call mid (timestamp row) (close row)) as [Hu Hp].
  cbv zeta in Hu, Hp.
  assert (Hfills : exists fills,
             after_calls self fills mid
             /\ Forall (fill_at (timestamp row) price) fills
             /\ (signal row <> SignalType_value BUY ->
                 signal row <> SignalType_value SELL -> fills = [])).
  { destruct (signal row =? SignalType_value BUY)%Z eqn:B.
    - apply Z.eqb_eq in B.
      apply (transition_calls flat self (timestamp row) price LONG) in T;
        [| auto].
      destruct T as (fills & Ha & Hf). exists fills.
      split; [assumption |]. split; [assumption |].
      intros N _. contradiction.
    - destruct (signal row =? SignalType_value SELL)%Z eqn:S.
      + apply Z.eqb_eq in S.
        apply (transition_calls (fun s => flat s && allow_short s) self
                 (timestamp row) price SHORT) in T.
        * destruct T as (fills & Ha & Hf). exists fills.
          split; [assumption |]. split; [assumption |].
          intros _ N. contradiction.
        * intros s Hs. now apply andb_true_iff in Hs.
      + injection T as <-. exists [].
        split; [apply after_calls_nil |]. split; [constructor | auto]. }
  destruct Hfills as (fills & Ha & Hf & Hn).
  exists fills, mid.
  split; [exact Ha |]. split; [exact Hf |]. split; [exact Hn |].
  split; [exact Hu | exact Hp].
Qed.

End Calls.

(** ** What the portfolio methods change *)

Section Methods.

Import Portfolio.

Lemma last_trade_app (init : list Trade.t) (x : Trade.t) :
  last_trade (init ++ [x]) = Some x.
Proof.
  induction init as [| y init IH]; [reflexivity |].
  simpl. rewrite IH. destruct (init ++ [x]) eqn:E; [| reflexivity].
  destruct init; discriminate.
Qed.

Lemma set_last_trade_app (init : list Trade.t) (x y : Trade.t) :
  set_last_trade (init ++ [x]) y = init ++ [y].
Proof.
  induction init as [| z init IH]; [reflexivity |].
  simpl. rewrite IH. destruct (init ++ [x]) eqn:E; [| reflexivity].
  destruct init; discriminate.
Qed.

(** [open_position] either declines and changes nothing, or starts from a
    flat portfolio, appends one OPEN trade and debits the cash. *)
Lemma open_position_inv (p : t) ts price side quantity ok p' :
  open_position p ts price side quantity = Ok (ok, p') ->
  (ok = false /\ p' = p)
  \/ (ok = true /\ current_position p = None
      /\ exists qty,
           p' = mk (initial_capital p) (commission_rate p) (position_size p)
                   (allow_short p)
                   (cash p - (qty * price + qty * price * commission_rate p))
                   (equity p)
                   (Some (Position.mk side ts price qty price))
                   (trades p ++
                      [Trade.mk ts None side price 0 qty
                                (qty * price * commission_rate p) 0 0 "OPEN"])
                   (equity_curve p) (timestamps p)).
Proof.
  unfold open_position.
  destruct (current_position p) eqn:Hpos.
  { intro H. injection H as <- <-. now left. }
  destruct (PositionType_eqb side SHORT && negb (allow_short p)).
  { intro H. injection H as <- <-. now left. }
  match goal with
  | |- bind ?m _ = _ -> _ => destruct m as [qty | e]
  end; simpl; [| discriminate].
  destruct (Qgtb _ _).
  - intro H. injection H as <- <-. now left.
  - intro H. injection H as <- <-. right.
    split; [reflexivity |]. split; [reflexivity |]. now exists qty.
Qed.

(** [close_position] on a held position clears it; cash and trade log are
    the only other fields that may change, and when the log ends with an
    OPEN trade, that trade is the one replaced by its closed version. *)
Lemma close_position_inv (p : t) ts price pos :
  current_position p = Some pos ->
  exists cash' trades',
    close_position p ts price
    = (true,
       mk (initial_capital p) (commission_rate p) (position_size p)
          (allow_short p) cash' (equity p) None trades'
          (equity_curve p) (timestamps p))
    /\ (forall init last,
           trades p = init ++ [last] ->
           Trade.status last = "OPEN"%string ->
           trades'
           = init ++
             [Trade.close_trade last ts price
                (Position.quantity pos * price * commission_rate p)]).
Proof.
  intro Hpos. unfold close_position. rewrite Hpos.
  destruct (last_trade (trades p)) as [l |] eqn:L.
  - destruct (String.eqb (Trade.status l) "OPEN") eqn:S.
    + eexists. eexists. split; [reflexivity |].
      intros init last E _. rewrite E in L |- *.
      rewrite last_trade_app in L. injection L as ->.
      apply set_last_trade_app.
    + eexists. eexists. split; [reflexivity |].
      intros init last E O. rewrite E, last_trade_app in L.
      injection L as ->. rewrite O in S. discriminate.
  - eexists. eexists. split; [reflexivity |].
    intros init last E _. rewrite E, last_trade_app in L. discriminate.
Qed.

Lemma open_position_same_curve p ts price side quantity ok p' :
  open_position p ts price side quantity = Ok (ok, p') -> same_curve p p'.
Proof.
  intro H. apply open_position_inv in H.
  destruct H as [[_ ->] | (_ & _ & qty & ->)]; split; reflexivity.
Qed.

Lemma close_position_same_curve p ts price :
  same_curve p (snd (close_position p ts price)).
Proof.
  destruct (current_position p) as [pos |] eqn:Hpos.
  - destruct (close_position_inv p ts price pos Hpos) as (c & l & -> & _).
    split; reflexivity.
  - unfold close_position. rewrite Hpos. split; reflexivity.
Qed.

Lemma open_position_commission_rate p ts price side quantity ok p' :
  open_position p ts price side quantity = Ok (ok, p') ->
  commission_rate p' = commission_rate p.
Proof.
  intro H. apply open_position_inv in H.
  destruct H as [[_ ->] | (_ & _ & qty & ->)]; reflexivity.
Qed.

Lemma close_position_commission_rate p ts price :
  commission_rate (snd (close_position p ts price)) = commission_rate p.
Proof.
  destruct (current_position p) as [pos |] eqn:Hpos.
  - now destruct (close_position_inv p ts price pos Hpos)
      as (c & l & -> & _).
  - unfold close_position. now rewrite Hpos.
Qed.

Lemma update_commission_rate p ts price :
  commission_rate (update p ts price) = commission_rate p.
Proof. unfold update. destruct (current_position p); reflexivity. Qed.

(** An auto-sized open returns, declined or not, unless it divides by
    zero. *)
Lemma open_position_returns p ts price side :
  ~ price == 0 -> ~ 1 + commission_rate p == 0 ->
  exists ok p', open_position p ts price side None = Ok (ok, p').
Proof.
  intros Hp Hr. unfold open_position.
  destruct (current_position p); [eauto |].
  destruct (PositionType_eqb side SHORT && negb (allow_short p)); [eauto |].
  rewrite (fdiv_Ok _ _ Hr). simpl. rewrite (fdiv_Ok _ _ Hp). simpl.
  destruct (Qgtb _ _); eauto.
Qed.

End Methods.

(** ** One equity sample per row *)

Section Curve.

Import Backtester.

Lemma fills_same_curve ts price p es q :
  chain p es q -> Forall (fill_at ts price) es -> same_curve p q.
Proof.
  induction 1 as [p | p e es q Hb Hv Hc IH]; intro F.
  - split; reflexivity.
  - inversion F as [| ? ? Fe Fes]; subst.
    destruct (IH Fes) as [T C].
    unfold valid_call in Hv. unfold fill_at in Fe.
    destruct (ev_call e) as [ts' price' side | ts' price' | ts' price'].
    + destruct Hv as (_ & ok & Ho).
      destruct (open_position_same_curve _ _ _ _ _ _ _ Ho) as [T' C'].
      split; congruence.
    + destruct Hv as (_ & Ha).
      destruct (close_position_same_curve (ev_before e) ts' price')
        as [T' C'].
      rewrite <- Ha in T', C'. split; congruence.
    + contradiction.
Qed.

Lemma chain_commission_rate p es q :
  chain p es q -> Portfolio.commission_rate q = Portfolio.commission_rate p.
Proof.
  induction 1 as [p | p e es q Hb Hv Hc IH]; [reflexivity |].
  rewrite IH, <- Hb. unfold valid_call in Hv.
  destruct (ev_call e) as [ts price side | ts price | ts price].
  - destruct Hv as (_ & ok & Ho).
    eapply open_position_commission_rate; eauto.
  - destruct Hv as (_ & ->). apply close_position_commission_rate.
  - rewrite Hv. apply update_commission_rate.
Qed.

(** One row appends one sample, stamped with the row's time. *)
Lemma process_row_curve self row self' :
  process_row self row = Ok self' ->
  Portfolio.timestamps (portfolio self')
  = Portfolio.timestamps (portfolio self) ++ [timestamp row]
  /\ List.length (Portfolio.equity_curve (portfolio self'))
     = S (List.length (Portfolio.equity_curve (portfolio self))).
Proof.
  intro H.
  destruct (process_row_calls self row self' H)
    as (fills & mid & Ha & Hf & _ & _ & Hp).
  destruct Ha as (_ & _ & _ & Hch).
  destruct (fills_same_curve _ _ _ _ _ Hch Hf) as [T C].
  destruct (update_curve (portfolio mid) (timestamp row) (close row))
    as [C' T'].
  rewrite Hp, T', C', T, C, length_app. simpl. split; [reflexivity | lia].
Qed.

Lemma process_rows_curve rows :
  forall self self',
  process_rows self rows = Ok self' ->
  Portfolio.timestamps (portfolio self')
  = Portfolio.timestamps (portfolio self) ++ map timestamp rows
  /\ List.length (Portfolio.equity_curve (portfolio self'))
     = (List.length (Portfolio.equity_curve (portfolio self))
        + List.length rows)%nat.
Proof.
  induction rows as [| row rows IH]; intros self self'; simpl.
  - intro H. injection H as <-. rewrite app_nil_r. split; [reflexivity | lia].
  - destruct (process_row self row) as [mid | e] eqn:E; simpl;
      [| discriminate].
    intro H. destruct (IH _ _ H) as [T C].
    destruct (process_row_curve _ _ _ E) as [T' C'].
    rewrite T, C, T', C', <- app_assoc. simpl. split; [reflexivity | lia].
Qed.

Lemma execute_trades_curve rows self self' :
  execute_trades self rows = Ok self' ->
  Portfolio.timestamps (portfolio self')
  = Portfolio.timestamps (portfolio self) ++ map timestamp rows
  /\ List.length (Portfolio.equity_curve (portfolio self'))
     = (List.length (Portfolio.equity_curve (portfolio self))
        + List.length rows)%nat.
Proof.
  unfold execute_trades.
  destruct (process_rows self rows) as [mid | e] eqn:E; simpl;
    [| discriminate].
  destruct (process_rows_curve _ _ _ E) as [T C].
  destruct (flat mid).
  - intro H. injection H as <-. split; assumption.
  - destruct (last_row rows) as [last | e]; simpl; [| discriminate].
    intro H. injection H as <-.
    unfold portfolio_close_position.
    pose proof (close_position_same_curve (portfolio mid) (timestamp last)
                  (close last)) as [T' C'].
    destruct (Portfolio.close_position _ _ _) as [ok p]. simpl in *.
    rewrite T', C'. split; assumption.
Qed.

Lemma execution_price_nonzero self signal close_price :
  0 <= slippage self -> slippage self < 1 -> 0 < close_price ->
  ~ execution_price_of self signal close_price == 0.
Proof.
  intros H0 H1 Hc. unfold execution_price_of.
  destruct (signal =? _)%Z; [nra |].
  destruct (signal =? _)%Z; [nra | lra].
Qed.

Lemma portfolio_open_position_returns self ts price side :
  ~ price == 0 ->
  ~ 1 + Portfolio.commission_rate (portfolio self) == 0 ->
  exists self', portfolio_open_position self ts price side = Ok self'.
Proof.
  intros Hp Hr. unfold portfolio_open_position.
  destruct (open_position_returns (portfolio self) ts price side Hp Hr)
    as (ok & p' & ->).
  simpl. eauto.
Qed.

Lemma portfolio_close_position_rate self ts price :
  Portfolio.commission_rate
    (portfolio (portfolio_close_position self ts price))
  = Portfolio.commission_rate (portfolio self).
Proof.
  unfold portfolio_close_position.
  pose proof (close_position_commission_rate (portfolio self) ts price) as H.
  destruct (Portfolio.close_position _ _ _). exact H.
Qed.

Lemma process_row_returns self row :
  sane self -> 0 < close row -> exists self', process_row self row = Ok self'.
Proof.
  intros (H0 & H1 & Hr) Hc. unfold process_row. cbv zeta.
  pose proof (execution_price_nonzero self (signal row) (close row)
                H0 H1 Hc) as Hp.
  set (price := execution_price_of self (signal row) (close row)) in *.
  assert (Hopen : forall s side,
             Portfolio.commission_rate (portfolio s)
             = Portfolio.commission_rate (portfolio self) ->
             exists s',
               portfolio_open_position s (timestamp row) price side = Ok s').
  { intros s side E. apply portfolio_open_position_returns;
      [assumption | now rewrite E]. }
  pose proof (portfolio_close_position_rate self (timestamp row) price)
    as Hclose.
  match goal with
  | |- exists s, bind ?m _ = _ =>
      assert (Hm : exists mid, m = Ok mid)
  end.
  { destruct (signal row =? _)%Z.
    - destruct (holds self SHORT).
      + destruct (flat _); [apply Hopen; assumption | eauto].
      + destruct (flat _); [apply Hopen; reflexivity | eauto].
    - destruct (signal row =? _)%Z; [| eauto].
      destruct (holds self LONG).
      + destruct (flat _ && _); [apply Hopen; assumption | eauto].
      + destruct (flat _ && _); [apply Hopen; reflexivity | eauto]. }
  destruct Hm as (mid & ->). simpl. eauto.
Qed.

Lemma process_row_sane self row self' :
  process_row self row = Ok self' -> sane self -> sane self'.
Proof.
  intros H (H0 & H1 & Hr).
  destruct (process_row_calls self row self' H)
    as (fills & mid & Ha & _ & _ & Hu & _).
  destruct Ha as (S1 & _ & _ & C1). destruct Hu as (S2 & _ & _ & C2).
  apply chain_commission_rate in C1, C2.
  unfold sane. rewrite S2, S1, C2, C1. auto.
Qed.

Lemma process_rows_returns rows :
  forall self,
  sane self -> Forall (fun row => 0 < close row) rows ->
  exists self', process_rows self rows = Ok self'.
Proof.
  induction rows as [| row rows IH]; intros self Hs Hrows; simpl.
  - eauto.
  - inversion Hrows as [| ? ? Hrow Hrows']; subst.
    destruct (process_row_returns self row Hs Hrow) as (mid & E).
    rewrite E. simpl. apply IH; [| assumption].
    eapply process_row_sane; eauto.
Qed.

Lemma last_row_returns row rows : exists last, last_row (row :: rows) = Ok last.
Proof.
  revert row. induction rows as [| r rows IH]; intro row.
  - simpl. eauto.
  - destruct (IH r) as (last & E). exists last.
    change (last_row (row :: r :: rows)) with (last_row (r :: rows)).
    exact E.
Qed.

Lemma execute_trades_returns self rows :
  sane self -> flat self = true ->
  Forall (fun row => 0 < close row) rows ->
  exists self', execute_trades self rows = Ok self'.
Proof.
  intros Hs Hflat Hrows. unfold execute_trades.
  destruct (process_rows_returns rows self Hs Hrows) as (mid & E).
  rewrite E. simpl.
  destruct (flat mid) eqn:F; [eauto |].
  destruct rows as [| row rows].
  - simpl in E. injection E as <-. congruence.
  - destruct (last_row_returns row rows) as (last & ->). simpl. eauto.
Qed.

End Curve.

(** ** Fills at the slipped price, marks at the close *)

Section Fills.

Import Backtester.






End Fills.



(** C6.  Started on a fresh portfolio, as [run] does after [reset], every
    execution loop that completes leaves one equity sample per row: the
    timestamps of the curve are the timestamps of the rows, in the same
    order, and the curve has as many values as there are rows.  The loop
    completes for every row sequence with positive closes, under a slippage
    in [0, 1) and a commission rate other than -1. *)
Theorem one_sample_per_row :
  (forall (self : Backtester.t) (signals_df : list Backtester.Row)
          (self' : Backtester.t),
      fresh (Backtester.portfolio self) ->
      Backtester.execute_trades self signals_df = Ok self' ->
      Portfolio.timestamps (Backtester.portfolio self')
      = map Backtester.timestamp signals_df
      /\ List.length (Portfolio.equity_curve (Backtester.portfolio self'))
         = List.length signals_df
      /\ List.length (Portfolio.timestamps (Backtester.portfolio self'))
         = List.length signals_df)
  /\ (forall (self : Backtester.t) (signals_df : list Backtester.Row),
         fresh (Backtester.portfolio self) ->
         sane self ->
         Forall (fun row => 0 < Backtester.close row) signals_df ->
         exists self', Backtester.execute_trades self signals_df = Ok self').
Proof.
  split.
  - intros self rows self' (_ & _ & C0 & T0) H.
    apply execute_trades_curve in H. destruct H as [T C].
    rewrite T0 in T. rewrite C0 in C. simpl in T, C.
    rewrite T, C, length_map. auto.
  - intros self rows (P0 & _) Hs Hrows.
    apply execute_trades_returns; try assumption.
    unfold Backtester.flat. now rewrite P0.
Qed.

Lemma one_sample_per_row_witness :
  exists self',
    Backtester.execute_trades
      (Backtester.init 10000 (1 # 1000) 1 false (1 # 1000)) three_rows
    = Ok self'
    /\ Portfolio.timestamps (Backtester.portfolio self') = [10; 20; 30]%Z
    /\ List.length (Portfolio.equity_curve (Backtester.portfolio self'))
       = 3%nat.
Proof.
  destruct one_sample_per_row as [Hcurve Hreturns].
  destruct (Hreturns
              (Backtester.init 10000 (1 # 1000) 1 false (1 # 1000))
              three_rows) as (self' & E).
  - apply fresh_backtester.
  - unfold sane. simpl. split; [| split].
    + vm_compute. discriminate.
    + reflexivity.
    + vm_compute. discriminate.
  - repeat constructor.
  - exists self'. split; [exact E |].
    destruct (Hcurve _ _ _ (fresh_backtester _ _ _ _ _) E) as (T & C & _).
    split; assumption.
Defined.

(** ** One OPEN trade, paired with the position *)

Section Pairing.

Import Backtester.

Lemma paired_one_open p : paired p -> one_open p.
Proof.
  unfold paired, one_open, Portfolio.get_open_trades.
  change (fun t => String.eqb (Trade.status t) "OPEN") with is_open.
  destruct (Portfolio.current_position p).
  - intros (init & last & -> & S & F).
    rewrite filter_app, F. simpl. unfold is_open. rewrite S. simpl.
    split; [lia |]. split; [discriminate | reflexivity].
  - intros ->. simpl. split; [lia |]. split; [discriminate | congruence].
Qed.

Lemma paired_update p ts price :
  paired p -> paired (Portfolio.update p ts price).
Proof.
  unfold paired, Portfolio.update.
  destruct (Portfolio.current_position p); simpl; auto.
Qed.

Lemma paired_open p ts price side quantity ok p' :
  Portfolio.open_position p ts price side quantity = Ok (ok, p') ->
  paired p ->
  paired p'
  /\ (Portfolio.trades p' = Portfolio.trades p
      \/ exists t, Portfolio.trades p' = Portfolio.trades p ++ [t]
                   /\ Trade.status t = "OPEN"%string).
Proof.
  intros H P. apply open_position_inv in H.
  destruct H as [[_ ->] | (_ & Hflat & qty & ->)].
  - auto.
  - unfold paired in P. rewrite Hflat in P. split.
    + unfold paired. simpl. eexists. eexists.
      split; [reflexivity |]. split; [reflexivity | exact P].
    + right. simpl. eexists. split; reflexivity.
Qed.

Lemma paired_close p ts price pos :
  Portfolio.current_position p = Some pos ->
  paired p ->
  let p' := snd (Portfolio.close_position p ts price) in
  paired p'
  /\ exists init last commission,
       Portfolio.trades p = init ++ [last]
       /\ Trade.status last = "OPEN"%string
       /\ filter is_open init = []
       /\ Portfolio.trades p'
          = init ++ [Trade.close_trade last ts price commission]
       /\ Portfolio.current_position p' = None.
Proof.
  intros Hpos P. cbv zeta.
  destruct (close_position_inv p ts price pos Hpos) as (c & l & -> & Hl).
  unfold paired in P. rewrite Hpos in P.
  destruct P as (init & last & E & S & F).
  specialize (Hl init last E S). simpl. split.
  - unfold paired. simpl. rewrite Hl, filter_app, F. reflexivity.
  - exists init, last. eexists. repeat split; eauto.
Qed.

(** Every call of a chain that starts paired ends paired. *)
Lemma chain_paired p es q :
  chain p es q -> paired p ->
  paired q
  /\ Forall (fun e => paired (ev_before e) /\ paired (ev_after e)
                      /\ closes_last_open e /\ opens_when_flat e) es.
Proof.
  induction 1 as [p | p e es q Hb Hv Hc IH]; intro P.
  - split; [assumption | constructor].
  - subst p.
    assert (Step : paired (ev_after e) /\ closes_last_open e
                   /\ opens_when_flat e).
    { unfold valid_call in Hv. unfold closes_last_open, opens_when_flat.
      destruct (ev_call e) as [ts price side | ts price | ts price].
      - destruct Hv as (Hflat & ok & Ho).
        destruct (paired_open _ _ _ _ _ _ _ Ho P) as [P' T]. auto.
      - destruct Hv as (Hheld & Ha).
        destruct (Portfolio.current_position (ev_before e)) as [pos |] eqn:E;
          [| congruence].
        destruct (paired_close _ ts price pos E P) as [P' T].
        cbv zeta in P', T. rewrite <- Ha in P', T.
        destruct T as (init & last & c & T1 & T2 & T3 & T4 & T5).
        split; [assumption |]. split; [| exact I].
        exists init, last, c. repeat split; assumption.
      - rewrite Hv. split; [now apply paired_update | auto]. }
    destruct Step as (P' & Cl & Op).
    destruct (IH P') as [Pq F].
    split; [assumption |]. constructor; auto.
Qed.

Lemma process_rows_calls rows :
  forall self self',
  process_rows self rows = Ok self' ->
  exists news, after_calls self news self'.
Proof.
  induction rows as [| row rows IH]; intros self self'; simpl.
  - intro H. injection H as <-. exists []. apply after_calls_nil.
  - destruct (process_row self row) as [mid | e] eqn:E; simpl;
      [| discriminate].
    intro H. destruct (IH _ _ H) as (news & Hn).
    destruct (process_row_calls _ _ _ E)
      as (fills & mid' & Ha & _ & _ & Hu & _).
    eexists. eapply after_calls_app; [| exact Hn].
    eapply after_calls_app; eauto.
Qed.

Lemma execute_trades_calls rows self self' :
  execute_trades self rows = Ok self' ->
  exists news, after_calls self news self'.
Proof.
  unfold execute_trades.
  destruct (process_rows self rows) as [mid | e] eqn:E; simpl;
    [| discriminate].
  destruct (process_rows_calls _ _ _ E) as (news & Hn).
  destruct (flat mid) eqn:F.
  - intro H. injection H as <-. eauto.
  - destruct (last_row rows) as [last | e]; simpl; [| discriminate].
    intro H. injection H as <-.
    pose proof (close_call mid (timestamp last) (close last)
                  (not_flat_position _ F)) as Hc.
    cbv zeta in Hc. eexists. eapply after_calls_app; eauto.
Qed.

End Pairing.

Lemma fresh_paired p : fresh p -> paired p.
Proof. intros (P & T & _). unfold paired. now rewrite P, T. Qed.

(** C7.  An execution loop started on a fresh portfolio, as [run] does
    after [reset], makes a chain of calls from that portfolio to the final
    one.  Before and after every call, the trade log holds at most one OPEN
    trade, and exactly one iff a position is open.  Every [close_position]
    call replaces the last entry of the log, its only OPEN trade, by that
    trade CLOSED and keeps the entries before it.  Every [open_position]
    call is made while no position is open, and appends at most one OPEN
    trade. *)
Theorem one_open_trade_in_runs
    (self : Backtester.t) (signals_df : list Backtester.Row)
    (self' : Backtester.t) :
  fresh (Backtester.portfolio self) ->
  Backtester.execute_trades self signals_df = Ok self' ->
  exists news,
    Backtester.calls self' = Backtester.calls self ++ news
    /\ chain (Backtester.portfolio self) news (Backtester.portfolio self')
    /\ one_open (Backtester.portfolio self)
    /\ Forall (fun e => one_open (Backtester.ev_before e)
                        /\ one_open (Backtester.ev_after e)
                        /\ closes_last_open e
                        /\ opens_when_flat e)
              news
    /\ one_open (Backtester.portfolio self').
Proof.
  intros Hfresh H.
  apply execute_trades_calls in H.
  destruct H as (news & _ & _ & Hc & Hch).
  pose proof (fresh_paired _ Hfresh) as P.
  destruct (chain_paired _ _ _ Hch P) as [Pq F].
  exists news.
  split; [exact Hc |]. split; [exact Hch |].
  split; [now apply paired_one_open |].
  split; [| now apply paired_one_open].
  eapply Forall_impl; [| exact F].
  intros e (Pb & Pa & Cl & Op).
  repeat split; try assumption; now apply paired_one_open.
Qed.

Lemma one_open_trade_in_runs_witness :
  match Backtester.execute_trades
          (Backtester.init 10000 (1 # 1000) 1 true (1 # 1000)) three_rows
  with
  | Ok self' =>
      List.length (Backtester.calls self') = 7%nat
      /\ one_open (Backtester.portfolio self')
      /\ Forall (fun e => one_open (Backtester.ev_before e)
                          /\ one_open (Backtester.ev_after e)
                          /\ closes_last_open e
                          /\ opens_when_flat e)
                (Backtester.calls self')
  | Raise _ => False
  end.
Proof.
  destruct (Backtester.execute_trades
              (Backtester.init 10000 (1 # 1000) 1 true (1 # 1000))
              three_rows) as [self' | e] eqn:E.
  - destruct (one_open_trade_in_runs _ _ _ (fresh_backtester _ _ _ _ _) E)
      as (news & Hc & _ & _ & F & P).
    simpl in Hc. rewrite Hc.
    split; [| split; assumption].
    vm_compute in E. injection E as E'. rewrite <- E' in Hc.
    simpl in Hc. rewrite <- Hc. reflexivity.
  - vm_compute in E. discriminate.
Defined.

(** * Further properties of the portfolio methods *)

Section Sums.

Lemma fold_left_Qplus_acc (l : list Q) (a : Q) :
  fold_left Qplus l a == a + fold_left Qplus l 0.
Proof.
  revert a. induction l as [| x l IH]; intro a; simpl.
  - ring.
  - rewrite (IH (a + x)), (IH (0 + x)). ring.
Qed.

Lemma sum_cons (x : Q) (l : list Q) :
  Portfolio.sum (x :: l) == x + Portfolio.sum l.
Proof.
  unfold Portfolio.sum. simpl. rewrite fold_left_Qplus_acc. ring.
Qed.

Lemma sum_app (l l' : list Q) :
  Portfolio.sum (l ++ l') == Portfolio.sum l + Portfolio.sum l'.
Proof.
  induction l as [| x l IH]; simpl.
  - unfold Portfolio.sum at 2. simpl. ring.
  - rewrite !sum_cons, IH. ring.
Qed.

End Sums.

(** X1.  Whatever the reason of the decline (a position already open, a
    SHORT that is not allowed, funds that do not cover the order), an
    [open_position] that returns [False] returns the portfolio it was
    given. *)
Theorem open_position_decline_is_noop
    (self : Portfolio.t) (timestamp : Z) (price : Q) (side : PositionType)
    (quantity : option Q) (self' : Portfolio.t) :
  Portfolio.open_position self timestamp price side quantity
  = Ok (false, self') ->
  self' = self.
Proof.
  intro H. apply open_position_inv in H.
  destruct H as [[_ H] | (H & _)]; [assumption | discriminate].
Qed.

Lemma open_position_decline_is_noop_witness :
  Portfolio.open_position long_at_100 9 50 LONG None
  = Ok (false, long_at_100)
  /\ long_at_100 = long_at_100.
Proof.
  assert (E : Portfolio.open_position long_at_100 9 50 LONG None
              = Ok (false, long_at_100)) by reflexivity.
  split; [exact E |].
  exact (open_position_decline_is_noop long_at_100 9 50 LONG None
           long_at_100 E).
Defined.

(** X2.  An [open_position] that returns [True] started from a flat
    portfolio, debited exactly quantity x price plus the commission on it,
    left a cash that is not negative, holds the position at the given price
    and appended one OPEN trade carrying the entry commission. *)
Theorem open_position_success
    (self : Portfolio.t) (timestamp : Z) (price : Q) (side : PositionType)
    (quantity : option Q) (self' : Portfolio.t) :
  Portfolio.open_position self timestamp price side quantity
  = Ok (true, self') ->
  Portfolio.current_position self = None
  /\ 0 <= Portfolio.cash self'
  /\ exists qty,
       Portfolio.cash self'
       == Portfolio.cash self
          - (qty * price + qty * price * Portfolio.commission_rate self)
       /\ Portfolio.current_position self'
          = Some (Position.mk side timestamp price qty price)
       /\ Portfolio.trades self'
          = Portfolio.trades self
            ++ [Trade.mk timestamp None side price 0 qty
                  (qty * price * Portfolio.commission_rate self) 0 0 "OPEN"]
       /\ (forall q, quantity = Some q -> qty = q).
Proof.
  unfold Portfolio.open_position.
  destruct (Portfolio.current_position self); [discriminate |].
  destruct (PositionType_eqb side SHORT && negb (Portfolio.allow_short self));
    [discriminate |].
  match goal with
  | |- bind ?m _ = _ -> _ => destruct m as [qty | e] eqn:Q
  end; simpl; [| discriminate].
  destruct (Qgtb _ _) eqn:G; [discriminate |].
  apply Qgtb_false in G.
  intro H. injection H as <-. simpl.
  split; [reflexivity |]. split; [lra |].
  exists qty. split; [reflexivity |]. split; [reflexivity |].
  split; [reflexivity |].
  intros q ->. simpl in Q. now injection Q as ->.
Qed.

Lemma open_position_success_witness :
  exists self',
    Portfolio.open_position (Portfolio.init 1000 (1 # 100) 1 false)
                            3 10 LONG (Some 50)
    = Ok (true, self')
    /\ Portfolio.cash self' == 495.
Proof.
  eexists. split; [vm_compute; reflexivity |].
  match goal with
  | |- Portfolio.cash ?p == _ =>
      destruct (open_position_success
                  (Portfolio.init 1000 (1 # 100) 1 false) 3 10 LONG
                  (Some 50) p)
        as (_ & _ & qty & Hc & _ & _ & Hq)
  end.
  - vm_compute. reflexivity.
  - rewrite Hc, (Hq 50 eq_refl). vm_compute. reflexivity.
Defined.

(** X3.  [close_position] always leaves the portfolio without a position.
    It returns [False] exactly when there was none, and then the portfolio
    is the one it was given. *)
Theorem close_position_result
    (self : Portfolio.t) (timestamp : Z) (price : Q) :
  Portfolio.current_position
    (snd (Portfolio.close_position self timestamp price)) = None
  /\ (fst (Portfolio.close_position self timestamp price) = false
      <-> Portfolio.current_position self = None)
  /\ (fst (Portfolio.close_position self timestamp price) = false ->
      snd (Portfolio.close_position self timestamp price) = self).
Proof.
  destruct (Portfolio.current_position self) as [pos |] eqn:E.
  - destruct (close_position_inv self timestamp price pos E)
      as (c & l & -> & _).
    simpl. split; [reflexivity |]. split; [| discriminate].
    split; discriminate.
  - unfold Portfolio.close_position. rewrite E. simpl.
    split; [assumption |]. split; [tauto | reflexivity].
Qed.

Lemma close_position_result_witness :
  snd (Portfolio.close_position (Portfolio.init 1000 0 1 false) 1 10)
  = Portfolio.init 1000 0 1 false.
Proof.
  destruct (close_position_result (Portfolio.init 1000 0 1 false) 1 10)
    as (_ & _ & H).
  apply H. reflexivity.
Defined.

(** [close_position] on a position whose trade ends the log, OPEN. *)
Lemma close_position_last_open
    (p : Portfolio.t) ts price pos init last :
  Portfolio.current_position p = Some pos ->
  Portfolio.trades p = init ++ [last] ->
  Trade.status last = "OPEN"%string ->
  let commission :=
    Position.quantity pos * price * Portfolio.commission_rate p in
  Portfolio.close_position p ts price
  = (true,
     Portfolio.mk (Portfolio.initial_capital p) (Portfolio.commission_rate p)
       (Portfolio.position_size p) (Portfolio.allow_short p)
       (match Position.position_type pos with
        | LONG =>
            Portfolio.cash p + (Position.quantity pos * price - commission)
        | SHORT =>
            Portfolio.cash p
            + (Position.quantity pos * Position.entry_price pos
               + (Position.entry_price pos - price) * Position.quantity pos
               - commission)
        end)
       (Portfolio.equity p) None
       (init ++ [Trade.close_trade last ts price commission])
       (Portfolio.equity_curve p) (Portfolio.timestamps p)).
Proof.
  intros Hpos Ht Hs. cbv zeta. unfold Portfolio.close_position.
  rewrite Hpos, Ht, last_trade_app, Hs.
  simpl. rewrite set_last_trade_app. reflexivity.
Qed.



(** * Further properties of the execution loop *)

Section Books.

Import Backtester.

Lemma closed_trades_all (l : list Trade.t) :
  Forall (fun t => Trade.status t = "CLOSED"%string) l ->
  filter (fun t => String.eqb (Trade.status t) "CLOSED") l = l
  /\ filter (fun t => String.eqb (Trade.status t) "OPEN") l = [].
Proof.
  induction 1 as [| t l Ht Hl [IH1 IH2]]; simpl; [auto |].
  rewrite Ht, IH1, IH2. simpl. auto.
Qed.

(** The realized P&L of a log of CLOSED trades followed by one trade. *)
Lemma total_pnl_snoc (p : Portfolio.t) init last :
  Portfolio.trades p = init ++ [last] ->
  Forall (fun t => Trade.status t = "CLOSED"%string) init ->
  Portfolio.total_pnl p
  == Portfolio.sum (map Trade.pnl init)
     + (if String.eqb (Trade.status last) "CLOSED" then Trade.pnl last
        else 0).
Proof.
  intros E F. unfold Portfolio.total_pnl, Portfolio.get_closed_trades.
  rewrite E, filter_app, (proj1 (closed_trades_all init F)), map_app, sum_app.
  simpl. destruct (String.eqb (Trade.status last) "CLOSED"); simpl.
  - rewrite sum_cons. unfold Portfolio.sum. simpl. ring.
  - unfold Portfolio.sum. simpl. ring.
Qed.

Lemma total_pnl_closed (p : Portfolio.t) :
  Forall (fun t => Trade.status t = "CLOSED"%string) (Portfolio.trades p) ->
  Portfolio.total_pnl p == Portfolio.sum (map Trade.pnl (Portfolio.trades p)).
Proof.
  intro F. unfold Portfolio.total_pnl, Portfolio.get_closed_trades.
  rewrite (proj1 (closed_trades_all _ F)). reflexivity.
Qed.

Lemma funded_booked p : funded p -> booked p.
Proof.
  intros ((P & T & _) & C). unfold booked. rewrite P, T. split; [constructor |].
  unfold Portfolio.total_pnl, Portfolio.get_closed_trades. rewrite T.
  unfold Portfolio.sum. simpl. rewrite C. ring.
Qed.

Lemma booked_update p ts price :
  booked p -> booked (Portfolio.update p ts price).
Proof.
  unfold booked, Portfolio.update, Portfolio.total_pnl,
    Portfolio.get_closed_trades.
  destruct (Portfolio.current_position p); simpl; auto.
Qed.

Lemma booked_open p ts price side quantity ok p' :
  Portfolio.open_position p ts price side quantity = Ok (ok, p') ->
  booked p -> booked p'.
Proof.
  intros H B. apply open_position_inv in H.
  destruct H as [[_ ->] | (_ & Hflat & qty & ->)]; [assumption |].
  unfold booked in B. rewrite Hflat in B. destruct B as [F C].
  unfold booked. cbn [Portfolio.current_position Portfolio.trades].
  eexists. eexists. split; [reflexivity |]. split; [reflexivity |].
  split; [exact F |]. split; [reflexivity |]. split; [reflexivity |].
  split; [reflexivity |].
  match goal with
  | |- context [Portfolio.total_pnl ?p'] =>
      rewrite (total_pnl_snoc p' (Portfolio.trades p) _ eq_refl F)
  end.
  rewrite (total_pnl_closed p F) in C.
  cbn. rewrite C. ring.
Qed.

Lemma booked_close p ts price pos :
  Portfolio.current_position p = Some pos ->
  booked p -> booked (snd (Portfolio.close_position p ts price)).
Proof.
  intros Hpos B. unfold booked in B. rewrite Hpos in B.
  destruct B as (init & last & E & S & F & Ht & He & Hq & C).
  rewrite (close_position_last_open p ts price pos init last Hpos E S).
  cbv zeta. unfold booked.
  cbn [snd Portfolio.current_position Portfolio.trades Portfolio.cash
       Portfolio.initial_capital].
  split.
  - apply Forall_app. split; [assumption |]. repeat constructor.
  - rewrite (total_pnl_snoc p init last E F), S in C. simpl in C.
    match goal with
    | |- context [Portfolio.total_pnl ?p'] =>
        rewrite (total_pnl_snoc p' init _ eq_refl F)
    end.
    unfold Trade.close_trade. cbn.
    rewrite Ht. rewrite He, Hq in C |- *.
    destruct (Position.position_type pos); lra.
Qed.

Lemma chain_booked p es q : chain p es q -> booked p -> booked q.
Proof.
  induction 1 as [p | p e es q Hb Hv Hc IH]; intro B; [assumption |].
  subst p. apply IH. unfold valid_call in Hv.
  destruct (ev_call e) as [ts price side | ts price | ts price].
  - destruct Hv as (_ & ok & Ho). eapply booked_open; eauto.
  - destruct Hv as (Hheld & ->).
    destruct (Portfolio.current_position (ev_before e)) as [pos |] eqn:E;
      [| congruence].
    eapply booked_close; eauto.
  - rewrite Hv. now apply booked_update.
Qed.


(** [_execute_trades] returns a flat portfolio. *)
Lemma execute_trades_flat self rows self' :
  execute_trades self rows = Ok self' ->
  Portfolio.current_position (portfolio self') = None.
Proof.
  unfold execute_trades.
  destruct (process_rows self rows) as [mid | e]; simpl; [| discriminate].
  destruct (flat mid) eqn:F.
  - intro H. injection H as <-. now apply flat_position.
  - destruct (last_row rows) as [last | e]; simpl; [| discriminate].
    intro H. injection H as <-. unfold portfolio_close_position.
    pose proof (close_position_result (portfolio mid) (timestamp last)
                  (close last)) as (H & _).
    destruct (Portfolio.close_position _ _ _). exact H.
Qed.

End Books.



(** X6.  A completed execution loop that started on a freshly funded
    portfolio holds no position, and every trade of its log is CLOSED: no
    trade is left OPEN, and [total_trades] counts the whole log. *)
Theorem run_ends_flat_and_closed
    (self : Backtester.t) (signals_df : list Backtester.Row)
    (self' : Backtester.t) :
  funded (Backtester.portfolio self) ->
  Backtester.execute_trades self signals_df = Ok self' ->
  Portfolio.current_position (Backtester.portfolio self') = None
  /\ Forall (fun t => Trade.status t = "CLOSED"%string)
            (Portfolio.trades (Backtester.portfolio self'))
  /\ Portfolio.get_open_trades (Backtester.portfolio self') = []
  /\ Portfolio.total_trades (Backtester.portfolio self')
     = List.length (Portfolio.trades (Backtester.portfolio self')).
Proof.
  intros Hf H.
  pose proof (execute_trades_flat _ _ _ H) as Hflat.
  apply execute_trades_calls in H. destruct H as (news & _ & _ & _ & Hch).
  pose proof (chain_booked _ _ _ Hch (funded_booked _ Hf)) as B.
  unfold booked in B. rewrite Hflat in B. destruct B as [F _].
  destruct (closed_trades_all _ F) as [Hc Ho].
  split; [exact Hflat |]. split; [exact F |]. split; [exact Ho |].
  unfold Portfolio.total_trades, Portfolio.get_closed_trades.
  now rewrite Hc.
Qed.

Lemma run_ends_flat_and_closed_witness :
  match Backtester.execute_trades
          (Backtester.init 10000 (1 # 1000) 1 true (1 # 1000)) three_rows
  with
  | Ok self' =>
      Portfolio.current_position (Backtester.portfolio self') = None
      /\ Portfolio.total_trades (Backtester.portfolio self') = 2%nat
  | Raise _ => False
  end.
Proof.
  destruct (Backtester.execute_trades
              (Backtester.init 10000 (1 # 1000) 1 true (1 # 1000))
              three_rows) as [self' | e] eqn:E.
  - destruct (run_ends_flat_and_closed _ _ _
                (conj (fresh_backtester _ _ _ _ _) (Qeq_refl _)) E)
      as (P & _ & _ & T).
    split; [exact P |]. rewrite T.
    vm_compute in E. injection E as <-. reflexivity.
  - vm_compute in E. discriminate.
Defined.

Section Quiet.

Import Backtester.

Lemma process_row_hold self row :
  signal row <> SignalType_value BUY ->
  signal row <> SignalType_value SELL ->
  process_row self row
  = Ok (portfolio_update self (timestamp row) (close row)).
Proof.
  intros B S. unfold process_row, execution_price_of.
  apply Z.eqb_neq in B, S. rewrite B, S. reflexivity.
Qed.

Lemma process_rows_hold rows :
  forall self,
  flat self = true ->
  Forall (fun row => signal row <> SignalType_value BUY
                     /\ signal row <> SignalType_value SELL) rows ->
  exists self',
    process_rows self rows = Ok self'
    /\ flat self' = true
    /\ Portfolio.trades (portfolio self') = Portfolio.trades (portfolio self)
    /\ Portfolio.cash (portfolio self') = Portfolio.cash (portfolio self)
    /\ Portfolio.equity_curve (portfolio self')
       = Portfolio.equity_curve (portfolio self)
         ++ repeat (Portfolio.cash (portfolio self)) (List.length rows).
Proof.
  induction rows as [| row rows IH]; intros self Hflat Hrows.
  - exists self. simpl. rewrite app_nil_r. auto.
  - inversion Hrows as [| ? ? [B S] Hrows']; subst.
    simpl. rewrite (process_row_hold self row B S). simpl.
    pose proof (flat_position _ Hflat) as P.
    assert (U : Portfolio.update (portfolio self) (timestamp row) (close row)
                = Portfolio.mk
                    (Portfolio.initial_capital (portfolio self))
                    (Portfolio.commission_rate (portfolio self))
                    (Portfolio.position_size (portfolio self))
                    (Portfolio.allow_short (portfolio self))
                    (Portfolio.cash (portfolio self))
                    (Portfolio.cash (portfolio self)) None
                    (Portfolio.trades (portfolio self))
                    (Portfolio.equity_curve (portfolio self)
                       ++ [Portfolio.cash (portfolio self)])
                    (Portfolio.timestamps (portfolio self)
                       ++ [timestamp row])).
    { unfold Portfolio.update. now rewrite P. }
    destruct (IH (portfolio_update self (timestamp row) (close row)))
      as (self' & E & F & T & C & V); [| assumption |].
    + unfold flat, portfolio_update. simpl. now rewrite U.
    + exists self'. split; [exact E |]. split; [exact F |].
      unfold portfolio_update in T, C, V. simpl in T, C, V.
      rewrite U in T, C, V. simpl in T, C, V.
      rewrite T, C, V, <- app_assoc. auto.
Qed.

End Quiet.

(** X7.  On a flat portfolio, a frame that carries no BUY and no SELL
    signal is processed to the end without any trade, whatever its prices
    (a zero close included): the loop returns, the trade log and the cash
    are unchanged, no position is opened, and every equity sample it
    appends is the cash. *)
Theorem hold_only_run_is_quiet
    (self : Backtester.t) (signals_df : list Backtester.Row) :
  Portfolio.current_position (Backtester.portfolio self) = None ->
  Forall (fun row =>
            Backtester.signal row <> SignalType_value BUY
            /\ Backtester.signal row <> SignalType_value SELL) signals_df ->
  exists self',
    Backtester.execute_trades self signals_df = Ok self'
    /\ Portfolio.current_position (Backtester.portfolio self') = None
    /\ Portfolio.trades (Backtester.portfolio self')
       = Portfolio.trades (Backtester.portfolio self)
    /\ Portfolio.cash (Backtester.portfolio self')
       = Portfolio.cash (Backtester.portfolio self)
    /\ Portfolio.equity_curve (Backtester.portfolio self')
       = Portfolio.equity_curve (Backtester.portfolio self)
         ++ repeat (Portfolio.cash (Backtester.portfolio self))
                   (List.length signals_df).
Proof.
  intros P Hrows.
  assert (Hflat : Backtester.flat self = true)
    by (unfold Backtester.flat; now rewrite P).
  destruct (process_rows_hold signals_df self Hflat Hrows)
    as (self' & E & F & T & C & V).
  exists self'. unfold Backtester.execute_trades. rewrite E. simpl.
  rewrite F. split; [reflexivity |].
  split; [now apply flat_position | auto].
Qed.

Lemma hold_only_run_is_quiet_witness :
  exists self',
    Backtester.execute_trades (Backtester.init 500 (-1) 1 false 0)
      [Backtester.mkRow 1 0 0; Backtester.mkRow 2 0 7]
    = Ok self'
    /\ Portfolio.equity_curve (Backtester.portfolio self') = [500; 500]
    /\ Portfolio.trades (Backtester.portfolio self') = [].
Proof.
  destruct (hold_only_run_is_quiet (Backtester.init 500 (-1) 1 false 0)
              [Backtester.mkRow 1 0 0; Backtester.mkRow 2 0 7])
    as (self' & E & _ & T & _ & V).
  - reflexivity.
  - repeat constructor; discriminate.
  - exists self'. split; [exact E |]. split; [exact V | exact T].
Defined.

Section LongOnly.

Import Backtester.

Lemma open_position_allowed p ts price side quantity p' :
  Portfolio.open_position p ts price side quantity = Ok (true, p') ->
  Portfolio.allow_short p = false -> side = LONG.
Proof.
  unfold Portfolio.open_position.
  destruct (Portfolio.current_position p); [discriminate |].
  intros H A. rewrite A in H. destruct side; [reflexivity | discriminate].
Qed.

Lemma long_only_open p ts price side quantity ok p' :
  Portfolio.open_position p ts price side quantity = Ok (ok, p') ->
  long_only p -> long_only p'.
Proof.
  intros H L. pose proof H as H'. apply open_position_inv in H.
  destruct H as [[_ ->] | (-> & _ & qty & ->)]; [assumption |].
  destruct L as (A & F & _).
  pose proof (open_position_allowed _ _ _ _ _ _ H' A) as ->.
  unfold long_only. simpl. split; [assumption |]. split.
  - apply Forall_app. split; [assumption |]. repeat constructor.
  - intros pos K. now injection K as <-.
Qed.

Lemma long_only_close p ts price pos :
  Portfolio.current_position p = Some pos ->
  paired p -> long_only p ->
  long_only (snd (Portfolio.close_position p ts price)).
Proof.
  intros Hpos P (A & F & _).
  unfold paired in P. rewrite Hpos in P.
  destruct P as (init & last & E & S & _).
  rewrite (close_position_last_open p ts price pos init last Hpos E S).
  cbv zeta. unfold long_only. simpl. split; [assumption |]. split.
  - rewrite E in F. apply Forall_app in F. destruct F as [Fi Fl].
    apply Forall_app. split; [assumption |].
    inversion Fl; subst. repeat constructor. assumption.
  - discriminate.
Qed.

Lemma long_only_update p ts price :
  long_only p -> long_only (Portfolio.update p ts price).
Proof.
  intros (A & F & L). unfold long_only, Portfolio.update.
  destruct (Portfolio.current_position p) as [pos |]; simpl.
  - split; [assumption |]. split; [assumption |].
    intros pos' K. injection K as <-. simpl. now apply L.
  - split; [assumption |]. split; [assumption | discriminate].
Qed.

Lemma chain_long_only p es q :
  chain p es q -> paired p -> long_only p -> long_only q.
Proof.
  induction 1 as [p | p e es q Hb Hv Hc IH]; intros P L; [assumption |].
  subst p. unfold valid_call in Hv.
  destruct (ev_call e) as [ts price side | ts price | ts price].
  - destruct Hv as (_ & ok & Ho).
    apply IH; [eapply paired_open | eapply long_only_open]; eauto.
  - destruct Hv as (Hheld & Ha).
    destruct (Portfolio.current_position (ev_before e)) as [pos |] eqn:E;
      [| congruence].
    rewrite Ha in *. apply IH.
    + now apply (paired_close _ ts price pos E P).
    + eapply long_only_close; eauto.
  - rewrite Hv in *.
    apply IH; [now apply paired_update | now apply long_only_update].
Qed.

End LongOnly.

(** X8.  When the portfolio does not allow shorting, an execution loop
    started on a fresh portfolio never records a SHORT: every trade of the
    final log is LONG, whatever the signals and whatever the backtester's
    own [allow_short] flag. *)
Theorem no_short_without_allow_short
    (self : Backtester.t) (signals_df : list Backtester.Row)
    (self' : Backtester.t) :
  fresh (Backtester.portfolio self) ->
  Portfolio.allow_short (Backtester.portfolio self) = false ->
  Backtester.execute_trades self signals_df = Ok self' ->
  Forall (fun t => Trade.position_type t = LONG)
         (Portfolio.trades (Backtester.portfolio self')).
Proof.
  intros Hf A H.
  apply execute_trades_calls in H. destruct H as (news & _ & _ & _ & Hch).
  assert (L : long_only (Backtester.portfolio self)).
  { destruct Hf as (P & T & _). unfold long_only. rewrite P, T.
    split; [assumption |]. split; [constructor | discriminate]. }
  now destruct (chain_long_only _ _ _ Hch (fresh_paired _ Hf) L)
    as (_ & F & _).
Qed.

(** A backtester that would short, on a portfolio that does not allow it. *)
Lemma no_short_without_allow_short_witness :
  match Backtester.execute_trades
          (Backtester.mk 0 true (Portfolio.init 1000 0 1 false) [])
          three_rows
  with
  | Ok self' =>
      Forall (fun t => Trade.position_type t = LONG)
             (Portfolio.trades (Backtester.portfolio self'))
  | Raise _ => False
  end.
Proof.
  destruct (Backtester.execute_trades
              (Backtester.mk 0 true (Portfolio.init 1000 0 1 false) [])
              three_rows) as [self' | e] eqn:E.
  - apply (no_short_without_allow_short
             (Backtester.mk 0 true (Portfolio.init 1000 0 1 false) [])
             three_rows self' (fresh_init _ _ _ _) eq_refl E).
  - vm_compute in E. discriminate.
Defined.

Section FinalEquity.

Import Backtester.

Lemma process_rows_last_sample rows :
  forall self self',
  rows <> [] ->
  process_rows self rows = Ok self' ->
  exists curve,
    Portfolio.equity_curve (portfolio self')
    = curve ++ [Portfolio.equity (portfolio self')].
Proof.
  induction rows as [| row rows IH]; intros self self' Hne; [congruence |].
  simpl. destruct (process_row self row) as [mid | e] eqn:E; simpl;
    [| discriminate].
  destruct rows as [| row' rows].
  - simpl. intro H. injection H as <-.
    destruct (process_row_calls _ _ _ E) as (fills & m & _ & _ & _ & _ & Hp).
    rewrite Hp. eexists. apply update_curve.
  - apply IH. discriminate.
Qed.

End FinalEquity.

(** X9.  After an execution loop over a frame that is not empty, the
    [equity] field, which the results report as the final equity, is the
    last sample of the equity curve: the forced close of a position still
    open after the last row credits the cash but does not mark the equity
    again. *)
Theorem final_equity_is_last_sample
    (self : Backtester.t) (signals_df : list Backtester.Row)
    (self' : Backtester.t) :
  signals_df <> [] ->
  Backtester.execute_trades self signals_df = Ok self' ->
  exists curve,
    Portfolio.equity_curve (Backtester.portfolio self')
    = curve ++ [Portfolio.equity (Backtester.portfolio self')].
Proof.
  intros Hne. unfold Backtester.execute_trades.
  destruct (Backtester.process_rows self signals_df) as [mid | e] eqn:E;
    simpl; [| discriminate].
  destruct (process_rows_last_sample _ _ _ Hne E) as (curve & Hc).
  destruct (Backtester.flat mid) eqn:F.
  - intro H. injection H as <-. now exists curve.
  - destruct (Backtester.last_row signals_df) as [last | e]; simpl;
      [| discriminate].
    intro H. injection H as <-. exists curve.
    unfold Backtester.portfolio_close_position.
    destruct (Portfolio.current_position (Backtester.portfolio mid))
      as [pos |] eqn:P.
    + destruct (close_position_inv _ (Backtester.timestamp last)
                  (Backtester.close last) pos P) as (c & l & -> & _).
      simpl. exact Hc.
    + unfold Backtester.flat in F. rewrite P in F. discriminate.
Qed.

(** A position bought at 100 and still held at the last row, marked at
    120: the forced close credits the cash, the equity stays the sample. *)
Lemma final_equity_is_last_sample_witness :
  match Backtester.execute_trades (Backtester.init 1000 0 1 false 0)
          [Backtester.mkRow 1 1 100; Backtester.mkRow 2 0 120]
  with
  | Ok self' =>
      exists curve,
        Portfolio.equity_curve (Backtester.portfolio self')
        = curve ++ [Portfolio.equity (Backtester.portfolio self')]
  | Raise _ => False
  end.
Proof.
  destruct (Backtester.execute_trades (Backtester.init 1000 0 1 false 0)
              [Backtester.mkRow 1 1 100; Backtester.mkRow 2 0 120])
    as [self' | e] eqn:E.
  - apply (final_equity_is_last_sample
             (Backtester.init 1000 0 1 false 0)
             [Backtester.mkRow 1 1 100; Backtester.mkRow 2 0 120] self');
      [discriminate | exact E].
  - vm_compute in E. discriminate.
Defined.

(** * Further properties of the trade statistics *)

Section Statistics.

Import Portfolio.

Lemma filter_split_length {A : Type} (f : A -> bool) (l : list A) :
  (List.length (filter f l) + List.length (filter (fun x => negb (f x)) l)
   = List.length l)%nat.
Proof.
  induction l as [| x l IH]; simpl; [reflexivity |].
  destruct (f x); simpl; lia.
Qed.



Lemma sum_pos (l : list Q) :
  Forall (fun x => 0 < x) l -> l <> [] -> 0 < sum l.
Proof.
  intros F N. unfold sum. apply fold_left_Qplus_pos; [assumption | lra |].
  assumption.
Qed.


Variable self : Portfolio.t.




Lemma inject_nat_pos (n : nat) : (0 < n)%nat -> 0 < inject_Z (Z.of_nat n).
Proof.
  intro H. change 0 with (inject_Z 0). rewrite <- Zlt_Qlt. lia.
Qed.

Lemma inject_nat_le (n m : nat) :
  (n <= m)%nat -> inject_Z (Z.of_nat n) <= inject_Z (Z.of_nat m).
Proof. intro H. rewrite <- Zle_Qle. lia. Qed.

End Statistics.

(** X10.  The closed trades split into winners and losers:
    [winning_trades + losing_trades = total_trades].  [win_rate] is 0 when
    no trade is closed, lies between 0 and 100 otherwise, and is 100 exactly
    when some trade is closed and none is a loser. *)
Theorem win_rate_bounds (self : Portfolio.t) :
  (Portfolio.winning_trades self + Portfolio.losing_trades self
   = Portfolio.total_trades self)%nat
  /\ (Portfolio.total_trades self = 0%nat -> Portfolio.win_rate self = 0)
  /\ 0 <= Portfolio.win_rate self
  /\ Portfolio.win_rate self <= 100
  /\ (Portfolio.win_rate self == 100
      <-> (0 < Portfolio.total_trades self)%nat
          /\ Portfolio.losing_trades self = 0%nat).
Proof.
  assert (S : (Portfolio.winning_trades self + Portfolio.losing_trades self
               = Portfolio.total_trades self)%nat)
    by apply filter_split_length.
  split; [exact S |].
  unfold Portfolio.win_rate.
  destruct (Portfolio.total_trades self =? 0)%nat eqn:E.
  - apply Nat.eqb_eq in E. split; [reflexivity |].
    split; [lra |]. split; [lra |].
    split; [intro H; vm_compute in H; discriminate | intros [H _]; lia].
  - apply Nat.eqb_neq in E.
    assert (T : (0 < Portfolio.total_trades self)%nat) by lia.
    pose proof (inject_nat_pos _ T) as Tq.
    pose proof (inject_nat_le (Portfolio.winning_trades self)
                  (Portfolio.total_trades self) ltac:(lia)) as Wq.
    pose proof (inject_nat_le 0 (Portfolio.winning_trades self)
                  ltac:(lia)) as W0.
    change (inject_Z (Z.of_nat 0)) with 0 in W0.
    set (w := inject_Z (Z.of_nat (Portfolio.winning_trades self))) in *.
    set (t := inject_Z (Z.of_nat (Portfolio.total_trades self))) in *.
    assert (Eq : w / t * 100 * t == w * 100) by (field; lra).
    split; [intro H; lia |].
    split; [apply Qmult_le_0_compat; [apply Qle_shift_div_l; lra | lra] |].
    assert (Le : w / t <= 1) by (apply Qle_shift_div_r; lra).
    split; [lra |].
    split.
    + intro H. split; [assumption |].
      assert (Ew : w == t) by (rewrite H in Eq; lra).
      unfold w, t in Ew. apply (proj1 (inject_Z_injective _ _)) in Ew. lia.
    + intros [_ L].
      assert (Ew : Portfolio.winning_trades self = Portfolio.total_trades self)
        by lia.
      unfold w, t. rewrite Ew. field.
      fold t. lra.
Qed.



Lemma win_rate_bounds_witness :
  Portfolio.win_rate win_then_loss <= 100
  /\ ~ Portfolio.win_rate win_then_loss == 100
  /\ Portfolio.win_rate (Portfolio.init 1000 0 1 false) = 0.
Proof.
  destruct (win_rate_bounds win_then_loss) as (_ & _ & _ & Hle & Hiff).
  destruct (win_rate_bounds (Portfolio.init 1000 0 1 false))
    as (_ & H0 & _).
  split; [exact Hle |]. split.
  - intro H. apply Hiff in H. destruct H as [_ H]. vm_compute in H.
    discriminate.
  - apply H0. reflexivity.
Defined.

Section Averages.

Import Portfolio.


Variable self : Portfolio.t.



End Averages.



(** * Further properties of the metrics *)

Section Streaks.

Import PerformanceMetrics.

Variable value : Z.

Lemma loop_ge_max (arr : list Z) :
  forall m c, (m <= max_consecutive_loop arr value m c)%nat.
Proof.
  induction arr as [| v arr IH]; intros m c; simpl; [lia |].
  destruct (v =? value)%Z.
  - specialize (IH (Nat.max m (S c)) (S c)). lia.
  - apply IH.
Qed.

(** A run of [k >= 1] values at the head is counted on top of the current
    count. *)
Lemma loop_head_run (k : nat) :
  forall post m c,
  (c + S k <= max_consecutive_loop (repeat value (S k) ++ post) value m c)%nat.
Proof.
  induction k as [| k IH]; intros post m c; simpl; rewrite Z.eqb_refl.
  - pose proof (loop_ge_max post (Nat.max m (S c)) (S c)). lia.
  - specialize (IH post (Nat.max m (S c)) (S c)). simpl in IH.
    rewrite Z.eqb_refl in IH. lia.
Qed.

Lemma loop_any_run (pre : list Z) :
  forall k post m c,
  (k <= max_consecutive_loop (pre ++ repeat value k ++ post) value m c)%nat.
Proof.
  induction pre as [| x pre IH]; intros k post m c.
  - destruct k as [| k]; [lia |].
    pose proof (loop_head_run k post m c). simpl app in *. lia.
  - simpl. destruct (x =? value)%Z; apply IH.
Qed.

(** The result is the initial maximum, or the current count extended by a
    run at the head, or the length of a run inside the array. *)
Lemma loop_attained (arr : list Z) :
  forall m c,
  let r := max_consecutive_loop arr value m c in
  r = m
  \/ (exists k post, arr = repeat value k ++ post /\ r = (c + k)%nat)
  \/ (exists pre post, arr = pre ++ repeat value r ++ post).
Proof.
  induction arr as [| v arr IH]; intros m c; cbv zeta; simpl; [auto |].
  destruct (v =? value)%Z eqn:E.
  - apply Z.eqb_eq in E. subst v.
    destruct (IH (Nat.max m (S c)) (S c))
      as [H | [(k & post & Ha & Hr) | (pre & post & Ha)]].
    + destruct (Nat.max_spec m (S c)) as [[_ M] | [_ M]];
        rewrite M in H |- *.
      * right. left. exists 1%nat, arr. simpl. split; [reflexivity | lia].
      * left. exact H.
    + right. left. exists (S k), post. simpl. rewrite <- Ha.
      split; [reflexivity | lia].
    + right. right. exists (value :: pre), post. simpl. now rewrite <- Ha.
  - destruct (IH m 0%nat)
      as [H | [(k & post & Ha & Hr) | (pre & post & Ha)]].
    + left. exact H.
    + right. right. exists [v], post. simpl in Hr. rewrite Hr. simpl.
      now rewrite <- Ha.
    + right. right. exists (v :: pre), post. simpl. now rewrite <- Ha.
Qed.

Lemma count_run (pre post : list Z) (k : nat) :
  (k <= count_occ Z.eq_dec (pre ++ repeat value k ++ post) value)%nat.
Proof.
  rewrite !count_occ_app, count_occ_repeat_eq by reflexivity. lia.
Qed.

End Streaks.

Lemma max_consecutive_attained (arr : list Z) (value : Z) :
  exists pre post,
    arr = pre ++ repeat value (PerformanceMetrics.max_consecutive arr value)
              ++ post.
Proof.
  unfold PerformanceMetrics.max_consecutive.
  destruct arr as [| x l]; [exists [], []; reflexivity |].
  destruct (loop_attained value (x :: l) 0%nat 0%nat)
    as [H | [(k & post & Ha & Hr) | (pre & post & Ha)]].
  - rewrite H. exists [], (x :: l). reflexivity.
  - rewrite Hr. exists [], post. exact Ha.
  - exists pre, post. exact Ha.
Qed.

(** X14.  [_max_consecutive] returns the length of the longest run of
    [value] in the array: every run of consecutive occurrences is at most
    that long, and a run of exactly that length occurs.  For an empty array
    it is 0. *)
Theorem max_consecutive_is_longest_run (arr : list Z) (value : Z) :
  (forall pre k post,
      arr = pre ++ repeat value k ++ post ->
      (k <= PerformanceMetrics.max_consecutive arr value)%nat)
  /\ exists pre post,
       arr = pre ++ repeat value
                      (PerformanceMetrics.max_consecutive arr value)
                 ++ post.
Proof.
  unfold PerformanceMetrics.max_consecutive. split.
  - intros pre k post ->.
    destruct (pre ++ repeat value k ++ post) as [| x l] eqn:E.
    + destruct pre; [| discriminate]. destruct k; [lia | discriminate].
    + rewrite <- E. apply loop_any_run.
  - apply max_consecutive_attained.
Qed.

Lemma max_consecutive_is_longest_run_witness :
  (2 <= PerformanceMetrics.max_consecutive [1; -1; 1; 1; 0; 1]%Z 1%Z)%nat.
Proof.
  destruct (max_consecutive_is_longest_run [1; -1; 1; 1; 0; 1]%Z 1) as [H _].
  apply (H [1; -1]%Z 2%nat [0; 1]%Z). reflexivity.
Defined.

Section StreakCounts.

Import PerformanceMetrics.

Lemma max_consecutive_le_count (arr : list Z) (value : Z) :
  (max_consecutive arr value <= count_occ Z.eq_dec arr value)%nat.
Proof.
  destruct (max_consecutive_attained arr value) as (pre & post & E).
  rewrite E at 2. apply count_run.
Qed.

End StreakCounts.

Section SignCounts.

Import PerformanceMetrics.

Lemma sgn_pos (q : Q) : Z.sgn (Qnum q) = 1%Z <-> Qgtb q 0 = true.
Proof.
  rewrite Qgtb_true, Z.sgn_pos_iff. unfold Qlt. simpl. lia.
Qed.

Lemma sgn_neg (q : Q) : Z.sgn (Qnum q) = (-1)%Z -> Qle_bool q 0 = true.
Proof.
  rewrite Z.sgn_neg_iff, Qle_bool_iff. unfold Qle. simpl. lia.
Qed.

Lemma count_wins (l : list Trade.t) :
  count_occ Z.eq_dec (pnl_signs l) 1%Z
  = List.length (filter (fun t => Qgtb (Trade.pnl t) 0) l).
Proof.
  induction l as [| t l IH]; [reflexivity |].
  cbn [pnl_signs map count_occ filter]. fold (pnl_signs l).
  destruct (Z.eq_dec (Z.sgn (Qnum (Trade.pnl t))) 1%Z) as [E | N].
  - apply sgn_pos in E. rewrite E. simpl. now rewrite IH.
  - destruct (Qgtb (Trade.pnl t) 0) eqn:G; [| exact IH].
    apply sgn_pos in G. contradiction.
Qed.

Lemma count_losses (l : list Trade.t) :
  (count_occ Z.eq_dec (pnl_signs l) (-1)%Z
   <= List.length (filter (fun t => Qle_bool (Trade.pnl t) 0) l))%nat.
Proof.
  induction l as [| t l IH]; [simpl; lia |].
  cbn [pnl_signs map count_occ filter]. fold (pnl_signs l).
  destruct (Z.eq_dec (Z.sgn (Qnum (Trade.pnl t))) (-1)%Z) as [E | N].
  - apply sgn_neg in E. rewrite E. simpl. lia.
  - destruct (Qle_bool (Trade.pnl t) 0); simpl; lia.
Qed.

End SignCounts.

(** X15.  In the trade metrics, the longest winning streak is at most the
    number of winning trades and is 0 exactly when there is none; the
    longest losing streak, which counts strictly negative P&L only, is at
    most the number of losing trades. *)
Theorem streaks_within_counts (closed_trades : list Trade.t) :
  (PerformanceMetrics.max_consecutive_wins closed_trades
   <= List.length (filter (fun t => Qgtb (Trade.pnl t) 0) closed_trades))%nat
  /\ (PerformanceMetrics.max_consecutive_wins closed_trades = 0%nat
      <-> filter (fun t => Qgtb (Trade.pnl t) 0) closed_trades = [])
  /\ (PerformanceMetrics.max_consecutive_losses closed_trades
      <= List.length
           (filter (fun t => Qle_bool (Trade.pnl t) 0) closed_trades))%nat.
Proof.
  unfold PerformanceMetrics.max_consecutive_wins,
    PerformanceMetrics.max_consecutive_losses.
  pose proof (max_consecutive_le_count
                (PerformanceMetrics.pnl_signs closed_trades) 1%Z) as W.
  pose proof (max_consecutive_le_count
                (PerformanceMetrics.pnl_signs closed_trades) (-1)%Z) as L.
  rewrite count_wins in W. pose proof (count_losses closed_trades) as L'.
  split; [exact W |]. split; [| lia].
  split.
  - intro H.
    destruct (filter (fun t => Qgtb (Trade.pnl t) 0) closed_trades)
      as [| t ts] eqn:E; [reflexivity | exfalso].
    assert (C : (0 < count_occ Z.eq_dec
                       (PerformanceMetrics.pnl_signs closed_trades) 1%Z)%nat)
      by (rewrite count_wins, E; simpl; lia).
    apply count_occ_In in C. apply in_split in C.
    destruct C as (pre & post & C).
    pose proof (loop_any_run 1%Z pre 1%nat post 0%nat 0%nat) as R.
    simpl repeat in R. simpl app in R at 2. rewrite <- C in R.
    unfold PerformanceMetrics.max_consecutive in H.
    destruct (PerformanceMetrics.pnl_signs closed_trades);
      [destruct pre; discriminate | lia].
  - intro E. rewrite E in W. simpl in W. lia.
Qed.

Section DrawdownBound.

Lemma drawdown_gt_minus_100 (x m : Q) :
  0 < m -> 0 < x -> -100 < (x - m) / m * 100.
Proof.
  intros Hm Hx.
  assert (E : (x - m) / m * 100 == x / m * 100 - 100) by (field; lra).
  rewrite E.
  assert (P : 0 < x / m) by (apply Qlt_shift_div_l; lra).
  lra.
Qed.

Lemma drawdown_series_bounded (l : list Q) :
  forall m, 0 < m -> Forall (fun x => 0 < x) l ->
  exists dds,
    drawdown_series l (expanding_max_from m l) = Some dds
    /\ Forall (fun d => -100 < d) dds.
Proof.
  induction l as [| x l IH]; intros m Hm Hl.
  - exists []. split; [reflexivity | constructor].
  - inversion Hl as [| ? ? Hx Hl']; subst.
    cbn [expanding_max_from drawdown_series].
    destruct (Qle_bool m x) eqn:E.
    + destruct (IH x Hx Hl') as (dds & -> & Hb).
      assert (N : Qeq_bool x 0 = false) by (apply Qeq_bool_false; lra).
      rewrite N. eexists. split; [reflexivity |].
      constructor; [apply drawdown_gt_minus_100; lra | assumption].
    + destruct (IH m Hm Hl') as (dds & -> & Hb).
      assert (N : Qeq_bool m 0 = false) by (apply Qeq_bool_false; lra).
      rewrite N. eexists. split; [reflexivity |].
      constructor; [apply drawdown_gt_minus_100; lra | assumption].
Qed.

Lemma series_min_bounded (l : list Q) :
  forall x, -100 < x -> Forall (fun d => -100 < d) l ->
  -100 < series_min x l.
Proof.
  induction l as [| y l IH]; intros x Hx Hl; simpl; [assumption |].
  inversion Hl; subst. destruct (Qle_bool x y); apply IH; assumption.
Qed.

End DrawdownBound.

(** X16.  On an equity curve whose samples are all positive, the maximum
    drawdown computed by the backtester and by the metrics is a percentage:
    it is defined, not negative, and at most 100. *)
Theorem max_drawdown_at_most_100 (e0 : Q) (rest : list Q) :
  Forall (fun x => 0 < x) (e0 :: rest) ->
  exists d,
    Backtester.calculate_max_drawdown (e0 :: rest) = Some d
    /\ PerformanceMetrics.calculate_max_drawdown_value (e0 :: rest) = Some d
    /\ 0 <= d /\ d <= 100.
Proof.
  intro H. inversion H as [| ? ? H0 Hrest]; subst.
  unfold PerformanceMetrics.calculate_max_drawdown_value,
    Backtester.calculate_max_drawdown.
  cbn [expanding_max drawdown_series].
  assert (N : Qeq_bool e0 0 = false) by (apply Qeq_bool_false; lra).
  rewrite N.
  destruct (drawdown_series_from rest e0 H0) as (dds & Hd & Hle & _).
  destruct (drawdown_series_bounded rest e0 H0 Hrest) as (dds' & Hd' & Hb).
  rewrite Hd in Hd'. injection Hd' as <-. rewrite Hd.
  eexists. split; [reflexivity |]. split; [reflexivity |].
  split; [apply Qabs_nonneg |].
  assert (B0 : -100 < (e0 - e0) / e0 * 100)
    by (apply drawdown_gt_minus_100; lra).
  assert (D0 : (e0 - e0) / e0 * 100 <= 0)
    by (apply drawdown_le_0; lra).
  pose proof (series_min_bounded dds _ B0 Hb) as Hmin.
  destruct (series_min_le_0 dds _ D0 Hle) as [Hmax _].
  rewrite Qabs_neg by assumption. lra.
Qed.

Lemma max_drawdown_at_most_100_witness :
  exists d,
    Backtester.calculate_max_drawdown [100; 1; 50] = Some d
    /\ 0 <= d /\ d <= 100.
Proof.
  destruct (max_drawdown_at_most_100 100 [1; 50]) as (d & E & _ & H).
  - repeat constructor.
  - exists d. split; assumption.
Defined.

(** * Properties of the validated configurations *)

Section Booleans.

Lemma Qle_bool_false (a b : Q) : Qle_bool a b = false <-> b < a.
Proof.
  split; intro H.
  - apply Qnot_le_lt. intro K. apply Qle_bool_iff in K. congruence.
  - destruct (Qle_bool a b) eqn:E; [| reflexivity].
    apply Qle_bool_iff in E. lra.
Qed.

Lemma Qltb_true (a b : Q) : Validators.Qltb a b = true <-> a < b.
Proof.
  unfold Validators.Qltb. rewrite negb_true_iff. apply Qle_bool_false.
Qed.

Lemma Qltb_false (a b : Q) : Validators.Qltb a b = false <-> b <= a.
Proof.
  unfold Validators.Qltb. rewrite negb_false_iff. apply Qle_bool_iff.
Qed.

End Booleans.

(** Turns the boolean tests of the hypotheses into order facts. *)
Ltac order_facts :=
  repeat match goal with
    | H : _ && _ = true |- _ => apply andb_true_iff in H; destruct H
    | H : _ || _ = false |- _ => apply orb_false_iff in H; destruct H
    | H : negb _ = true |- _ => apply negb_true_iff in H
    | H : negb _ = false |- _ => apply negb_false_iff in H
    | H : Qgtb _ _ = true |- _ => apply Qgtb_true in H
    | H : Qgtb _ _ = false |- _ => apply Qgtb_false in H
    | H : Qle_bool _ _ = true |- _ => apply Qle_bool_iff in H
    | H : Qle_bool _ _ = false |- _ => apply Qle_bool_false in H
    | H : Validators.Qltb _ _ = true |- _ => apply Qltb_true in H
    | H : Validators.Qltb _ _ = false |- _ => apply Qltb_false in H
    | H : (_ <? _)%Z = true |- _ => apply Z.ltb_lt in H
    | H : (_ <? _)%Z = false |- _ => apply Z.ltb_ge in H
    | H : (_ <=? _)%Z = true |- _ => apply Z.leb_le in H
    | H : (_ <=? _)%Z = false |- _ => apply Z.leb_gt in H
    | H : (_ >=? _)%Z = true |- _ => rewrite Z.geb_le in H
    | H : (_ >=? _)%Z = false |- _ =>
        rewrite Z.geb_leb in H; apply Z.leb_gt in H
    end.

(** X17.  [BacktestConfig] accepts a configuration exactly when
    initial_capital > 0, 0 <= commission_rate <= 5%, 0 < position_size <= 1,
    0 <= slippage <= 0.5% and max_position_size, when given, is at least
    position_size; the accepted configuration carries the values as given.
    The declared [Field] bounds of 10% and 1% are never the binding ones. *)
Theorem backtest_config_accepts
    (initial_capital commission_rate position_size : Q) (allow_short : bool)
    (slippage : Q) (max_position_size : option Q)
    (config : Validators.BacktestConfig) :
  Validators.backtest_config initial_capital commission_rate position_size
    allow_short slippage max_position_size = Some config
  <-> config
      = Validators.mkBacktestConfig initial_capital commission_rate
          position_size allow_short slippage max_position_size
      /\ 0 < initial_capital
      /\ 0 <= commission_rate /\ commission_rate <= 5 # 100
      /\ 0 < position_size /\ position_size <= 1
      /\ 0 <= slippage /\ slippage <= 5 # 1000
      /\ (forall m, max_position_size = Some m -> position_size <= m).
Proof.
  unfold Validators.backtest_config, Validators.validate_commission,
    Validators.validate_slippage, Validators.validate_position_constraints.
  split.
  - destruct (negb (Qgtb initial_capital 0)) eqn:B1; [discriminate |].
    destruct (negb (Qle_bool 0 commission_rate && _)) eqn:B2;
      [discriminate |].
    destruct (negb (Qgtb position_size 0 && _)) eqn:B3; [discriminate |].
    destruct (negb (Qle_bool 0 slippage && _)) eqn:B4; [discriminate |].
    destruct (Qgtb commission_rate (5 # 100)) eqn:B5;
      [destruct max_position_size as [m |];
       [destruct (negb (Qgtb m 0)) |]; discriminate |].
    destruct (Qgtb slippage (5 # 1000)) eqn:B6;
      [destruct max_position_size as [m |];
       [destruct (negb (Qgtb m 0)) |]; discriminate |].
    order_facts.
    destruct max_position_size as [m |]; cbn.
    + destruct (negb (Qgtb m 0)) eqn:B7; [discriminate |].
      destruct (Validators.Qltb m position_size) eqn:B8; [discriminate |].
      order_facts. intro K. injection K as <-.
      repeat (split; [first [reflexivity | assumption] |]).
      intros m' E. now injection E as <-.
    + intro K. injection K as <-.
      repeat (split; [first [reflexivity | assumption] |]).
      discriminate.
  - intros (-> & H1 & H2 & H3 & H4 & H5 & H6 & H7 & H8).
    assert (B1 : Qgtb initial_capital 0 = true) by now apply Qgtb_true.
    assert (B2 : Qle_bool 0 commission_rate = true)
      by now apply Qle_bool_iff.
    assert (B2' : Qle_bool commission_rate (1 # 10) = true)
      by (apply Qle_bool_iff; lra).
    assert (B3 : Qgtb position_size 0 = true) by now apply Qgtb_true.
    assert (B3' : Qle_bool position_size 1 = true)
      by now apply Qle_bool_iff.
    assert (B4 : Qle_bool 0 slippage = true) by now apply Qle_bool_iff.
    assert (B4' : Qle_bool slippage (1 # 100) = true)
      by (apply Qle_bool_iff; lra).
    assert (B5 : Qgtb commission_rate (5 # 100) = false)
      by now apply Qgtb_false.
    assert (B6 : Qgtb slippage (5 # 1000) = false) by now apply Qgtb_false.
    rewrite B1, B2, B2', B3, B3', B4, B4', B5, B6. cbn.
    destruct max_position_size as [m |]; [| reflexivity].
    specialize (H8 m eq_refl).
    assert (B7 : Qgtb m 0 = true) by (apply Qgtb_true; lra).
    assert (B8 : Validators.Qltb m position_size = false)
      by now apply Qltb_false.
    rewrite B7. cbn. now rewrite B8.
Qed.

Lemma backtest_config_accepts_witness :
  Validators.backtest_config 10000 (1 # 1000) 1 false 0 None
  = Some (Validators.mkBacktestConfig 10000 (1 # 1000) 1 false 0 None).
Proof.
  apply (backtest_config_accepts 10000 (1 # 1000) 1 false 0 None).
  split; [reflexivity |].
  repeat (split; [first [reflexivity | vm_compute; discriminate] |]).
  discriminate.
Defined.



Section StrategyConfigs.

Lemma true_division_lt_2 (slow fast : Z) :
  (0 < fast)%Z ->
  (inject_Z slow / inject_Z fast < 2 <-> (slow < 2 * fast)%Z).
Proof.
  intro Hf.
  assert (Fq : 0 < inject_Z fast)
    by (change 0 with (inject_Z 0); now rewrite <- Zlt_Qlt).
  assert (E : inject_Z slow / inject_Z fast * inject_Z fast == inject_Z slow)
    by (field; lra).
  assert (M : inject_Z (2 * fast) == 2 * inject_Z fast)
    by (rewrite inject_Z_mult; reflexivity).
  rewrite Zlt_Qlt, M. split; intro H.
  - nra.
  - apply Qlt_shift_div_r; lra.
Qed.

End StrategyConfigs.

Lemma period_configs_accept_aux :
  (forall fast slow ma_type config,
      Validators.ma_strategy_config fast slow ma_type = Some config
      <-> config = Validators.mkMAStrategyConfig fast slow ma_type
          /\ (2 <= fast <= 199 /\ slow <= 499 /\ 2 * fast <= slow)%Z)
  /\ (forall fast slow signal config,
         Validators.macd_strategy_config fast slow signal = Some config
         <-> config = Validators.mkMACDStrategyConfig fast slow signal
             /\ (3 <= signal /\ signal < fast /\ fast < slow
                 /\ fast <= 49 /\ 11 <= slow <= 99)%Z).
Proof.
  split.
  - intros fast slow ma_type config.
    unfold Validators.ma_strategy_config, Validators.validate_periods.
    cbn [Validators.ma_fast_period Validators.ma_slow_period].
    split.
    + destruct (negb _) eqn:B1; [discriminate |].
      destruct (negb ((1 <? slow)%Z && _)) eqn:B2; [discriminate |].
      destruct (fast >=? slow)%Z eqn:B3; [discriminate |].
      destruct (Validators.Qltb _ _) eqn:B4; [discriminate |].
      order_facts. intro K. injection K as <-.
      split; [reflexivity |].
      assert (N : ~ inject_Z slow / inject_Z fast < 2) by lra.
      rewrite true_division_lt_2 in N by lia. lia.
    + intros (-> & H).
      assert (B1 : ((1 <? fast) && (fast <? 200) = true)%Z)
        by (apply andb_true_iff; split; apply Z.ltb_lt; lia).
      assert (B2 : ((1 <? slow) && (slow <? 500) = true)%Z)
        by (apply andb_true_iff; split; apply Z.ltb_lt; lia).
      assert (B3 : (fast >=? slow)%Z = false)
        by (rewrite Z.geb_leb; apply Z.leb_gt; lia).
      assert (B4 : Validators.Qltb (inject_Z slow / inject_Z fast) 2 = false).
      { apply Qltb_false. apply Qnot_lt_le.
        rewrite true_division_lt_2 by lia. lia. }
      now rewrite B1, B2, B3, B4.
  - intros fast slow signal config.
    unfold Validators.macd_strategy_config, Validators.validate_macd_periods.
    cbn [Validators.macd_fast_period Validators.macd_slow_period
         Validators.macd_signal_period].
    split.
    + destruct (negb _) eqn:B1; [discriminate |].
      destruct (negb ((10 <? slow)%Z && _)) eqn:B2; [discriminate |].
      destruct (negb ((2 <? signal)%Z && _)) eqn:B3; [discriminate |].
      destruct (fast >=? slow)%Z eqn:B4; [discriminate |].
      destruct (signal >=? fast)%Z eqn:B5; [discriminate |].
      order_facts. intro K. injection K as <-.
      split; [reflexivity | lia].
    + intros (-> & H).
      assert (B1 : ((2 <? fast) && (fast <? 50) = true)%Z)
        by (apply andb_true_iff; split; apply Z.ltb_lt; lia).
      assert (B2 : ((10 <? slow) && (slow <? 100) = true)%Z)
        by (apply andb_true_iff; split; apply Z.ltb_lt; lia).
      assert (B3 : ((2 <? signal) && (signal <? 50) = true)%Z)
        by (apply andb_true_iff; split; apply Z.ltb_lt; lia).
      assert (B4 : (fast >=? slow)%Z = false)
        by (rewrite Z.geb_leb; apply Z.leb_gt; lia).
      assert (B5 : (signal >=? fast)%Z = false)
        by (rewrite Z.geb_leb; apply Z.leb_gt; lia).
      now rewrite B1, B2, B3, B4, B5.
Qed.

(** X19.  [MAStrategyConfig] accepts exactly the periods with
    2 <= fast <= 199, slow <= 499 and slow >= 2 x fast (its first test,
    fast >= slow, never decides alone); [MACDStrategyConfig] accepts exactly
    the periods with 3 <= signal < fast < slow, fast <= 49 and
    11 <= slow <= 99. *)
Theorem period_configs_accept :
  (forall fast slow ma_type config,
      Validators.ma_strategy_config fast slow ma_type = Some config
      <-> config = Validators.mkMAStrategyConfig fast slow ma_type
          /\ (2 <= fast <= 199 /\ slow <= 499 /\ 2 * fast <= slow)%Z)
  /\ (forall fast slow signal config,
         Validators.macd_strategy_config fast slow signal = Some config
         <-> config = Validators.mkMACDStrategyConfig fast slow signal
             /\ (3 <= signal /\ signal < fast /\ fast < slow
                 /\ fast <= 49 /\ 11 <= slow <= 99)%Z).
Proof. exact period_configs_accept_aux. Qed.

Lemma period_configs_accept_witness :
  Validators.ma_strategy_config 10 30 Validators.SMA
  = Some (Validators.mkMAStrategyConfig 10 30 Validators.SMA)
  /\ Validators.macd_strategy_config 12 26 9
     = Some (Validators.mkMACDStrategyConfig 12 26 9).
Proof.
  split.
  - apply (proj2 (proj1 period_configs_accept 10 30 Validators.SMA _))%Z.
    split; [reflexivity | lia].
  - apply (proj2 (proj2 period_configs_accept 12 26 9 _))%Z.
    split; [reflexivity | lia].
Defined.

(** X20.  Every parameter set that a pydantic strategy configuration
    accepts also passes the [validate_parameters] of the strategy it
    configures: moving-average crossover, RSI, Bollinger Bands and MACD. *)
Theorem accepted_configs_pass_strategy_checks :
  (forall fast slow ma_type config,
      Validators.ma_strategy_config fast slow ma_type = Some config ->
      Strategies.ma_validate_parameters fast slow
        (Validators.MATypeEnum_value ma_type) = Some true)
  /\ (forall period oversold overbought config,
         Validators.rsi_strategy_config period oversold overbought
         = Some config ->
         Strategies.rsi_validate_parameters period oversold overbought
         = Some true)
  /\ (forall period std_dev config,
         Validators.bollinger_bands_config period std_dev = Some config ->
         Strategies.bb_validate_parameters period std_dev = Some true)
  /\ (forall fast slow signal config,
         Validators.macd_strategy_config fast slow signal = Some config ->
         Strategies.macd_validate_parameters fast slow signal = Some true).
Proof.
  split; [| split; [| split]].
  - intros fast slow ma_type config H.
    apply (proj1 period_configs_accept_aux) in H.
    destruct H as (_ & H). unfold Strategies.ma_validate_parameters.
    assert (B1 : (fast >=? slow)%Z = false)
      by (rewrite Z.geb_leb; apply Z.leb_gt; lia).
    assert (B2 : (fast <=? 0)%Z = false) by (apply Z.leb_gt; lia).
    assert (B3 : (slow <=? 0)%Z = false) by (apply Z.leb_gt; lia).
    rewrite B1, B2, B3. now destruct ma_type.
  - intros period oversold overbought config.
    unfold Validators.rsi_strategy_config, Validators.validate_thresholds.
    cbn [Validators.oversold_threshold Validators.overbought_threshold].
    destruct (negb _) eqn:B1; [discriminate |].
    destruct (negb (Qgtb oversold 0 && _)) eqn:B2; [discriminate |].
    destruct (negb (Qgtb overbought 50 && _)) eqn:B3; [discriminate |].
    destruct (Validators.Qltb _ 20) eqn:B4; [discriminate |].
    order_facts. intros _. unfold Strategies.rsi_validate_parameters.
    assert (C1 : (period <=? 0)%Z = false) by (apply Z.leb_gt; lia).
    assert (C2 : Qle_bool 0 oversold = true) by (apply Qle_bool_iff; lra).
    assert (C3 : Validators.Qltb oversold overbought = true)
      by (apply Qltb_true; lra).
    assert (C4 : Qle_bool overbought 100 = true)
      by (apply Qle_bool_iff; lra).
    now rewrite C1, C2, C3, C4.
  - intros period std_dev config.
    unfold Validators.bollinger_bands_config, Validators.validate_std_dev.
    destruct (negb _) eqn:B1; [discriminate |].
    destruct (negb (Qgtb std_dev (5 # 10) && _)) eqn:B2; [discriminate |].
    order_facts. intros _. unfold Strategies.bb_validate_parameters.
    assert (C1 : (period <=? 0)%Z = false) by (apply Z.leb_gt; lia).
    assert (C2 : Qle_bool std_dev 0 = false)
      by (apply Qle_bool_false; lra).
    now rewrite C1, C2.
  - intros fast slow signal config H.
    apply (proj2 period_configs_accept_aux) in H.
    destruct H as (_ & H). unfold Strategies.macd_validate_parameters.
    assert (B1 : (fast >=? slow)%Z = false)
      by (rewrite Z.geb_leb; apply Z.leb_gt; lia).
    assert (B2 : (fast <=? 0)%Z = false) by (apply Z.leb_gt; lia).
    assert (B3 : (slow <=? 0)%Z = false) by (apply Z.leb_gt; lia).
    assert (B4 : (signal <=? 0)%Z = false) by (apply Z.leb_gt; lia).
    now rewrite B1, B2, B3, B4.
Qed.

Lemma accepted_configs_pass_strategy_checks_witness :
  Validators.rsi_strategy_config 14 30 70
  = Some (Validators.mkRSIStrategyConfig 14 30 70)
  /\ Strategies.rsi_validate_parameters 14 30 70 = Some true.
Proof.
  assert (E : Validators.rsi_strategy_config 14 30 70
              = Some (Validators.mkRSIStrategyConfig 14 30 70))
    by reflexivity.
  split; [exact E |].
  exact (proj1 (proj2 accepted_configs_pass_strategy_checks) _ _ _ _ E).
Defined.

(** * Properties of the signals and indicators *)

Section IndexedSignals.

(** The entry of a column that is computed index by index. *)
Lemma nth_indexed (g : nat -> Z) (n i : nat) :
  g 0%nat = 0%Z ->
  nth i (map g (seq 0 n)) 0%Z = if (i <? n)%nat then g i else 0%Z.
Proof.
  intro G0. destruct (i <? n)%nat eqn:E.
  - apply Nat.ltb_lt in E.
    rewrite <- G0 at 1. rewrite map_nth, seq_nth by assumption. reflexivity.
  - apply Nat.ltb_ge in E. apply nth_overflow.
    now rewrite length_map, length_seq.
Qed.

Lemma crossover_signal_buy fast slow fast_prev slow_prev :
  IndicatorsFast.crossover_signal fast slow fast_prev slow_prev = 1%Z ->
  exists f s fp sp,
    fast = Some f /\ slow = Some s /\ fast_prev = Some fp
    /\ slow_prev = Some sp /\ s < f /\ fp <= sp.
Proof.
  unfold IndicatorsFast.crossover_signal.
  destruct fast as [f |], slow as [s |], fast_prev as [fp |],
    slow_prev as [sp |]; try discriminate.
  destruct (Qgtb f s && Qle_bool fp sp) eqn:B.
  - order_facts. intros _. exists f, s, fp, sp. auto 10.
  - destruct (Validators.Qltb f s && Qle_bool sp fp); discriminate.
Qed.

Lemma crossover_signal_sell fast slow fast_prev slow_prev :
  IndicatorsFast.crossover_signal fast slow fast_prev slow_prev = (-1)%Z ->
  exists f s fp sp,
    fast = Some f /\ slow = Some s /\ fast_prev = Some fp
    /\ slow_prev = Some sp /\ f < s /\ sp <= fp.
Proof.
  unfold IndicatorsFast.crossover_signal.
  destruct fast as [f |], slow as [s |], fast_prev as [fp |],
    slow_prev as [sp |]; try discriminate.
  destruct (Qgtb f s && Qle_bool fp sp) eqn:B; [discriminate |].
  destruct (Validators.Qltb f s && Qle_bool sp fp) eqn:C; [| discriminate].
  order_facts. intros _. exists f, s, fp, sp. auto 10.
Qed.

Lemma crossover_signal_range fast slow fast_prev slow_prev :
  In (IndicatorsFast.crossover_signal fast slow fast_prev slow_prev)
     [1; -1; 0]%Z.
Proof.
  unfold IndicatorsFast.crossover_signal.
  destruct fast, slow, fast_prev, slow_prev; simpl; auto.
  destruct (_ && _); [auto |]. destruct (_ && _); auto.
Qed.

End IndexedSignals.

(** X21.  [generate_crossover_signals_fast] returns one signal per bar,
    each of them 1, -1 or 0, the first one 0.  A BUY at a bar means that the
    fast average is above the slow one there and was not at the bar before;
    a SELL means the converse.  Hence no two consecutive bars are both BUY
    or both SELL. *)
Theorem crossover_signals_spec
    (fast_ma slow_ma : list (option Q)) (signals : list Z) :
  IndicatorsFast.generate_crossover_signals_fast fast_ma slow_ma
  = Some signals ->
  List.length signals = List.length fast_ma
  /\ nth 0 signals 0%Z = 0%Z
  /\ Forall (fun s => In s [1; -1; 0]%Z) signals
  /\ (forall i,
         nth (S i) signals 0%Z = 1%Z ->
         exists f s fp sp,
           nth (S i) fast_ma None = Some f /\ nth (S i) slow_ma None = Some s
           /\ nth i fast_ma None = Some fp /\ nth i slow_ma None = Some sp
           /\ s < f /\ fp <= sp)
  /\ (forall i,
         nth (S i) signals 0%Z = (-1)%Z ->
         exists f s fp sp,
           nth (S i) fast_ma None = Some f /\ nth (S i) slow_ma None = Some s
           /\ nth i fast_ma None = Some fp /\ nth i slow_ma None = Some sp
           /\ f < s /\ sp <= fp)
  /\ no_repeated_signal signals.
Proof.
  unfold IndicatorsFast.generate_crossover_signals_fast. cbv zeta.
  destruct (List.length slow_ma <? List.length fast_ma)%nat; [discriminate |].
  intro H. injection H as <-.
  set (g := fun i : nat =>
              match i with
              | O => 0%Z
              | S j =>
                  IndicatorsFast.crossover_signal
                    (nth i fast_ma None) (nth i slow_ma None)
                    (nth j fast_ma None) (nth j slow_ma None)
              end).
  assert (N : forall i,
             nth i (map g (seq 0 (List.length fast_ma))) 0%Z
             = if (i <? List.length fast_ma)%nat then g i else 0%Z)
    by (intro i; now apply nth_indexed).
  assert (Buy : forall i,
             nth (S i) (map g (seq 0 (List.length fast_ma))) 0%Z = 1%Z ->
             exists f s fp sp,
               nth (S i) fast_ma None = Some f
               /\ nth (S i) slow_ma None = Some s
               /\ nth i fast_ma None = Some fp /\ nth i slow_ma None = Some sp
               /\ s < f /\ fp <= sp).
  { intros i. rewrite N. destruct (S i <? _)%nat; [| discriminate].
    apply crossover_signal_buy. }
  assert (Sell : forall i,
             nth (S i) (map g (seq 0 (List.length fast_ma))) 0%Z = (-1)%Z ->
             exists f s fp sp,
               nth (S i) fast_ma None = Some f
               /\ nth (S i) slow_ma None = Some s
               /\ nth i fast_ma None = Some fp /\ nth i slow_ma None = Some sp
               /\ f < s /\ sp <= fp).
  { intros i. rewrite N. destruct (S i <? _)%nat; [| discriminate].
    apply crossover_signal_sell. }
  split; [now rewrite length_map, length_seq |].
  split; [rewrite N; now destruct (0 <? _)%nat |].
  split.
  { apply Forall_forall. intros s Hs. apply in_map_iff in Hs.
    destruct Hs as ([| j] & <- & _); simpl; [auto |].
    apply crossover_signal_range. }
  split; [exact Buy |]. split; [exact Sell |].
  intro i. split; intros Hi Hn.
  - destruct i as [| i].
    + rewrite N in Hi. destruct (0 <? _)%nat; discriminate.
    + destruct (Buy i Hi) as (f & s & _ & _ & Ef & Es & _ & _ & Hlt & _).
      destruct (Buy (S i) Hn) as (_ & _ & fp & sp & _ & _ & Efp & Esp & _ & Hle).
      rewrite Ef in Efp. rewrite Es in Esp.
      injection Efp as <-. injection Esp as <-. lra.
  - destruct i as [| i].
    + rewrite N in Hi. destruct (0 <? _)%nat; discriminate.
    + destruct (Sell i Hi) as (f & s & _ & _ & Ef & Es & _ & _ & Hlt & _).
      destruct (Sell (S i) Hn)
        as (_ & _ & fp & sp & _ & _ & Efp & Esp & _ & Hle).
      rewrite Ef in Efp. rewrite Es in Esp.
      injection Efp as <-. injection Esp as <-. lra.
Qed.

Lemma crossover_signals_spec_witness :
  exists signals,
    IndicatorsFast.generate_crossover_signals_fast
      [None; Some 1; Some 3; Some 4; Some 1]
      [Some 2; Some 2; Some 2; Some 2; Some 2]
    = Some signals
    /\ signals = [0; 0; 1; 0; -1]%Z
    /\ no_repeated_signal signals.
Proof.
  eexists. split; [reflexivity |]. split; [reflexivity |].
  refine (proj2 (proj2 (proj2 (proj2 (proj2
            (crossover_signals_spec
               [None; Some 1; Some 3; Some 4; Some 1]
               [Some 2; Some 2; Some 2; Some 2; Some 2] _ _)))))).
  reflexivity.
Defined.

Section RsiSignals.

Lemma rsi_signal_buy oversold overbought rsi rsi_prev :
  IndicatorsFast.rsi_signal oversold overbought rsi rsi_prev = 1%Z ->
  exists r rp, rsi = Some r /\ rsi_prev = Some rp
               /\ oversold < r /\ rp <= oversold.
Proof.
  unfold IndicatorsFast.rsi_signal.
  destruct rsi as [r |], rsi_prev as [rp |]; try discriminate.
  destruct (Qgtb r oversold && Qle_bool rp oversold) eqn:B.
  - order_facts. intros _. exists r, rp. auto.
  - destruct (Validators.Qltb r overbought && Qle_bool overbought rp);
      discriminate.
Qed.

Lemma rsi_signal_sell oversold overbought rsi rsi_prev :
  IndicatorsFast.rsi_signal oversold overbought rsi rsi_prev = (-1)%Z ->
  exists r rp, rsi = Some r /\ rsi_prev = Some rp
               /\ r < overbought /\ overbought <= rp.
Proof.
  unfold IndicatorsFast.rsi_signal.
  destruct rsi as [r |], rsi_prev as [rp |]; try discriminate.
  destruct (Qgtb r oversold && Qle_bool rp oversold) eqn:B; [discriminate |].
  destruct (Validators.Qltb r overbought && Qle_bool overbought rp) eqn:C;
    [| discriminate].
  order_facts. intros _. exists r, rp. auto.
Qed.

End RsiSignals.

(** X22.  [generate_rsi_signals_fast] returns one signal per bar, the
    first one 0.  A BUY at a bar means that the RSI is above the oversold
    level there and was at or below it at the bar before; a SELL means that
    it is below the overbought level and was at or above it before.  Hence
    no two consecutive bars are both BUY or both SELL. *)
Theorem rsi_signals_fast_spec
    (rsi : list (option Q)) (oversold overbought : Q) :
  let signals :=
    IndicatorsFast.generate_rsi_signals_fast rsi oversold overbought in
  List.length signals = List.length rsi
  /\ nth 0 signals 0%Z = 0%Z
  /\ (forall i,
         nth (S i) signals 0%Z = 1%Z ->
         exists r rp,
           nth (S i) rsi None = Some r /\ nth i rsi None = Some rp
           /\ oversold < r /\ rp <= oversold)
  /\ (forall i,
         nth (S i) signals 0%Z = (-1)%Z ->
         exists r rp,
           nth (S i) rsi None = Some r /\ nth i rsi None = Some rp
           /\ r < overbought /\ overbought <= rp)
  /\ no_repeated_signal signals.
Proof.
  unfold IndicatorsFast.generate_rsi_signals_fast. cbv zeta.
  set (g := fun i : nat =>
              match i with
              | O => 0%Z
              | S j =>
                  IndicatorsFast.rsi_signal oversold overbought
                    (nth i rsi None) (nth j rsi None)
              end).
  assert (N : forall i,
             nth i (map g (seq 0 (List.length rsi))) 0%Z
             = if (i <? List.length rsi)%nat then g i else 0%Z)
    by (intro i; now apply nth_indexed).
  assert (Buy : forall i,
             nth (S i) (map g (seq 0 (List.length rsi))) 0%Z = 1%Z ->
             exists r rp,
               nth (S i) rsi None = Some r /\ nth i rsi None = Some rp
               /\ oversold < r /\ rp <= oversold).
  { intros i. rewrite N. destruct (S i <? _)%nat; [| discriminate].
    apply rsi_signal_buy. }
  assert (Sell : forall i,
             nth (S i) (map g (seq 0 (List.length rsi))) 0%Z = (-1)%Z ->
             exists r rp,
               nth (S i) rsi None = Some r /\ nth i rsi None = Some rp
               /\ r < overbought /\ overbought <= rp).
  { intros i. rewrite N. destruct (S i <? _)%nat; [| discriminate].
    apply rsi_signal_sell. }
  split; [now rewrite length_map, length_seq |].
  split; [rewrite N; now destruct (0 <? _)%nat |].
  split; [exact Buy |]. split; [exact Sell |].
  intro i. split; intros Hi Hn.
  - destruct i as [| i].
    + rewrite N in Hi. destruct (0 <? _)%nat; discriminate.
    + destruct (Buy i Hi) as (r & _ & Er & _ & Hlt & _).
      destruct (Buy (S i) Hn) as (_ & rp & _ & Erp & _ & Hle).
      rewrite Er in Erp. injection Erp as <-. lra.
  - destruct i as [| i].
    + rewrite N in Hi. destruct (0 <? _)%nat; discriminate.
    + destruct (Sell i Hi) as (r & _ & Er & _ & Hlt & _).
      destruct (Sell (S i) Hn) as (_ & rp & _ & Erp & _ & Hle).
      rewrite Er in Erp. injection Erp as <-. lra.
Qed.

Lemma rsi_signals_fast_spec_witness :
  nth 1 (IndicatorsFast.generate_rsi_signals_fast
           [Some 25; Some 35; Some 75; Some 65] 30 70) 0%Z = 1%Z
  /\ exists r rp,
       nth 1 [Some 25; Some 35; Some 75; Some 65] None = Some r
       /\ nth 0 [Some 25; Some 35; Some 75; Some 65] None = Some rp
       /\ 30 < r /\ rp <= 30.
Proof.
  assert (E : nth 1 (IndicatorsFast.generate_rsi_signals_fast
                       [Some 25; Some 35; Some 75; Some 65] 30 70) 0%Z
              = 1%Z) by reflexivity.
  split; [exact E |].
  pose proof (rsi_signals_fast_spec
                [Some 25; Some 35; Some 75; Some 65] 30 70) as H.
  cbv zeta in H. destruct H as (_ & _ & Buy & _).
  exact (Buy 0%nat E).
Defined.

Section Alternation.

Lemma rsi_loop_alternates oversold overbought rsi :
  forall in_position rsi_previous,
  alternates in_position
    (Signals.rsi_signal_loop oversold overbought in_position rsi_previous
                             rsi).
Proof.
  induction rsi as [| r rsi IH]; intros b rp; simpl; [exact I |].
  destruct (negb b && _ && _) eqn:B.
  - simpl. split; [| apply IH].
    apply andb_true_iff in B. destruct B as [B _].
    apply andb_true_iff in B. destruct B as [B _].
    now apply negb_true_iff in B.
  - destruct (b && _ && _) eqn:C; simpl.
    + split; [| apply IH].
      apply andb_true_iff in C. destruct C as [C _].
      now apply andb_true_iff in C.
    + split; [reflexivity | apply IH].
Qed.

Lemma bb_loop_alternates rows :
  forall in_position,
  alternates in_position (Signals.bb_signal_loop in_position rows).
Proof.
  induction rows as [| row rows IH]; intros b; simpl; [exact I |].
  destruct (negb b && _) eqn:B.
  - simpl. split; [| apply IH].
    apply andb_true_iff in B. destruct B as [B _].
    now apply negb_true_iff in B.
  - destruct (b && _) eqn:C; simpl.
    + split; [| apply IH]. now apply andb_true_iff in C.
    + split; [reflexivity | apply IH].
Qed.

Lemma rsi_loop_length oversold overbought rsi :
  forall in_position rsi_previous,
  List.length (Signals.rsi_signal_loop oversold overbought in_position
                                       rsi_previous rsi)
  = List.length rsi.
Proof.
  induction rsi as [| r rsi IH]; intros b rp; simpl; [reflexivity |].
  destruct (negb b && _ && _); [simpl; now rewrite IH |].
  destruct (b && _ && _); simpl; now rewrite IH.
Qed.

Lemma bb_loop_length rows :
  forall in_position,
  List.length (Signals.bb_signal_loop in_position rows) = List.length rows.
Proof.
  induction rows as [| r rows IH]; intros b; simpl; [reflexivity |].
  destruct (negb b && _); [simpl; now rewrite IH |].
  destruct (b && _); simpl; now rewrite IH.
Qed.

(** In an alternating column the BUYs and the SELLs differ by at most one,
    on the side that the starting state tells. *)
Lemma alternates_counts signals :
  forall in_position,
  alternates in_position signals ->
  let buys := count_occ Z.eq_dec signals (SignalType_value BUY) in
  let sells := count_occ Z.eq_dec signals (SignalType_value SELL) in
  if in_position then (sells = buys \/ sells = S buys)%nat
  else (buys = sells \/ buys = S sells)%nat.
Proof.
  induction signals as [| s signals IH]; intros b H; cbv zeta.
  - destruct b; simpl; auto.
  - cbn [alternates] in H. cbn [count_occ].
    destruct (s =? SignalType_value BUY)%Z eqn:B.
    + apply Z.eqb_eq in B. subst s. destruct H as [-> H].
      specialize (IH true H). cbv beta iota zeta in IH.
      destruct (Z.eq_dec (SignalType_value BUY) (SignalType_value BUY));
        [| congruence].
      destruct (Z.eq_dec (SignalType_value BUY) (SignalType_value SELL));
        [discriminate |].
      lia.
    + destruct (s =? SignalType_value SELL)%Z eqn:S.
      * apply Z.eqb_eq in S. subst s. destruct H as [-> H].
        specialize (IH false H). cbv beta iota zeta in IH.
        destruct (Z.eq_dec (SignalType_value SELL) (SignalType_value BUY));
          [discriminate |].
        destruct (Z.eq_dec (SignalType_value SELL) (SignalType_value SELL));
          [| congruence].
        lia.
      * destruct H as [-> H]. specialize (IH b H). cbv zeta in IH.
        destruct (Z.eq_dec (SignalType_value HOLD) (SignalType_value BUY));
          [discriminate |].
        destruct (Z.eq_dec (SignalType_value HOLD) (SignalType_value SELL));
          [discriminate |].
        exact IH.
Qed.

End Alternation.

(** X23.  The signal column of [RSIStrategy.generate_signals] has one
    entry per row and starts with HOLD; its BUYs and SELLs alternate,
    starting with a BUY, so the number of BUYs is the number of SELLs or
    one more. *)
Theorem rsi_strategy_signals_alternate
    (oversold overbought : Q) (rsi : list (option Q)) :
  let signals := Signals.rsi_generate_signals oversold overbought rsi in
  List.length signals = List.length rsi
  /\ nth 0 signals 0%Z = SignalType_value HOLD
  /\ alternates false signals
  /\ (count_occ Z.eq_dec signals (SignalType_value BUY)
      = count_occ Z.eq_dec signals (SignalType_value SELL)
      \/ count_occ Z.eq_dec signals (SignalType_value BUY)
         = S (count_occ Z.eq_dec signals (SignalType_value SELL))).
Proof.
  cbv zeta.
  assert (A : alternates false
                (Signals.rsi_generate_signals oversold overbought rsi)).
  { destruct rsi as [| r0 rsi]; simpl; [exact I |].
    split; [reflexivity | apply rsi_loop_alternates]. }
  split.
  { destruct rsi as [| r0 rsi]; simpl; [reflexivity |].
    now rewrite rsi_loop_length. }
  split; [now destruct rsi |].
  split; [exact A |].
  exact (alternates_counts _ false A).
Qed.

(** X24.  The signal column of [BollingerBandsStrategy.generate_signals]
    has one entry per row and starts with HOLD; its BUYs and SELLs
    alternate, starting with a BUY, so the number of BUYs is the number of
    SELLs or one more. *)
Theorem bollinger_signals_alternate (rows : list Signals.BandRow) :
  let signals := Signals.bb_generate_signals rows in
  List.length signals = List.length rows
  /\ nth 0 signals 0%Z = SignalType_value HOLD
  /\ alternates false signals
  /\ (count_occ Z.eq_dec signals (SignalType_value BUY)
      = count_occ Z.eq_dec signals (SignalType_value SELL)
      \/ count_occ Z.eq_dec signals (SignalType_value BUY)
         = S (count_occ Z.eq_dec signals (SignalType_value SELL))).
Proof.
  cbv zeta.
  assert (A : alternates false (Signals.bb_generate_signals rows)).
  { destruct rows as [| r0 rows]; simpl; [exact I |].
    split; [reflexivity | apply bb_loop_alternates]. }
  split.
  { destruct rows as [| r0 rows]; simpl; [reflexivity |].
    now rewrite bb_loop_length. }
  split; [now destruct rows |].
  split; [exact A |].
  exact (alternates_counts _ false A).
Qed.

Section Ema.

(** A rounding to nearest: it keeps the order and returns the small
    integers, which are floats, as they are. *)
Variable rnd : Q -> Q.
Hypothesis rnd_monotone : forall x y, x <= y -> rnd x <= rnd y.
Hypothesis rnd_0 : rnd 0 == 0.
Hypothesis rnd_1 : rnd 1 == 1.
Hypothesis rnd_2 : rnd 2 == 2.

Lemma rnd_nonneg (x : Q) : 0 <= x -> 0 <= rnd x.
Proof. intro H. rewrite <- rnd_0. now apply rnd_monotone. Qed.

Lemma rnd_nonpos (x : Q) : x <= 0 -> rnd x <= 0.
Proof. intro H. rewrite <- rnd_0. now apply rnd_monotone. Qed.

Lemma ema_loop_length alpha prices :
  forall previous,
  List.length (IndicatorsFast.ema_loop rnd alpha previous prices)
  = List.length prices.
Proof.
  induction prices as [| p prices IH]; intro previous; simpl;
    [reflexivity | now rewrite IH].
Qed.

(** The two weights of a step, as computed, are not negative. *)
Lemma ema_weights alpha :
  0 <= alpha -> alpha <= 1 -> 0 <= rnd (1 - alpha).
Proof. intros A0 A1. apply rnd_nonneg. lra. Qed.

Lemma ema_loop_nonneg alpha prices :
  0 <= alpha -> alpha <= 1 ->
  forall previous,
  0 <= previous ->
  Forall (fun p => 0 <= p) prices ->
  Forall (fun x => 0 <= x)
         (IndicatorsFast.ema_loop rnd alpha previous prices).
Proof.
  intros A0 A1. pose proof (ema_weights alpha A0 A1) as W.
  induction prices as [| p prices IH]; intros previous Hp Hl; simpl;
    [constructor |].
  inversion Hl as [| ? ? Hb Hl']; subst.
  assert (H1 : 0 <= rnd (alpha * p)) by (apply rnd_nonneg; nra).
  assert (H2 : 0 <= rnd (rnd (1 - alpha) * previous))
    by (apply rnd_nonneg; nra).
  assert (Hc : 0 <= rnd (rnd (alpha * p) + rnd (rnd (1 - alpha) * previous)))
    by (apply rnd_nonneg; lra).
  constructor; [exact Hc | now apply IH].
Qed.

Lemma ema_loop_nonpos alpha prices :
  0 <= alpha -> alpha <= 1 ->
  forall previous,
  previous <= 0 ->
  Forall (fun p => p <= 0) prices ->
  Forall (fun x => x <= 0)
         (IndicatorsFast.ema_loop rnd alpha previous prices).
Proof.
  intros A0 A1. pose proof (ema_weights alpha A0 A1) as W.
  induction prices as [| p prices IH]; intros previous Hp Hl; simpl;
    [constructor |].
  inversion Hl as [| ? ? Hb Hl']; subst.
  assert (H1 : rnd (alpha * p) <= 0) by (apply rnd_nonpos; nra).
  assert (H2 : rnd (rnd (1 - alpha) * previous) <= 0)
    by (apply rnd_nonpos; nra).
  assert (Hc : rnd (rnd (alpha * p) + rnd (rnd (1 - alpha) * previous)) <= 0)
    by (apply rnd_nonpos; lra).
  constructor; [exact Hc | now apply IH].
Qed.

(** [alpha = 2.0 / (period + 1.0)], as computed, is a weight. *)
Lemma ema_alpha (period : Z) :
  (1 <= period)%Z ->
  ~ rnd (inject_Z period + 1) == 0
  /\ 0 <= rnd (2 / rnd (inject_Z period + 1))
  /\ rnd (2 / rnd (inject_Z period + 1)) <= 1.
Proof.
  intro H.
  assert (P : 1 <= inject_Z period)
    by (change 1 with (inject_Z 1); now rewrite <- Zle_Qle).
  assert (D : 2 <= rnd (inject_Z period + 1))
    by (rewrite <- rnd_2; apply rnd_monotone; lra).
  split; [lra |]. split.
  - apply rnd_nonneg. apply Qle_shift_div_l; lra.
  - apply Qle_trans with (rnd 1); [| rewrite rnd_1; lra].
    apply rnd_monotone. apply Qle_shift_div_r; lra.
Qed.

End Ema.

(** X25.  Whatever the rounding of the float operations, as long as it
    keeps the order and returns 0, 1 and 2 as they are: for a period of at
    least 1 and a price array that is not empty, [calculate_ema_fast]
    returns one value per price, the first one being the first price, and
    the average keeps the sign of its inputs: prices that are all at least 0
    give values that are all at least 0, and prices that are all at most 0
    give values that are all at most 0. *)
Theorem ema_keeps_sign (rnd : Q -> Q) (prices : list Q) (period : Z) :
  (forall x y, x <= y -> rnd x <= rnd y) ->
  rnd 0 == 0 -> rnd 1 == 1 -> rnd 2 == 2 ->
  (1 <= period)%Z ->
  prices <> [] ->
  exists ema,
    IndicatorsFast.calculate_ema_fast rnd prices period = Ok ema
    /\ List.length ema = List.length prices
    /\ nth 0 ema 0 = nth 0 prices 0
    /\ (Forall (fun p => 0 <= p) prices -> Forall (fun x => 0 <= x) ema)
    /\ (Forall (fun p => p <= 0) prices -> Forall (fun x => x <= 0) ema).
Proof.
  intros Hm R0 R1 R2 Hp Hne.
  destruct (ema_alpha rnd Hm R0 R1 R2 period Hp) as (Hd & A0 & A1).
  unfold IndicatorsFast.calculate_ema_fast, Rounded.fdiv.
  apply Qeq_bool_false in Hd. rewrite Hd. simpl.
  destruct prices as [| p0 prices]; [congruence |].
  eexists. split; [reflexivity |].
  split; [simpl; now rewrite ema_loop_length |].
  split; [reflexivity |].
  split; intro Hl; inversion Hl as [| ? ? H0 Hl']; subst.
  - constructor; [exact H0 | now apply ema_loop_nonneg].
  - constructor; [exact H0 | now apply ema_loop_nonpos].
Qed.

Lemma ema_keeps_sign_witness :
  exists ema,
    IndicatorsFast.calculate_ema_fast binary64
      [binary64 (1003 # 10); binary64 (1 # 10); 0] 9
    = Ok ema
    /\ List.length ema = 3%nat
    /\ Forall (fun x => 0 <= x) ema.
Proof.
  destruct binary64_small_integers as (R0 & R1 & R2).
  destruct (ema_keeps_sign binary64
              [binary64 (1003 # 10); binary64 (1 # 10); 0] 9
              binary64_monotone R0 R1 R2)
    as (ema & E & L & _ & B & _).
  - lia.
  - discriminate.
  - exists ema. split; [exact E |]. split; [exact L |].
    apply B. repeat constructor; vm_compute; discriminate.
Defined.

(** In binary64 the average can leave the range of its inputs: on two
    prices of 100.3 (the float nearest to it), with period 9, the second
    value is the price plus 2^-46, one unit in its last place. *)
Lemma ema_above_constant_price_in_binary64 :
  exists price above,
    IndicatorsFast.calculate_ema_fast binary64
      [binary64 (1003 # 10); binary64 (1003 # 10)] 9
    = Ok [price; above]
    /\ above == price + pow2 (-46).
Proof.
  eexists. eexists. split; vm_compute; reflexivity.
Qed.

Section Sma.


End Sma.



Section Rsi.









End Rsi.


